(** * Tiny-Shell (tsh): the job list and job control of [Solu_tsh.c]

    A shallow embedding of the shell's job list, of its built-in commands,
    of the SIGCHLD handler and of the foreground wait, followed by the
    properties stated about them.

    Conventions.
    - C [int] and [pid_t] values are integers of [Z].  The arithmetic of the
      job list ([nextjid++], [maxjid(jobs)+1], [-pid]) is taken without the
      32-bit bound, which a jid can only reach after more than 2^31 jobs;
      [atoi] is modelled with its range check.
    - [jobs] is the global array of [MAXJOBS] slots, a list here; every loop
      [for (i = 0; i < MAXJOBS; i++)] is a scan of that list in slot order.
    - The process is modelled by explicit state passing: the record [shell]
      holds the globals and the trace of what the process did to the outside
      world (text written to stdout, signals sent, processes created). *)

From Stdlib Require Import ZArith List String Ascii Bool Lia DecimalString.
Import ListNotations.

Open Scope string_scope.
Open Scope Z_scope.

(** ** Manifest constants *)

Definition MAXJOBS : Z := 16.
Definition MAXARGS : Z := 128.

Definition UNDEF : Z := 0.
Definition FG : Z := 1.
Definition BG : Z := 2.
Definition ST : Z := 3.

(** Signal numbers of <signal.h> on Linux/x86. *)
Definition SIGINT : Z := 2.
Definition SIGCONT : Z := 18.
Definition SIGTSTP : Z := 20.

Definition INT_MAX : Z := 2147483647.
Definition INT_MIN : Z := -2147483648.

(** ** Data *)

Record job_t := mkjob {
  pid : Z;          (* job PID *)
  jid : Z;          (* job ID [1, 2, ...] *)
  state : Z;        (* UNDEF, BG, FG, or ST *)
  cmdline : string  (* command line *)
}.

(** What the process does that is visible outside it, in program order. *)
Inductive event :=
| Print (text : string)            (* printf *)
| Kill (target sig : Z)            (* kill(target, sig) *)
| SigBlock                         (* sigprocmask(SIG_BLOCK, {SIGCHLD}) *)
| SigUnblock                       (* sigprocmask(SIG_UNBLOCK, {SIGCHLD}) *)
| Fork (ret : Z)                   (* fork() returned ret *)
| Setpgrp                          (* setpgrp() *)
| Execvp (file : string) (argv : list string).

Record shell := mkshell {
  jobs : list job_t;   (* struct job_t jobs[MAXJOBS] *)
  nextjid : Z;         (* next job ID to allocate *)
  verbose : bool;      (* if true, print additional output *)
  trace : list event
}.

Definition set_jobs (js : list job_t) (s : shell) : shell :=
  mkshell js (nextjid s) (verbose s) (trace s).
Definition set_nextjid (n : Z) (s : shell) : shell :=
  mkshell (jobs s) n (verbose s) (trace s).
Definition emit (e : event) (s : shell) : shell :=
  mkshell (jobs s) (nextjid s) (verbose s) (trace s ++ [e]).
Definition printf (text : string) (s : shell) : shell := emit (Print text) s.

(** [%d] of printf. *)
Definition string_of_Z (z : Z) : string := NilZero.string_of_int (Z.to_int z).

Definition nl : string := String (ascii_of_nat 10) EmptyString.

(** ** Slots of the job list *)

(** The first index [i] (in slot order) whose slot satisfies [P]: the shape
    of every [for] loop over [jobs] that stops at its first hit. *)
Fixpoint scan (P : job_t -> bool) (js : list job_t) : option nat :=
  match js with
  | [] => None
  | j :: rest => if P j then Some O else option_map S (scan P rest)
  end.

(** [jobs[i] = f (jobs[i])]. *)
Fixpoint upd (i : nat) (f : job_t -> job_t) (js : list job_t) : list job_t :=
  match js with
  | [] => []
  | j :: rest =>
      match i with
      | O => f j :: rest
      | S k => j :: upd k f rest
      end
  end.

Definition cleared : job_t := mkjob 0 0 UNDEF "".

Definition slot (i : nat) (js : list job_t) : job_t := nth i js cleared.

Definition set_state (st : Z) (j : job_t) : job_t :=
  mkjob (pid j) (jid j) st (cmdline j).

(** ** Helper routines that manipulate the job list *)

(** clearjob - Clear the entries in a job struct *)
Definition clearjob (j : job_t) : job_t := mkjob 0 0 UNDEF "".

(** initjobs - Initialize the job list *)
Definition initjobs (js : list job_t) : list job_t := map clearjob js.

(** maxjid - Returns largest allocated job ID *)
Definition maxjid (js : list job_t) : Z :=
  fold_left (fun max j => if jid j >? max then jid j else max) js 0.

(** addjob - Add a job to the job list *)
Definition addjob (s : shell) (p st : Z) (cmd : string) : Z * shell :=
  if p <? 1 then (0, s)
  else
    match scan (fun j => pid j =? 0) (jobs s) with
    | Some i =>
        let s1 := set_jobs (upd i (fun _ => mkjob p (nextjid s) st cmd) (jobs s)) s in
        let n := nextjid s + 1 in
        let s2 := set_nextjid (if n >? MAXJOBS then 1 else n) s1 in
        let s3 :=
          if verbose s2
          then printf ("Added job [" ++ string_of_Z (nextjid s) ++ "] "
                         ++ string_of_Z p ++ " " ++ cmd ++ nl) s2
          else s2 in
        (1, s3)
    | None => (0, printf ("Tried to create too many jobs" ++ nl) s)
    end.

(** deletejob - Delete a job whose PID=pid from the job list *)
Definition deletejob (s : shell) (p : Z) : Z * shell :=
  if p <? 1 then (0, s)
  else
    match scan (fun j => pid j =? p) (jobs s) with
    | Some i =>
        let js := upd i clearjob (jobs s) in
        (1, set_nextjid (maxjid js + 1) (set_jobs js s))
    | None => (0, s)
    end.

(** fgpid - Return PID of current foreground job, 0 if no such job *)
Definition fgpid (js : list job_t) : Z :=
  match scan (fun j => state j =? FG) js with
  | Some i => pid (slot i js)
  | None => 0
  end.

(** getjobpid - Find a job (by PID) on the job list; the result is the index
    of the slot the returned pointer designates, [None] for NULL. *)
Definition getjobpid (js : list job_t) (p : Z) : option nat :=
  if p <? 1 then None else scan (fun j => pid j =? p) js.

(** getjobjid - Find a job (by JID) on the job list *)
Definition getjobjid (js : list job_t) (id : Z) : option nat :=
  if id <? 1 then None else scan (fun j => jid j =? id) js.

(** pid2jid - Map process ID to job ID *)
Definition pid2jid (js : list job_t) (p : Z) : Z :=
  if p <? 1 then 0
  else match scan (fun j => pid j =? p) js with
       | Some i => jid (slot i js)
       | None => 0
       end.

(** The job list and the counter as [main] leaves them before the first
    command: the zero-initialised global array after [initjobs], [nextjid = 1]. *)
Definition init_shell (v : bool) : shell :=
  mkshell (initjobs (repeat cleared (Z.to_nat MAXJOBS))) 1 v [].

(** ** Sequences of job-list operations *)

Inductive op :=
| Add (p st : Z) (cmd : string)
| Delete (p : Z).

Definition step (s : shell) (o : op) : shell :=
  match o with
  | Add p st cmd => snd (addjob s p st cmd)
  | Delete p => snd (deletejob s p)
  end.

Definition run (ops : list op) (s : shell) : shell := fold_left step ops s.

(** The states the job list can be in after some sequence of [addjob] and
    [deletejob] calls on the initialised list. *)
Inductive reachable : shell -> Prop :=
| reach_init v : reachable (init_shell v)
| reach_step s o : reachable s -> reachable (step s o).

(** ** Outcomes of the control thread *)

(** A call of the control thread either returns, or ends the process with
    [exit], or replaces the process image ([execvp] succeeded), or is still
    polling when the events supplied by the environment run out, or
    dereferences NULL, writes out of bounds or calls [atoi] out of range. *)
Inductive outcome (A : Type) :=
| Ret (a : A) (s : shell)
| Exit (code : Z) (s : shell)
| Exec (s : shell)
| Blocked (s : shell)
| Fault.

Arguments Ret {A} a s.
Arguments Exit {A} code s.
Arguments Exec {A} s.
Arguments Blocked {A} s.
Arguments Fault {A}.

Definition bind {A B : Type} (m : outcome A) (k : A -> shell -> outcome B)
  : outcome B :=
  match m with
  | Ret a s => k a s
  | Exit c s => Exit c s
  | Exec s => Exec s
  | Blocked s => Blocked s
  | Fault => Fault
  end.

Notation "m >>= k" := (bind m k) (at level 50, left associativity).

(** ** Signal handlers *)

(** The status [waitpid] stores, as the three tests of the handler classify
    it: WIFSIGNALED with WTERMSIG, WIFEXITED with WEXITSTATUS, WIFSTOPPED
    with WSTOPSIG. *)
Inductive wstatus :=
| WSignaled (termsig : Z)
| WExited (code : Z)
| WStopped (stopsig : Z).

(** sigchld_handler - [reaped] lists what the successive calls
    [waitpid(-1, &stat, WNOHANG | WUNTRACED)] return; the loop ends at the
    end of the list or at the first pid that is not positive.  [None] is the
    dereference of the NULL that [getjobpid] returns for an untracked pid. *)
Fixpoint sigchld_handler (reaped : list (Z * wstatus)) (s : shell) : option shell :=
  match reaped with
  | [] => Some s
  | (p, stat) :: rest =>
      if p >? 0 then
        match stat with
        | WSignaled _ =>
            let s1 := printf ("Job [" ++ string_of_Z (pid2jid (jobs s) p) ++ "] ("
                                ++ string_of_Z p ++ ") terminated by signal 2") s in
            match getjobpid (jobs s1) p with
            | None => None
            | Some i =>
                let s2 := set_jobs (upd i (set_state UNDEF) (jobs s1)) s1 in
                sigchld_handler rest (snd (deletejob s2 p))
            end
        | WExited _ =>
            match getjobpid (jobs s) p with
            | None => None
            | Some i =>
                let s2 := set_jobs (upd i (set_state UNDEF) (jobs s)) s in
                sigchld_handler rest (snd (deletejob s2 p))
            end
        | WStopped _ =>
            let s1 := printf ("Job [" ++ string_of_Z (pid2jid (jobs s) p) ++ "] ("
                                ++ string_of_Z p ++ ") stopped by signal 20" ++ nl) s in
            match getjobpid (jobs s1) p with
            | None => None
            | Some i =>
                sigchld_handler rest (set_jobs (upd i (set_state ST) (jobs s1)) s1)
            end
        end
      else Some s
  end.

(** sigint_handler, sigtstp_handler - forward [sig] to the foreground job's
    process group. *)
Definition sigint_handler (sig : Z) (s : shell) : shell :=
  let p := fgpid (jobs s) in
  if negb (p =? 0) then emit (Kill (- p) sig) s else s.

Definition sigtstp_handler (sig : Z) (s : shell) : shell :=
  let p := fgpid (jobs s) in
  if negb (p =? 0) then emit (Kill (- p) sig) s else s.

(** ** waitfg *)

(** What happens while the control thread sleeps: one entry per [sleep(1)],
    holding the children the SIGCHLD handler reaps during that sleep (none,
    when no SIGCHLD arrives).  The handler is asynchronous; the control
    thread observes its effect on the job list at its next test of the
    state, so its runs are placed at the sleeps. *)
Definition events := list (list (Z * wstatus)).

(** The loop [while (fgprocess->state == 1) sleep(1);] on the slot
    [fgprocess] points to. *)
Fixpoint waitfg_loop (fgprocess : nat) (env : events) (s : shell) : outcome unit :=
  if state (slot fgprocess (jobs s)) =? 1 then
    match env with
    | [] => Blocked s
    | reaped :: env' =>
        match sigchld_handler reaped s with
        | Some s' => waitfg_loop fgprocess env' s'
        | None => Fault
        end
    end
  else Ret tt s.

(** waitfg - Block until process pid is no longer the foreground process *)
Definition waitfg (p : Z) (env : events) (s : shell) : outcome unit :=
  match getjobpid (jobs s) p with
  | None => Ret tt s
  | Some fgprocess => waitfg_loop fgprocess env s
  end.

(** listjobs - Print the job list *)
Fixpoint listjobs_loop (i : Z) (js : list job_t) (s : shell) : shell :=
  match js with
  | [] => s
  | j :: rest =>
      let s' :=
        if negb (pid j =? 0) then
          let s1 := printf ("[" ++ string_of_Z (jid j) ++ "] ("
                              ++ string_of_Z (pid j) ++ ") ") s in
          let s2 :=
            if state j =? BG then printf "Running " s1
            else if state j =? FG then printf "Foreground " s1
            else if state j =? ST then printf "Stopped " s1
            else printf ("listjobs: Internal error: job[" ++ string_of_Z i
                           ++ "].state=" ++ string_of_Z (state j) ++ " ") s1 in
          printf (cmdline j) s2
        else s in
      listjobs_loop (i + 1) rest s'
  end.

Definition listjobs (s : shell) : shell := listjobs_loop 0 (jobs s) s.

(** ** The C library functions the dispatcher uses *)

Definition code (c : ascii) : Z := Z.of_nat (nat_of_ascii c).

(** [s[0] == c]; false on the empty string, whose first byte is the
    terminating NUL. *)
Definition first_char_is (c : ascii) (s : string) : bool :=
  match s with
  | String a _ => Ascii.eqb a c
  | EmptyString => false
  end.

(** [s + 1]. *)
Definition behead (s : string) : string :=
  match s with
  | String _ rest => rest
  | EmptyString => EmptyString
  end.

Definition isspace (c : ascii) : bool :=
  (code c =? 32) || ((9 <=? code c) && (code c <=? 13)).

Definition isdigit (c : ascii) : bool := (48 <=? code c) && (code c <=? 57).

Fixpoint skip (P : ascii -> bool) (s : string) : string :=
  match s with
  | String c rest => if P c then skip P rest else s
  | EmptyString => s
  end.

(** The value of the longest prefix of decimal digits, continuing from [acc]. *)
Fixpoint digits_value (acc : Z) (s : string) : Z :=
  match s with
  | String c rest =>
      if isdigit c then digits_value (10 * acc + (code c - 48)) rest else acc
  | EmptyString => acc
  end.

(** atoi: white space, an optional sign, decimal digits.  The C standard
    leaves the call undefined when the value is not representable in [int]:
    [None]. *)
Definition atoi (s : string) : option Z :=
  let t := skip isspace s in
  let v :=
    if first_char_is "-" t then - digits_value 0 (behead t)
    else if first_char_is "+" t then digits_value 0 (behead t)
    else digits_value 0 t in
  if (INT_MIN <=? v) && (v <=? INT_MAX) then Some v else None.

(** ** do_bgfg - Execute the builtin bg and fg commands *)

(** The loop [while (result > 0) { result = result/10; count++; }]; an [int]
    has at most ten decimal digits, so ten iterations exhaust it. *)
Fixpoint count_loop (fuel : nat) (result count : Z) : Z :=
  match fuel with
  | O => count
  | S fuel' =>
      if result >? 0 then count_loop fuel' (Z.quot result 10) (count + 1)
      else count
  end.

Definition count_digits (result : Z) : Z := count_loop 10 result 0.

(** The chain of state changes applied to the job found in slot [i], whose
    pid is [p] ([result] in the pid branch, [result1] in the jid branch; the
    two branches carry the same text). *)
Definition change_state (cmd : string) (i : nat) (p : Z) (env : events)
    (s : shell) : outcome unit :=
  let st := state (slot i (jobs s)) in
  if (st =? ST) && (cmd =? "bg")%string then
    Ret tt (emit (Kill (- p) SIGCONT) (set_jobs (upd i (set_state BG) (jobs s)) s))
  else if (st =? ST) && (cmd =? "fg")%string then
    waitfg p env
      (emit (Kill (- p) SIGCONT) (set_jobs (upd i (set_state FG) (jobs s)) s))
  else if (st =? BG) && (cmd =? "fg")%string then
    waitfg p env (set_jobs (upd i (set_state FG) (jobs s)) s)
  else Ret tt s.

Definition do_bgfg (argv : list string) (env : events) (s : shell) : outcome unit :=
  match argv with
  | [] => Fault
  | cmd :: args =>
      if (cmd =? "fg")%string || (cmd =? "bg")%string then
        match args with
        | [] =>
            Ret tt (printf (cmd ++ ": command must be a PID or %jobid argument" ++ nl) s)
        | arg :: _ =>
            let l := Z.of_nat (String.length arg) in
            let percent := first_char_is "%" arg in
            let arg := if percent then String "0" (behead arg) else arg in
            let l := if percent then l - 1 else l in
            let flag := if percent then 1 else 0 in
            match atoi arg with
            | None => Fault
            | Some result =>
                let count := count_digits result in
                if negb (count =? l) then
                  Ret tt (printf (cmd ++ ": argument must be PID or %jobid" ++ nl) s)
                else
                  let temp := getjobpid (jobs s) result in
                  let temp1 := getjobjid (jobs s) result in
                  if flag =? 0 then
                    match temp with
                    | Some i =>
                        let s1 :=
                          printf ("JOB [" ++ string_of_Z (pid2jid (jobs s) result)
                                    ++ "] (" ++ string_of_Z result ++ ") "
                                    ++ string_of_Z (state (slot i (jobs s))) ++ nl) s in
                        change_state cmd i result env s1
                    | None =>
                        Ret tt (printf (string_of_Z result ++ " : No such process"
                                          ++ nl ++ " ") s)
                    end
                  else
                    match temp1 with
                    | Some i =>
                        let result1 := pid (slot i (jobs s)) in
                        change_state cmd i result1 env s
                    | None =>
                        Ret tt (printf ("%" ++ string_of_Z result ++ " : No such Job"
                                          ++ nl ++ " ") s)
                    end
            end
        end
      else Ret tt s
  end.

(** ** builtin_cmd - If the user has typed a built-in command then execute
    it immediately. *)
Definition builtin_cmd (argv : list string) (env : events) (s : shell) : outcome Z :=
  match argv with
  | [] => Fault
  | arg0 :: args =>
      if (arg0 =? "quit")%string && (match args with [] => true | _ => false end) then
        match scan (fun j => state j =? 3) (jobs s) with
        | Some _ => Ret 1 (printf ("there are stopped jobs" ++ nl) s)
        | None => Exit 0 s
        end
      else if (arg0 =? "jobs")%string then Ret 1 (listjobs s)
      else if (arg0 =? "fg")%string || (arg0 =? "bg")%string then
        do_bgfg argv env s >>= fun _ s' => Ret 1 s'
      else Ret 0 s
  end.

(** ** parseline - Parse the command line and build the argv array *)

(** [buf[strlen(buf)-1] = ' '], a write before the buffer ([None]) when the
    line is empty. *)
Fixpoint replace_last (s : string) : option string :=
  match s with
  | EmptyString => None
  | String c EmptyString => Some " "
  | String c rest => option_map (String c) (replace_last rest)
  end.

Definition is_space (c : ascii) : bool := Ascii.eqb c " ".

(** [strchr(buf, c)], then [*delim = '\0']: the text before the first [c] and
    the text after it. *)
Fixpoint strchr (c : ascii) (buf : string) : option (string * string) :=
  match buf with
  | EmptyString => None
  | String a rest =>
      if Ascii.eqb a c then Some (EmptyString, rest)
      else match strchr c rest with
           | Some (tok, after) => Some (String a tok, after)
           | None => None
           end
  end.

(** The choice of delimiter: up to the closing quote for an argument that
    opens with a single quote, up to the next space otherwise. *)
Definition find_delim (buf : string) : option (string * string) :=
  if first_char_is "'" buf then strchr "'" (behead buf)
  else strchr " " buf.

(** The loop [while (delim)]; every turn consumes at least the delimiter, so
    a fuel above the length of [buf] is never exhausted. *)
Fixpoint build_argv (fuel : nat) (buf : string) : list string :=
  match fuel with
  | O => []
  | S fuel' =>
      match find_delim buf with
      | Some (tok, after) => tok :: build_argv fuel' (skip is_space after)
      | None => []
      end
  end.

(** The argument vector (up to its terminating NULL) and the returned flag;
    [None] when the line is empty or overflows [argv[MAXARGS]]. *)
Definition parseline (cmdline : string) : option (list string * Z) :=
  match replace_last cmdline with
  | None => None
  | Some buf =>
      let buf := skip is_space buf in
      let argv := build_argv (S (String.length buf)) buf in
      if Z.of_nat (List.length argv) >=? MAXARGS then None
      else
        match argv with
        | [] => Some ([], 1)
        | _ =>
            if first_char_is "&" (last argv "") then Some (removelast argv, 1)
            else Some (argv, 0)
        end
  end.

(** ** eval - Evaluate the command line that the user has just typed in *)

(** What the operating system answers during one [eval]: the value [fork]
    returns in the process that continues, whether [execvp] succeeds, the
    text of [strerror(errno)] and the children reaped while the shell waits.
    [sigemptyset], [sigaddset], [sigprocmask] and [setpgrp] are taken to
    succeed. *)
Record os := mkos {
  fork_ret : Z;
  exec_ok : bool;
  strerror : string;
  reaped_during_wait : events
}.

(** unix_error - unix-style error routine *)
Definition unix_error {A : Type} (msg : string) (w : os) (s : shell) : outcome A :=
  Exit 1 (printf (msg ++ ": " ++ strerror w ++ nl) s).

Definition eval (cmdline : string) (w : os) (s : shell) : outcome unit :=
  match parseline cmdline with
  | None => Fault
  | Some (argv, bg) =>
      match argv with
      | [] => Ret tt s
      | arg0 :: _ =>
          builtin_cmd argv (reaped_during_wait w) s >>= fun r s =>
          if negb (r =? 0) then Ret tt s
          else
            let s := emit SigBlock s in
            let p := fork_ret w in
            let s := emit (Fork p) s in
            if p <? 0 then unix_error "forking error" w s
            else if p =? 0 then
              let s := emit Setpgrp s in
              let s := emit (Execvp arg0 argv) s in
              if exec_ok w then Exec s
              else Exit 1 (printf (arg0 ++ ": Command not found" ++ nl) s)
            else
              let s :=
                if bg =? 0 then snd (addjob s p FG cmdline)
                else snd (addjob s p BG cmdline) in
              let s := emit SigUnblock s in
              if bg =? 0 then waitfg p (reaped_during_wait w) s
              else Ret tt (printf ("[" ++ string_of_Z (pid2jid (jobs s) p) ++ "] ("
                                     ++ string_of_Z p ++ ") " ++ cmdline) s)
      end
  end.

(** [eval] with the asynchronous run of the SIGCHLD handler at the
    unblocking written out.  [pending] lists the children whose change of
    status is delivered when [sigprocmask(SIG_UNBLOCK, ...)] returns, because
    it occurred while the signal was blocked or right after: the handler
    reaps them before the control thread reads the job list again, in
    [waitfg] or in [pid2jid].  With no such child this is [eval]. *)
Definition eval_with_pending (pending : list (Z * wstatus)) (cmdline : string)
    (w : os) (s : shell) : outcome unit :=
  match parseline cmdline with
  | None => Fault
  | Some (argv, bg) =>
      match argv with
      | [] => Ret tt s
      | arg0 :: _ =>
          builtin_cmd argv (reaped_during_wait w) s >>= fun r s =>
          if negb (r =? 0) then Ret tt s
          else
            let s := emit SigBlock s in
            let p := fork_ret w in
            let s := emit (Fork p) s in
            if p <? 0 then unix_error "forking error" w s
            else if p =? 0 then
              let s := emit Setpgrp s in
              let s := emit (Execvp arg0 argv) s in
              if exec_ok w then Exec s
              else Exit 1 (printf (arg0 ++ ": Command not found" ++ nl) s)
            else
              let s :=
                if bg =? 0 then snd (addjob s p FG cmdline)
                else snd (addjob s p BG cmdline) in
              let s := emit SigUnblock s in
              match sigchld_handler pending s with
              | None => Fault
              | Some s =>
                  if bg =? 0 then waitfg p (reaped_during_wait w) s
                  else Ret tt (printf ("[" ++ string_of_Z (pid2jid (jobs s) p) ++ "] ("
                                         ++ string_of_Z p ++ ") " ++ cmdline) s)
              end
      end
  end.

(** * Predicates and example states *)

(** ** What the properties speak about *)

(** Every slot whose pid is 0 holds what [clearjob] writes. *)
Definition empty_slots_clear (js : list job_t) : Prop :=
  forall j, In j js -> pid j = 0 -> j = cleared.

(** The counter is one above the largest jid present, unless it has been
    reset to 1 since the last deletion: then a jid of 16 or more is present
    and the counter has not passed the largest. *)
Definition counter_ok (s : shell) : Prop :=
  nextjid s = 1 + maxjid (jobs s) \/
  (MAXJOBS <= maxjid (jobs s) /\ 1 <= nextjid s <= maxjid (jobs s)).

(** The jid the specification announces for the next job: one above the
    largest jid present, or 1 when that exceeds the capacity. *)
Definition announced_jid (js : list job_t) : Z :=
  if 1 + maxjid js >? MAXJOBS then 1 else 1 + maxjid js.

(** No two non-empty slots hold the same pid. *)
Definition unique_pids (js : list job_t) : Prop :=
  forall i k, (i < List.length js)%nat -> (k < List.length js)%nat ->
    pid (slot i js) <> 0 -> pid (slot i js) = pid (slot k js) -> i = k.

(** No two slots are in state FG. *)
Definition one_foreground (js : list job_t) : Prop :=
  forall i k, (i < List.length js)%nat -> (k < List.length js)%nat ->
    state (slot i js) = FG -> state (slot k js) = FG -> i = k.

(** The discipline [eval] follows when it calls [addjob]: the pid comes from
    [fork], so no job in the list has it, and a job is added in state FG only
    when no job is in the foreground. *)
Definition admissible (s : shell) (o : op) : Prop :=
  match o with
  | Add p st _ =>
      getjobpid (jobs s) p = None /\
      (st = FG -> scan (fun j => state j =? FG) (jobs s) = None)
  | Delete _ => True
  end.

(** Every operation of the sequence is admissible in the state it is
    applied to. *)
Fixpoint all_admissible (ops : list op) (s : shell) : Prop :=
  match ops with
  | [] => True
  | o :: rest => admissible s o /\ all_admissible rest (step s o)
  end.

(** Every character is a decimal digit. *)
Fixpoint all_digits (s : string) : bool :=
  match s with
  | String c rest => isdigit c && all_digits rest
  | EmptyString => true
  end.

(** The argument once an optional leading '%' is stripped. *)
Definition after_percent (arg : string) : string :=
  if first_char_is "%" arg then behead arg else arg.

(** The number of leading decimal digits. *)
Fixpoint digit_run (s : string) : nat :=
  match s with
  | String c rest => if isdigit c then S (digit_run rest) else O
  | EmptyString => O
  end.

(** The argument [arg] of bg or fg designates the job in slot [i]: a number
    that passes the digit count and is the pid of that job, or '%' and a
    number that passes the digit count and is the jid of that job. *)
Definition targets (arg : string) (js : list job_t) (i : nat) : Prop :=
  if first_char_is "%" arg then
    exists id, atoi (String "0" (behead arg)) = Some id /\
               count_digits id = Z.of_nat (String.length arg) - 1 /\
               getjobjid js id = Some i /\ 1 <= pid (slot i js)
  else
    exists p, atoi arg = Some p /\
              count_digits p = Z.of_nat (String.length arg) /\
              getjobpid js p = Some i.

(** The number of slots in use. *)
Definition job_count (js : list job_t) : nat :=
  List.length (filter (fun j => negb (pid j =? 0)) js).

(** No character is a space. *)
Fixpoint no_space (w : string) : bool :=
  match w with
  | String c rest => negb (is_space c) && no_space rest
  | EmptyString => true
  end.

(** No character is a single quote. *)
Fixpoint no_quote (w : string) : bool :=
  match w with
  | String c rest => negb (Ascii.eqb c "'") && no_quote rest
  | EmptyString => true
  end.

(** A word as typed without quoting: not empty, without a space, not
    opening with a single quote. *)
Definition plain_word (w : string) : bool :=
  negb (w =? "")%string && no_space w && negb (first_char_is "'" w).

(** The words, each followed by one space. *)
Fixpoint spaced (ws : list string) : string :=
  match ws with
  | [] => ""
  | w :: rest => w ++ " " ++ spaced rest
  end.

(** The event is a piece of text written to stdout. *)
Definition is_print (e : event) : Prop := exists text, e = Print text.

(** A word: not empty and without a space. *)
Definition good_word (w : string) : Prop := w <> "" /\ no_space w = true.

(** ** Job lists used as examples *)

(** A list in which every slot is taken: the sixteen jobs [n] (n), after
    which the counter has been reset to 1. *)
Definition full_shell : shell :=
  mkshell (map (fun n => mkjob (Z.of_nat n) (Z.of_nat n) BG "sleep") (seq 1 16))
    1 false [].

(** Sixteen jobs, then the first of them deleted: slot 0 is free, the
    largest jid present is 16. *)
Definition after_wrap : shell :=
  mkshell
    (cleared :: map (fun n => mkjob (Z.of_nat n) (Z.of_nat n) BG "sleep") (seq 2 15))
    17 false [].

(** Two jobs running in the background. *)
Definition two_jobs : shell :=
  mkshell (mkjob 5 1 BG "a" :: mkjob 6 2 BG "b" :: repeat cleared 14) 3 false [].

(** The same, the first job stopped. *)
Definition stopped_shell : shell :=
  mkshell (mkjob 5 1 ST "a" :: mkjob 6 2 BG "b" :: repeat cleared 14) 3 false [].

(** The shell with the single job [1] (100), running in the foreground. *)
Definition one_job : shell := run [Add 100 FG ("sleep 10" ++ nl)] (init_shell false).

(** The shell with the single job [1] (7), running in the background. *)
Definition job_seven : shell := run [Add 7 BG ("sleep 10 &" ++ nl)] (init_shell false).

(** * Properties *)

(** ** Scanning and updating slots *)

Section Slots.

Variable P : job_t -> bool.

Lemma scan_Some (js : list job_t) (i : nat) :
  scan P js = Some i ->
  (i < List.length js)%nat /\ P (slot i js) = true /\
  forall k, (k < i)%nat -> P (slot k js) = false.
Proof.
  revert i. induction js as [|j rest IH]; intros i; simpl.
  - discriminate.
  - destruct (P j) eqn:Hj.
    + intros [= <-]. repeat split; [lia | exact Hj | intros k Hk; lia].
    + destruct (scan P rest) as [i'|] eqn:Hs; simpl; [|discriminate].
      intros [= <-]. destruct (IH i' eq_refl) as (Hlen & Hi & Hlt).
      repeat split; [lia | exact Hi |].
      intros [|k] Hk; [exact Hj | apply Hlt; lia].
Qed.

Lemma scan_None (js : list job_t) :
  scan P js = None <-> forall j, In j js -> P j = false.
Proof.
  induction js as [|j rest IH]; simpl.
  - split; [intros _ j [] | reflexivity].
  - destruct (P j) eqn:Hj.
    + split; [discriminate | intros H; rewrite (H j (or_introl eq_refl)) in Hj; discriminate].
    + destruct (scan P rest) as [i'|]; simpl.
      * split; [discriminate |].
        intros H. assert (Hn : Some i' = None) by (apply IH; intros; apply H; now right).
        discriminate.
      * split; [|reflexivity].
        intros _ j' [<-|Hin]; [exact Hj | now apply IH].
Qed.

(** The slot found is the only candidate: any index that satisfies [P]
    and has none before it is the one [scan] returns. *)
Lemma scan_first (js : list job_t) (i : nat) :
  (i < List.length js)%nat -> P (slot i js) = true ->
  (forall k, (k < i)%nat -> P (slot k js) = false) ->
  scan P js = Some i.
Proof.
  revert i. induction js as [|j rest IH]; intros i Hlen Hi Hlt; simpl in *.
  - lia.
  - destruct i as [|i].
    + unfold slot in Hi; simpl in Hi. now rewrite Hi.
    + assert (Hj : P j = false) by (apply (Hlt O); lia).
      rewrite Hj, (IH i); [reflexivity | lia | exact Hi |].
      intros k Hk. apply (Hlt (S k)). lia.
Qed.

End Slots.

Lemma slot_In (i : nat) (js : list job_t) :
  (i < List.length js)%nat -> In (slot i js) js.
Proof. intros H. now apply nth_In. Qed.

Lemma upd_length (i : nat) (f : job_t -> job_t) (js : list job_t) :
  List.length (upd i f js) = List.length js.
Proof.
  revert i. induction js as [|j rest IH]; intros [|i]; simpl; auto.
Qed.

Lemma slot_upd_same (i : nat) (f : job_t -> job_t) (js : list job_t) :
  (i < List.length js)%nat -> slot i (upd i f js) = f (slot i js).
Proof.
  revert i. induction js as [|j rest IH]; intros [|i] H; simpl in *; try lia.
  - reflexivity.
  - apply IH. lia.
Qed.

Lemma slot_upd_other (i k : nat) (f : job_t -> job_t) (js : list job_t) :
  k <> i -> slot k (upd i f js) = slot k js.
Proof.
  revert i k. induction js as [|j rest IH]; intros [|i] [|k] H; simpl; try reflexivity.
  - congruence.
  - apply IH. congruence.
Qed.

(** Writing into a slot what it already holds changes nothing. *)
Lemma upd_id (i : nat) (f : job_t -> job_t) (js : list job_t) :
  f (slot i js) = slot i js -> upd i f js = js.
Proof.
  revert i. induction js as [|j rest IH]; intros [|i] H; simpl in *; try reflexivity.
  - unfold slot in H; simpl in H. now rewrite H.
  - f_equal. now apply IH.
Qed.

Lemma upd_upd (i : nat) (f g : job_t -> job_t) (js : list job_t) :
  upd i g (upd i f js) = upd i (fun j => g (f j)) js.
Proof.
  revert i. induction js as [|j rest IH]; intros [|i]; simpl; try reflexivity.
  now rewrite IH.
Qed.

Lemma In_upd (i : nat) (f : job_t -> job_t) (js : list job_t) (j : job_t) :
  In j (upd i f js) -> In j js \/ ((i < List.length js)%nat /\ j = f (slot i js)).
Proof.
  revert i. induction js as [|j0 rest IH]; intros [|i]; simpl; try tauto.
  - intros [<-|H]; [right; split; [lia | reflexivity] | tauto].
  - intros [<-|H]; [tauto|].
    destruct (IH i H) as [H'|[Hl He]]; [tauto|].
    right. split; [lia | exact He].
Qed.

(** ** The fuel of the two bounded loops *)

Lemma count_loop_fuel (n m : nat) (result count : Z) :
  result < 10 ^ Z.of_nat n -> (n <= m)%nat ->
  count_loop m result count = count_loop n result count.
Proof.
  revert m result count. induction n as [|n IH]; intros m result count Hr Hm.
  - change (10 ^ Z.of_nat 0) with 1 in Hr.
    destruct m; simpl; [reflexivity|].
    destruct (Z.gtb_spec result 0); [lia | reflexivity].
  - destruct m as [|m]; [lia|]. simpl.
    destruct (Z.gtb_spec result 0); [|reflexivity].
    apply IH; [|lia].
    rewrite Nat2Z.inj_succ, Z.pow_succ_r in Hr by lia.
    rewrite Z.quot_div_nonneg by lia.
    apply Z.div_lt_upper_bound; lia.
Qed.

(** Ten turns are enough for every [int]. *)
Lemma count_digits_fuel (m : nat) (result : Z) :
  result <= INT_MAX -> (10 <= m)%nat -> count_loop m result 0 = count_digits result.
Proof.
  intros Hr Hm. unfold count_digits. apply count_loop_fuel; [|exact Hm].
  unfold INT_MAX in Hr. change (10 ^ Z.of_nat 10) with 10000000000. lia.
Qed.

Lemma skip_length (P : ascii -> bool) (s : string) :
  (String.length (skip P s) <= String.length s)%nat.
Proof.
  induction s as [|c rest IH]; simpl; [lia|].
  destruct (P c); simpl; lia.
Qed.

Lemma strchr_length (c : ascii) (buf tok after : string) :
  strchr c buf = Some (tok, after) ->
  (String.length after < String.length buf)%nat.
Proof.
  revert tok. induction buf as [|a rest IH]; intros tok; simpl; [discriminate|].
  destruct (Ascii.eqb a c).
  - intros [= <- <-]. lia.
  - destruct (strchr c rest) as [[t r]|]; [|discriminate].
    intros [= <- <-]. specialize (IH t eq_refl). lia.
Qed.

Lemma find_delim_length (buf tok after : string) :
  find_delim buf = Some (tok, after) ->
  (String.length after < String.length buf)%nat.
Proof.
  unfold find_delim. destruct (first_char_is "'" buf).
  - intros H. apply strchr_length in H. destruct buf; simpl in *; lia.
  - apply strchr_length.
Qed.

(** Any fuel above the length of the buffer builds the same vector. *)
Lemma build_argv_fuel (n m : nat) (buf : string) :
  (String.length buf < n)%nat -> (String.length buf < m)%nat ->
  build_argv n buf = build_argv m buf.
Proof.
  revert m buf. induction n as [|n IH]; intros m buf Hn Hm; [lia|].
  destruct m as [|m]; [lia|]. simpl.
  destruct (find_delim buf) as [[tok after]|] eqn:Hd; [|reflexivity].
  f_equal. apply find_delim_length in Hd.
  pose proof (skip_length is_space after). apply IH; lia.
Qed.

(** ** addjob and deletejob, case by case *)

Lemma jobs_printf (t : string) (s : shell) : jobs (printf t s) = jobs s.
Proof. reflexivity. Qed.

Lemma addjob_cases (s : shell) (p st : Z) (cmd : string) :
  (addjob s p st cmd = (0, s) /\ p < 1) \/
  (addjob s p st cmd = (0, printf ("Tried to create too many jobs" ++ nl) s) /\
   1 <= p /\ scan (fun j => pid j =? 0) (jobs s) = None) \/
  (exists i s',
      addjob s p st cmd = (1, s') /\ 1 <= p /\
      scan (fun j => pid j =? 0) (jobs s) = Some i /\
      jobs s' = upd i (fun _ => mkjob p (nextjid s) st cmd) (jobs s) /\
      nextjid s' = (if nextjid s + 1 >? MAXJOBS then 1 else nextjid s + 1) /\
      verbose s' = verbose s).
Proof.
  unfold addjob. destruct (Z.ltb_spec p 1) as [Hp|Hp]; [left; split; [reflexivity | lia]|].
  right. destruct (scan _ (jobs s)) as [i|] eqn:Hs.
  - right. exists i. cbn [verbose set_nextjid set_jobs].
    destruct (verbose s) eqn:Hv; eexists; (split; [reflexivity|]);
      repeat split; try assumption; cbn; try reflexivity; exact Hv.
  - left. repeat split; assumption.
Qed.

Lemma deletejob_cases (s : shell) (p : Z) :
  (deletejob s p = (0, s) /\ getjobpid (jobs s) p = None) \/
  (exists i,
      deletejob s p =
        (1, set_nextjid (maxjid (upd i clearjob (jobs s)) + 1)
              (set_jobs (upd i clearjob (jobs s)) s)) /\
      1 <= p /\ getjobpid (jobs s) p = Some i).
Proof.
  unfold deletejob, getjobpid. destruct (Z.ltb_spec p 1) as [Hp|Hp]; [left; split; reflexivity|].
  destruct (scan _ (jobs s)) as [i|] eqn:Hs.
  - right. exists i. repeat split; assumption.
  - left. split; reflexivity.
Qed.

(** C8.  [addjob] fails (returns 0) and changes nothing at all when
    [pid < 1].  On a list without an empty slot it fails whatever the pid and
    leaves every slot and the counter as they were; there, for a pid that
    passed the first test, it prints exactly "Tried to create too many
    jobs".  When it succeeds, the new job sits in the first slot, in slot
    order, whose pid is 0, and no other slot has changed. *)
Theorem addjob_failure_and_first_empty_slot (s : shell) (p st : Z) (cmd : string) :
  (p < 1 -> addjob s p st cmd = (0, s)) /\
  ((forall j, In j (jobs s) -> pid j <> 0) ->
   fst (addjob s p st cmd) = 0 /\
   jobs (snd (addjob s p st cmd)) = jobs s /\
   nextjid (snd (addjob s p st cmd)) = nextjid s /\
   (1 <= p ->
    trace (snd (addjob s p st cmd))
    = (trace s ++ [Print ("Tried to create too many jobs" ++ nl)])%list)) /\
  (forall s', addjob s p st cmd = (1, s') ->
   exists i,
     (i < List.length (jobs s))%nat /\
     pid (slot i (jobs s)) = 0 /\
     (forall k, (k < i)%nat -> pid (slot k (jobs s)) <> 0) /\
     slot i (jobs s') = mkjob p (nextjid s) st cmd /\
     (forall k, k <> i -> slot k (jobs s') = slot k (jobs s)) /\
     List.length (jobs s') = List.length (jobs s)).
Proof.
  destruct (addjob_cases s p st cmd) as [[E Hp]|[(E & Hp & Hs)|(i & s1 & E & Hp & Hs & Hj & _)]].
  - split; [intros _; exact E|].
    split; [intros _; rewrite E; repeat split; intros; lia
           | intros s' E'; rewrite E in E'; discriminate].
  - split; [intros; lia|].
    split; [intros _; rewrite E; repeat split
           | intros s' E'; rewrite E in E'; discriminate].
  - split; [lia|]. split.
    + intros Hfull. apply scan_Some in Hs. destruct Hs as (Hlen & Hi & _).
      apply Z.eqb_eq in Hi. exfalso. exact (Hfull _ (slot_In _ _ Hlen) Hi).
    + intros s' E'. rewrite E in E'. injection E' as <-.
      apply scan_Some in Hs. destruct Hs as (Hlen & Hi & Hlt).
      exists i. rewrite Hj. repeat split.
      * exact Hlen.
      * now apply Z.eqb_eq.
      * intros k Hk. apply Z.eqb_neq. now apply Hlt.
      * now rewrite slot_upd_same.
      * intros k Hk. now apply slot_upd_other.
      * apply upd_length.
Qed.

Lemma full_shell_run :
  run (map (fun n => Add (Z.of_nat n) BG "sleep") (seq 1 16)) (init_shell false)
  = full_shell.
Proof. vm_compute. reflexivity. Qed.

Lemma full_shell_full : forall j, In j (jobs full_shell) -> pid j <> 0.
Proof.
  assert (H : forallb (fun j => negb (pid j =? 0)) (jobs full_shell) = true)
    by (vm_compute; reflexivity).
  intros j Hj. rewrite forallb_forall in H. specialize (H j Hj).
  apply Z.eqb_neq. now destruct (pid j =? 0).
Qed.

Lemma addjob_failure_and_first_empty_slot_witness :
  addjob (init_shell false) 0 BG "ls" = (0, init_shell false) /\
  trace (snd (addjob full_shell 99 BG "ls"))
    = (trace full_shell ++ [Print ("Tried to create too many jobs" ++ nl)])%list /\
  exists i, slot i (jobs (snd (addjob (init_shell false) 99 BG "ls")))
            = mkjob 99 1 BG "ls".
Proof.
  split; [|split].
  - apply (proj1 (addjob_failure_and_first_empty_slot (init_shell false) 0 BG "ls")). lia.
  - assert (Hp : 1 <= 99) by lia.
    exact (proj2 (proj2 (proj2
             (proj1 (proj2 (addjob_failure_and_first_empty_slot full_shell 99 BG "ls"))
                full_shell_full))) Hp).
  - destruct (proj2 (proj2 (addjob_failure_and_first_empty_slot
                              (init_shell false) 99 BG "ls")) _ eq_refl)
      as (i & _ & _ & _ & Hi & _).
    exists i. exact Hi.
Defined.

(** ** maxjid *)

Lemma maxjid_fold (js : list job_t) (a : Z) :
  0 <= a ->
  fold_left (fun max j => if jid j >? max then jid j else max) js a
  = Z.max a (maxjid js).
Proof.
  unfold maxjid. revert a. induction js as [|j rest IH]; intros a Ha; simpl.
  - lia.
  - rewrite (IH (if jid j >? a then jid j else a)), (IH (if jid j >? 0 then jid j else 0)).
    + destruct (Z.gtb_spec (jid j) a), (Z.gtb_spec (jid j) 0); lia.
    + destruct (Z.gtb_spec (jid j) 0); lia.
    + destruct (Z.gtb_spec (jid j) a); lia.
Qed.

Lemma maxjid_nonneg (js : list job_t) : 0 <= maxjid js.
Proof.
  destruct js as [|j rest]; [unfold maxjid; simpl; lia|].
  unfold maxjid; simpl. rewrite maxjid_fold; destruct (Z.gtb_spec (jid j) 0); lia.
Qed.

Lemma maxjid_cons (j : job_t) (rest : list job_t) :
  maxjid (j :: rest) = Z.max (jid j) (maxjid rest).
Proof.
  pose proof (maxjid_nonneg rest).
  unfold maxjid at 1; simpl. rewrite maxjid_fold; destruct (Z.gtb_spec (jid j) 0); lia.
Qed.

Lemma maxjid_upper (js : list job_t) (j : job_t) : In j js -> jid j <= maxjid js.
Proof.
  induction js as [|j0 rest IH]; [intros []|].
  rewrite maxjid_cons. intros [<-|H]; [lia | specialize (IH H); lia].
Qed.

(** Filling a slot whose jid is 0 with a job whose jid is not negative. *)
Lemma maxjid_upd_fresh (i : nat) (new : job_t) (js : list job_t) :
  (i < List.length js)%nat -> jid (slot i js) = 0 -> 0 <= jid new ->
  maxjid (upd i (fun _ => new) js) = Z.max (jid new) (maxjid js).
Proof.
  revert i. induction js as [|j rest IH]; intros [|i] Hlen Hz Hn; simpl in *; try lia.
  - unfold slot in Hz; simpl in Hz. rewrite !maxjid_cons.
    pose proof (maxjid_nonneg rest). lia.
  - rewrite !maxjid_cons, IH; [lia | lia | exact Hz | exact Hn].
Qed.

(** ** What every reachable job list satisfies *)

Lemma init_shell_jobs (v : bool) (j : job_t) : In j (jobs (init_shell v)) -> j = cleared.
Proof.
  intros H. vm_compute in H.
  repeat (destruct H as [<-|H]; [reflexivity|]). destruct H.
Qed.

Lemma reachable_invariant (s : shell) :
  reachable s ->
  empty_slots_clear (jobs s) /\ counter_ok s /\ List.length (jobs s) = Z.to_nat MAXJOBS.
Proof.
  induction 1 as [v|s o Hr (Hclear & Hcnt & Hlen)].
  - split; [|split].
    + intros j Hj _. now apply (init_shell_jobs v).
    + left. reflexivity.
    + reflexivity.
  - destruct o as [p st cmd|p]; simpl.
    + destruct (addjob_cases s p st cmd)
        as [[E _]|[(E & _ & _)|(i & s' & E & Hp & Hs & Hj & Hn & _)]];
        rewrite E; simpl; try (repeat split; assumption).
      apply scan_Some in Hs. destruct Hs as (Hi & Hz & _). apply Z.eqb_eq in Hz.
      assert (Hjid : jid (slot i (jobs s)) = 0)
        by (now rewrite (Hclear _ (slot_In _ _ Hi) Hz)).
      assert (Hmax : maxjid (jobs s') = Z.max (nextjid s) (maxjid (jobs s))).
      { rewrite Hj. rewrite maxjid_upd_fresh; [reflexivity | exact Hi | exact Hjid |].
        simpl. pose proof (maxjid_nonneg (jobs s)). destruct Hcnt; lia. }
      split; [|split].
      * intros j Hin Hpid. rewrite Hj in Hin.
        destruct (In_upd _ _ _ _ Hin) as [Hin'|[_ ->]]; [now apply Hclear|].
        simpl in Hpid. lia.
      * unfold counter_ok in *. rewrite Hn, Hmax. unfold MAXJOBS in *.
        pose proof (maxjid_nonneg (jobs s)).
        destruct (Z.gtb_spec (nextjid s + 1) 16); destruct Hcnt; lia.
      * rewrite Hj, upd_length. exact Hlen.
    + destruct (deletejob_cases s p) as [[E _]|(i & E & Hp & Hg)];
        rewrite E; simpl; try (repeat split; assumption).
      split; [|split].
      * intros j Hin Hpid.
        destruct (In_upd _ _ _ _ Hin) as [Hin'|[_ ->]]; [now apply Hclear | reflexivity].
      * left. cbn [nextjid jobs set_nextjid set_jobs]. lia.
      * rewrite upd_length. exact Hlen.
Qed.

Lemma run_reachable (ops : list op) (s : shell) : reachable s -> reachable (run ops s).
Proof.
  revert s. induction ops as [|o ops IH]; intros s H; simpl; [exact H|].
  apply IH. now constructor.
Qed.

(** ** Which jid a new job receives *)

Lemma full_shell_reachable : reachable full_shell.
Proof. rewrite <- full_shell_run. apply run_reachable. constructor. Qed.

Lemma after_wrap_step : step full_shell (Delete 1) = after_wrap.
Proof. vm_compute. reflexivity. Qed.

Lemma after_wrap_reachable : reachable after_wrap.
Proof. rewrite <- after_wrap_step. apply reach_step. exact full_shell_reachable. Qed.

Lemma after_wrap_add :
  addjob after_wrap 17 BG "ls" = (1, snd (addjob after_wrap 17 BG "ls")).
Proof. vm_compute. reflexivity. Qed.

(** C3, as stated, fails: on a reachable list whose largest jid is 16 the
    next job receives jid 17, not 1. *)
Lemma addjob_jid_not_wrapped_counterexample :
  reachable after_wrap /\
  maxjid (jobs after_wrap) = 16 /\
  announced_jid (jobs after_wrap) = 1 /\
  fst (addjob after_wrap 17 BG "ls") = 1 /\
  scan (fun j => pid j =? 0) (jobs after_wrap) = Some 0%nat /\
  slot 0 (jobs (snd (addjob after_wrap 17 BG "ls"))) = mkjob 17 17 BG "ls" /\
  jid (slot 0 (jobs (snd (addjob after_wrap 17 BG "ls"))))
    <> announced_jid (jobs after_wrap).
Proof.
  split; [exact after_wrap_reachable|].
  repeat split; try (vm_compute; reflexivity). vm_compute. discriminate.
Qed.

(** C3, amended.  A successful [addjob] on a reachable list gives the new
    job the value of the counter [nextjid].  That value is one above the
    largest jid present, without any wrap, unless the counter has been reset
    since the last deletion: then a jid of at least 16 is present and the
    value lies between 1 and the largest jid.  The reset to 1 is applied to
    the counter after the assignment, when the incremented counter exceeds
    16; a successful [deletejob] sets the counter to one above the largest
    jid left. *)
Theorem addjob_assigns_nextjid (s s' : shell) (p st : Z) (cmd : string) :
  reachable s ->
  addjob s p st cmd = (1, s') ->
  (exists i,
      scan (fun j => pid j =? 0) (jobs s) = Some i /\
      slot i (jobs s') = mkjob p (nextjid s) st cmd) /\
  (nextjid s = 1 + maxjid (jobs s) \/
   (MAXJOBS <= maxjid (jobs s) /\ 1 <= nextjid s <= maxjid (jobs s))) /\
  nextjid s' = (if nextjid s + 1 >? MAXJOBS then 1 else nextjid s + 1) /\
  (forall s0 p0, deletejob s0 p0 = (1, s) -> nextjid s = 1 + maxjid (jobs s)).
Proof.
  intros Hr E. destruct (reachable_invariant s Hr) as (_ & Hcnt & _).
  destruct (addjob_cases s p st cmd)
    as [[E' _]|[(E' & _)|(i & s1 & E' & Hp & Hs & Hj & Hn & _)]];
    rewrite E' in E; try discriminate.
  injection E as <-. split; [|split; [exact Hcnt | split; [exact Hn|]]].
  - exists i. split; [exact Hs|]. rewrite Hj.
    apply scan_Some in Hs. now rewrite slot_upd_same.
  - intros s0 p0 Ed.
    destruct (deletejob_cases s0 p0) as [[Ed' _]|(k & Ed' & _)];
      rewrite Ed' in Ed; [discriminate|].
    injection Ed as <-. cbn [nextjid jobs set_nextjid set_jobs]. lia.
Qed.

Lemma addjob_assigns_nextjid_witness :
  exists i,
    scan (fun j => pid j =? 0) (jobs after_wrap) = Some i /\
    slot i (jobs (snd (addjob after_wrap 17 BG "ls")))
    = mkjob 17 (nextjid after_wrap) BG "ls".
Proof.
  exact (proj1 (addjob_assigns_nextjid after_wrap _ 17 BG "ls"
                  after_wrap_reachable after_wrap_add)).
Defined.

(** ** Adding a job and deleting it at once *)

(** C9, as stated, fails on a full list: [addjob] adds nothing, [deletejob]
    finds nothing, and the counter keeps the value 1 it had, while the
    largest jid present is 16. *)
Lemma add_delete_counter_counterexample :
  reachable full_shell /\
  getjobpid (jobs full_shell) 99 = None /\
  nextjid (snd (deletejob (snd (addjob full_shell 99 BG "ls")) 99)) = 1 /\
  maxjid (jobs (snd (deletejob (snd (addjob full_shell 99 BG "ls")) 99))) + 1 = 17 /\
  nextjid (snd (deletejob (snd (addjob full_shell 99 BG "ls")) 99))
    <> maxjid (jobs (snd (deletejob (snd (addjob full_shell 99 BG "ls")) 99))) + 1.
Proof.
  split; [exact full_shell_reachable|].
  repeat split; try (vm_compute; reflexivity). vm_compute. discriminate.
Qed.

(** C9, amended.  On a reachable list and for a pid that is not in it,
    [addjob] followed at once by [deletejob] of the same pid leaves every
    slot as it was before the add.  When the add succeeded, the delete
    succeeds too and the counter ends one above the largest jid left; when
    the add failed, the counter is the one from before. *)
Theorem add_then_delete_restores (s : shell) (p st : Z) (cmd : string) :
  reachable s ->
  getjobpid (jobs s) p = None ->
  jobs (snd (deletejob (snd (addjob s p st cmd)) p)) = jobs s /\
  (fst (addjob s p st cmd) = 1 ->
   fst (deletejob (snd (addjob s p st cmd)) p) = 1 /\
   nextjid (snd (deletejob (snd (addjob s p st cmd)) p))
   = maxjid (jobs (snd (deletejob (snd (addjob s p st cmd)) p))) + 1) /\
  (fst (addjob s p st cmd) = 0 ->
   nextjid (snd (deletejob (snd (addjob s p st cmd)) p)) = nextjid s).
Proof.
  intros Hr Hnew. destruct (reachable_invariant s Hr) as (Hclear & _ & _).
  destruct (addjob_cases s p st cmd)
    as [[E Hp]|[(E & Hp & Hs)|(i & s1 & E & Hp & Hs & Hj & Hn & _)]];
    rewrite E; cbn [fst snd].
  - unfold deletejob. destruct (Z.ltb_spec p 1); [|lia].
    repeat split; try reflexivity; discriminate.
  - destruct (deletejob_cases (printf ("Tried to create too many jobs" ++ nl) s) p)
      as [[Ed _]|(k & _ & _ & Hg)].
    + rewrite Ed. repeat split; try reflexivity; discriminate.
    + rewrite jobs_printf, Hnew in Hg. discriminate.
  - assert (Hfound : scan (fun j => pid j =? p) (jobs s1) = Some i).
    { apply scan_Some in Hs. destruct Hs as (Hi & _ & _).
      rewrite Hj. apply scan_first.
      - now rewrite upd_length.
      - rewrite slot_upd_same by exact Hi. simpl. apply Z.eqb_refl.
      - intros k Hk. rewrite slot_upd_other by lia.
        unfold getjobpid in Hnew. destruct (Z.ltb_spec p 1); [lia|].
        apply (proj1 (scan_None _ _) Hnew). apply slot_In. lia. }
    assert (Hback : upd i clearjob (jobs s1) = jobs s).
    { rewrite Hj, upd_upd. apply upd_id. unfold clearjob.
      apply scan_Some in Hs. destruct Hs as (Hi & Hz & _). apply Z.eqb_eq in Hz.
      symmetry. exact (Hclear _ (slot_In _ _ Hi) Hz). }
    unfold deletejob. destruct (Z.ltb_spec p 1); [lia|].
    rewrite Hfound. cbn [fst snd jobs nextjid set_nextjid set_jobs]. rewrite Hback.
    split; [reflexivity|]. split; [intros _; split; reflexivity | discriminate].
Qed.

Lemma after_wrap_fresh : getjobpid (jobs after_wrap) 17 = None.
Proof. vm_compute. reflexivity. Qed.

Lemma add_then_delete_restores_witness :
  jobs (snd (deletejob (snd (addjob after_wrap 17 BG "ls")) 17)) = jobs after_wrap /\
  nextjid (snd (deletejob (snd (addjob after_wrap 17 BG "ls")) 17))
  = maxjid (jobs (snd (deletejob (snd (addjob after_wrap 17 BG "ls")) 17))) + 1.
Proof.
  pose proof (add_then_delete_restores after_wrap 17 BG "ls"
                after_wrap_reachable after_wrap_fresh) as (Hjobs & Hok & _).
  split; [exact Hjobs|].
  apply Hok. rewrite after_wrap_add. reflexivity.
Defined.

(** ** Distinct pids, a single foreground job *)

(** C1, as stated, fails: [addjob] does not look for the pid in the list
    and does not look at the states of the other jobs. *)
Lemma addjob_duplicates_counterexample :
  pid (slot 0 (jobs (run [Add 5 BG "a"; Add 5 BG "b"] (init_shell false)))) = 5 /\
  pid (slot 1 (jobs (run [Add 5 BG "a"; Add 5 BG "b"] (init_shell false)))) = 5 /\
  state (slot 0 (jobs (run [Add 5 FG "a"; Add 6 FG "b"] (init_shell false)))) = FG /\
  state (slot 1 (jobs (run [Add 5 FG "a"; Add 6 FG "b"] (init_shell false)))) = FG /\
  ~ unique_pids (jobs (run [Add 5 BG "a"; Add 5 BG "b"] (init_shell false))) /\
  ~ one_foreground (jobs (run [Add 5 FG "a"; Add 6 FG "b"] (init_shell false))).
Proof.
  do 4 (split; [vm_compute; reflexivity|]).
  split; intros H.
  - assert (E : 0%nat = 1%nat);
      [apply H; vm_compute; solve [lia | discriminate | reflexivity] | discriminate].
  - assert (E : 0%nat = 1%nat);
      [apply H; vm_compute; solve [lia | discriminate | reflexivity] | discriminate].
Qed.

Lemma step_keeps_table_ok (s : shell) (o : op) :
  unique_pids (jobs s) /\ one_foreground (jobs s) ->
  admissible s o ->
  unique_pids (jobs (step s o)) /\ one_foreground (jobs (step s o)).
Proof.
  intros [Hu Hf] Ha. destruct o as [p st cmd|p]; simpl in *.
  - destruct Ha as [Hnew Hfg].
    destruct (addjob_cases s p st cmd)
      as [[E _]|[(E & _ & _)|(i & s' & E & Hp & Hs & Hj & _)]];
      rewrite E; simpl; try (split; assumption).
    apply scan_Some in Hs. destruct Hs as (Hi & Hz & _).
    unfold getjobpid in Hnew. destruct (Z.ltb_spec p 1); [lia|].
    pose proof (proj1 (scan_None _ _) Hnew) as Hfresh.
    assert (Hne : forall k, (k < List.length (jobs s))%nat -> pid (slot k (jobs s)) <> p).
    { intros k Hk. apply Z.eqb_neq. apply Hfresh. now apply slot_In. }
    rewrite Hj. split.
    + intros a b Hla Hlb. rewrite upd_length in Hla, Hlb.
      destruct (Nat.eq_dec a i) as [->|Hai], (Nat.eq_dec b i) as [->|Hbi];
        rewrite ?slot_upd_same by assumption;
        rewrite ?(slot_upd_other i a), ?(slot_upd_other i b) by assumption; simpl.
      * reflexivity.
      * intros _ Heq. exfalso. exact (Hne b Hlb (eq_sym Heq)).
      * intros _ Heq. exfalso. exact (Hne a Hla Heq).
      * now apply Hu.
    + intros a b Hla Hlb. rewrite upd_length in Hla, Hlb.
      destruct (Z.eq_dec st FG) as [Hst|Hst].
      * pose proof (proj1 (scan_None _ _) (Hfg Hst)) as Hnofg.
        assert (Hn : forall k, (k < List.length (jobs s))%nat -> state (slot k (jobs s)) <> FG).
        { intros k Hk. apply Z.eqb_neq. apply Hnofg. now apply slot_In. }
        destruct (Nat.eq_dec a i) as [->|Hai], (Nat.eq_dec b i) as [->|Hbi];
          rewrite ?slot_upd_same by assumption;
          rewrite ?(slot_upd_other i a), ?(slot_upd_other i b) by assumption; simpl.
        -- reflexivity.
        -- intros _ Hb. exfalso. exact (Hn b Hlb Hb).
        -- intros Ha' _. exfalso. exact (Hn a Hla Ha').
        -- intros Ha' _. exfalso. exact (Hn a Hla Ha').
      * destruct (Nat.eq_dec a i) as [->|Hai], (Nat.eq_dec b i) as [->|Hbi];
          rewrite ?slot_upd_same by assumption;
          rewrite ?(slot_upd_other i a), ?(slot_upd_other i b) by assumption; simpl;
          try congruence.
        now apply Hf.
  - destruct (deletejob_cases s p) as [[E _]|(i & E & Hp & Hg)];
      rewrite E; simpl; try (split; assumption).
    unfold getjobpid in Hg. destruct (Z.ltb_spec p 1); [lia|].
    apply scan_Some in Hg. destruct Hg as (Hi & _ & _).
    split; intros a b Hla Hlb; rewrite upd_length in Hla, Hlb;
      destruct (Nat.eq_dec a i) as [->|Hai], (Nat.eq_dec b i) as [->|Hbi];
      rewrite ?slot_upd_same by assumption;
      rewrite ?(slot_upd_other i a), ?(slot_upd_other i b) by assumption;
      unfold clearjob; simpl; try congruence;
      solve [now apply Hu | now apply Hf | unfold FG, UNDEF; intros; congruence].
Qed.

Lemma init_table_ok (v : bool) :
  unique_pids (jobs (init_shell v)) /\ one_foreground (jobs (init_shell v)).
Proof.
  assert (H : forall i, (i < List.length (jobs (init_shell v)))%nat ->
                        slot i (jobs (init_shell v)) = cleared).
  { intros i Hi. apply (init_shell_jobs v). now apply slot_In. }
  split; intros i k Hi Hk; rewrite !H by assumption; simpl; unfold FG, UNDEF; congruence.
Qed.

Lemma run_keeps_table_ok (ops : list op) (s : shell) :
  unique_pids (jobs s) /\ one_foreground (jobs s) ->
  all_admissible ops s ->
  unique_pids (jobs (run ops s)) /\ one_foreground (jobs (run ops s)).
Proof.
  revert s. induction ops as [|o ops IH]; intros s Hok Hadm; simpl in *; [exact Hok|].
  destruct Hadm as [Ha Hrest]. apply IH; [|exact Hrest].
  now apply step_keeps_table_ok.
Qed.

(** C1, amended.  Starting from the initialised list, along every sequence
    of [addjob] and [deletejob] calls in which each [addjob] receives a pid
    that is not in the list, and receives the state FG only when no job is in
    state FG, the list never holds two non-empty slots with the same pid and
    never holds two slots in state FG. *)
Theorem table_ok_along_admissible_runs (ops : list op) (v : bool) :
  all_admissible ops (init_shell v) ->
  unique_pids (jobs (run ops (init_shell v))) /\
  one_foreground (jobs (run ops (init_shell v))).
Proof. intros Hadm. exact (run_keeps_table_ok ops _ (init_table_ok v) Hadm). Qed.

Lemma table_ok_along_admissible_runs_witness :
  unique_pids
    (jobs (run [Add 5 FG "a"; Delete 5; Add 6 FG "b"; Add 5 BG "c"] (init_shell false))) /\
  one_foreground
    (jobs (run [Add 5 FG "a"; Delete 5; Add 6 FG "b"; Add 5 BG "c"] (init_shell false))).
Proof.
  apply (table_ok_along_admissible_runs
           [Add 5 FG "a"; Delete 5; Add 6 FG "b"; Add 5 BG "c"] false).
  vm_compute. repeat split; intros; try reflexivity; discriminate.
Defined.

(** ** The built-in quit *)

(** C7.  [quit] typed without argument: when some slot is in state ST the
    command prints "there are stopped jobs", returns to the read loop
    ([builtin_cmd] returns 1, the process does not exit) and leaves the job
    list and the counter as they were; when no slot is in state ST it ends
    the process with [exit(0)]. *)
Theorem quit_refuses_iff_stopped_job (env : events) (s : shell) :
  ((exists j, In j (jobs s) /\ state j = ST) ->
   builtin_cmd ["quit"] env s = Ret 1 (printf ("there are stopped jobs" ++ nl) s) /\
   jobs (printf ("there are stopped jobs" ++ nl) s) = jobs s /\
   nextjid (printf ("there are stopped jobs" ++ nl) s) = nextjid s) /\
  ((forall j, In j (jobs s) -> state j <> ST) ->
   builtin_cmd ["quit"] env s = Exit 0 s).
Proof.
  unfold builtin_cmd. simpl. split.
  - intros (j & Hin & Hst).
    destruct (scan (fun j => state j =? 3) (jobs s)) eqn:Hs.
    + repeat split.
    + rewrite scan_None in Hs. specialize (Hs j Hin).
      rewrite Hst in Hs. discriminate.
  - intros Hnone.
    destruct (scan (fun j => state j =? 3) (jobs s)) as [i|] eqn:Hs; [|reflexivity].
    apply scan_Some in Hs. destruct Hs as (Hi & Hst & _).
    apply Z.eqb_eq in Hst. exfalso. exact (Hnone _ (slot_In _ _ Hi) Hst).
Qed.

Lemma two_jobs_none_stopped : forall j, In j (jobs two_jobs) -> state j <> ST.
Proof.
  assert (H : forallb (fun j => negb (state j =? ST)) (jobs two_jobs) = true)
    by (vm_compute; reflexivity).
  intros j Hj. rewrite forallb_forall in H. specialize (H j Hj).
  apply Z.eqb_neq. now destruct (state j =? ST).
Qed.

Lemma quit_refuses_iff_stopped_job_witness :
  builtin_cmd ["quit"] [] stopped_shell
    = Ret 1 (printf ("there are stopped jobs" ++ nl) stopped_shell) /\
  builtin_cmd ["quit"] [] two_jobs = Exit 0 two_jobs.
Proof.
  split.
  - refine (proj1 (proj1 (quit_refuses_iff_stopped_job [] stopped_shell) _)).
    exists (mkjob 5 1 ST "a"). split; [now left | reflexivity].
  - exact (proj2 (quit_refuses_iff_stopped_job [] two_jobs) two_jobs_none_stopped).
Defined.

(** ** quit followed by an argument *)

(** C10.  When the argument vector starts with "quit" and holds a second
    argument, [builtin_cmd] prints nothing, does not exit, changes nothing
    and returns 0; [eval] then goes on to [fork]: the child calls [execvp]
    on "quit" with the whole argument vector, the parent registers the
    child as a job and waits for it or announces it. *)
Theorem quit_with_argument_is_not_builtin
    (cmdline arg1 : string) (rest : list string) (bg : Z) (w : os) (s : shell) :
  parseline cmdline = Some ("quit" :: arg1 :: rest, bg) ->
  builtin_cmd ("quit" :: arg1 :: rest) (reaped_during_wait w) s = Ret 0 s /\
  (fork_ret w = 0 ->
   eval cmdline w s =
     let child := emit (Execvp "quit" ("quit" :: arg1 :: rest))
                    (emit Setpgrp (emit (Fork 0) (emit SigBlock s))) in
     if exec_ok w then Exec child
     else Exit 1 (printf ("quit: Command not found" ++ nl) child)) /\
  (0 < fork_ret w ->
   eval cmdline w s =
     let p := fork_ret w in
     let parent :=
       emit SigUnblock
         (snd (addjob (emit (Fork p) (emit SigBlock s)) p
                 (if bg =? 0 then FG else BG) cmdline)) in
     if bg =? 0 then waitfg p (reaped_during_wait w) parent
     else Ret tt (printf ("[" ++ string_of_Z (pid2jid (jobs parent) p) ++ "] ("
                            ++ string_of_Z p ++ ") " ++ cmdline) parent)).
Proof.
  intros Hparse.
  assert (Hb : builtin_cmd ("quit" :: arg1 :: rest) (reaped_during_wait w) s = Ret 0 s)
    by reflexivity.
  split; [exact Hb|].
  unfold eval. rewrite Hparse, Hb. cbn [bind]. change (negb (0 =? 0)) with false.
  cbv iota. split.
  - intros ->. reflexivity.
  - intros Hp.
    destruct (Z.ltb_spec (fork_ret w) 0); [lia|].
    destruct (Z.eqb_spec (fork_ret w) 0); [lia|].
    destruct (bg =? 0); reflexivity.
Qed.

Lemma quit_with_argument_is_not_builtin_witness :
  builtin_cmd ["quit"; "now"] [] (init_shell false) = Ret 0 (init_shell false) /\
  eval ("quit now" ++ nl) (mkos 0 true "" []) (init_shell false)
    = Exec (emit (Execvp "quit" ["quit"; "now"])
              (emit Setpgrp (emit (Fork 0) (emit SigBlock (init_shell false))))) /\
  eval ("quit now &" ++ nl) (mkos 100 true "" []) stopped_shell
    = Ret tt (printf ("[3] (100) quit now &" ++ nl)
                (emit SigUnblock
                   (snd (addjob (emit (Fork 100) (emit SigBlock stopped_shell)) 100 BG
                           ("quit now &" ++ nl))))).
Proof.
  split; [|split].
  - exact (proj1 (quit_with_argument_is_not_builtin ("quit now" ++ nl) "now" [] 0
                    (mkos 0 true "" []) (init_shell false) eq_refl)).
  - exact (proj1 (proj2 (quit_with_argument_is_not_builtin ("quit now" ++ nl) "now" [] 0
                           (mkos 0 true "" []) (init_shell false) eq_refl)) eq_refl).
  - exact (proj2 (proj2 (quit_with_argument_is_not_builtin ("quit now &" ++ nl) "now" [] 1
                           (mkos 100 true "" []) stopped_shell eq_refl)) eq_refl).
Defined.

(** ** The SIGCHLD handler, one child at a time *)

Lemma scan_upd_same_test (P : job_t -> bool) (f : job_t -> job_t) (i : nat)
    (js : list job_t) :
  (forall j, P (f j) = P j) -> scan P (upd i f js) = scan P js.
Proof.
  intros Hf. revert i. induction js as [|j rest IH]; intros [|i]; simpl; try reflexivity.
  - now rewrite Hf.
  - now rewrite IH.
Qed.

Lemma getjobpid_set_state (st : Z) (i : nat) (js : list job_t) (p : Z) :
  getjobpid (upd i (set_state st) js) p = getjobpid js p.
Proof.
  unfold getjobpid. destruct (p <? 1); [reflexivity|].
  now apply scan_upd_same_test.
Qed.

Lemma getjobpid_Some (js : list job_t) (p : Z) (i : nat) :
  getjobpid js p = Some i ->
  1 <= p /\ (i < List.length js)%nat /\ pid (slot i js) = p /\
  scan (fun j => pid j =? p) js = Some i.
Proof.
  unfold getjobpid. destruct (Z.ltb_spec p 1); [discriminate|].
  intros Hs. pose proof (scan_Some _ _ _ Hs) as (Hi & Hp & _).
  apply Z.eqb_eq in Hp. auto.
Qed.

(** A child terminated by a signal, whatever the signal: one line that ends
    in "signal 2", and the job's slot cleared. *)
Lemma sigchld_signaled (s : shell) (p n : Z) (i : nat) (rest : list (Z * wstatus)) :
  getjobpid (jobs s) p = Some i ->
  sigchld_handler ((p, WSignaled n) :: rest) s =
  sigchld_handler rest
    (mkshell (upd i clearjob (jobs s)) (maxjid (upd i clearjob (jobs s)) + 1) (verbose s)
       (trace s ++ [Print ("Job [" ++ string_of_Z (pid2jid (jobs s) p) ++ "] ("
                             ++ string_of_Z p ++ ") terminated by signal 2")])).
Proof.
  intros Hg. pose proof (getjobpid_Some _ _ _ Hg) as (Hp & Hi & _ & Hs).
  cbn [sigchld_handler]. destruct (Z.gtb_spec p 0); [|lia].
  rewrite jobs_printf, Hg. unfold deletejob.
  destruct (Z.ltb_spec p 1); [lia|]. cbn [jobs set_jobs].
  rewrite scan_upd_same_test by reflexivity. rewrite Hs, upd_upd. reflexivity.
Qed.

(** A child that exited: nothing printed, the job's slot cleared. *)
Lemma sigchld_exited (s : shell) (p c : Z) (i : nat) (rest : list (Z * wstatus)) :
  getjobpid (jobs s) p = Some i ->
  sigchld_handler ((p, WExited c) :: rest) s =
  sigchld_handler rest
    (mkshell (upd i clearjob (jobs s)) (maxjid (upd i clearjob (jobs s)) + 1) (verbose s)
       (trace s)).
Proof.
  intros Hg. pose proof (getjobpid_Some _ _ _ Hg) as (Hp & Hi & _ & Hs).
  cbn [sigchld_handler]. destruct (Z.gtb_spec p 0); [|lia].
  rewrite Hg. unfold deletejob.
  destruct (Z.ltb_spec p 1); [lia|]. cbn [jobs set_jobs].
  rewrite scan_upd_same_test by reflexivity. rewrite Hs, upd_upd. reflexivity.
Qed.

(** A stopped child, whatever the signal: one line that ends in "signal 20",
    and the job's slot set to ST, not cleared. *)
Lemma sigchld_stopped (s : shell) (p n : Z) (i : nat) (rest : list (Z * wstatus)) :
  getjobpid (jobs s) p = Some i ->
  sigchld_handler ((p, WStopped n) :: rest) s =
  sigchld_handler rest
    (mkshell (upd i (set_state ST) (jobs s)) (nextjid s) (verbose s)
       (trace s ++ [Print ("Job [" ++ string_of_Z (pid2jid (jobs s) p) ++ "] ("
                             ++ string_of_Z p ++ ") stopped by signal 20" ++ nl)])).
Proof.
  intros Hg. pose proof (getjobpid_Some _ _ _ Hg) as (Hp & Hi & _ & Hs).
  cbn [sigchld_handler]. destruct (Z.gtb_spec p 0); [|lia].
  rewrite jobs_printf, Hg. reflexivity.
Qed.

(** The number of the signal is never read. *)
Lemma sigchld_handler_ignores_signal_number
    (p n m : Z) (rest : list (Z * wstatus)) (s : shell) :
  sigchld_handler ((p, WSignaled n) :: rest) s
    = sigchld_handler ((p, WSignaled m) :: rest) s /\
  sigchld_handler ((p, WStopped n) :: rest) s
    = sigchld_handler ((p, WStopped m) :: rest) s.
Proof. split; reflexivity. Qed.

(** C2 on the code: a child killed by signal 9 is reported as terminated by
    signal 2, a child stopped by signal 19 as stopped by signal 20; the
    removal of the terminated job and the state ST of the stopped one are as
    stated. *)
Theorem sigchld_handler_prints_fixed_signal_numbers :
  sigchld_handler [(100, WSignaled 9)] one_job
    = Some (mkshell (jobs (init_shell false)) 1 false
              [Print "Job [1] (100) terminated by signal 2"]) /\
  sigchld_handler [(100, WStopped 19)] one_job
    = Some (mkshell (upd 0 (set_state ST) (jobs one_job)) 2 false
              [Print ("Job [1] (100) stopped by signal 20" ++ nl)]) /\
  sigchld_handler [(100, WExited 0)] one_job
    = Some (mkshell (jobs (init_shell false)) 1 false []).
Proof. repeat split; vm_compute; reflexivity. Qed.

(** ** bg and fg: the argument *)

Lemma do_bgfg_missing_argument (cmd : string) (env : events) (s : shell) :
  cmd = "fg" \/ cmd = "bg" ->
  do_bgfg [cmd] env s
  = Ret tt (printf (cmd ++ ": command must be a PID or %jobid argument" ++ nl) s).
Proof. intros [-> | ->]; reflexivity. Qed.

(** C5 on the code: "007" and "0" consist of decimal digits only, and so
    does "%01" behind its '%', yet [fg] and [bg] reject them as not being a
    PID or %jobid; nothing but the trace changes. *)
Theorem do_bgfg_rejects_digit_strings :
  all_digits (after_percent "007") = true /\
  do_bgfg ["fg"; "007"] [] job_seven
    = Ret tt (printf ("fg: argument must be PID or %jobid" ++ nl) job_seven) /\
  all_digits (after_percent "0") = true /\
  do_bgfg ["bg"; "0"] [] job_seven
    = Ret tt (printf ("bg: argument must be PID or %jobid" ++ nl) job_seven) /\
  all_digits (after_percent "%01") = true /\
  do_bgfg ["fg"; "%01"] [] job_seven
    = Ret tt (printf ("fg: argument must be PID or %jobid" ++ nl) job_seven) /\
  do_bgfg ["fg"; "7"] [] job_seven <> do_bgfg ["fg"; "007"] [] job_seven.
Proof. repeat split; vm_compute; solve [reflexivity | discriminate]. Qed.

(** ** Arguments that are not numbers are rejected *)

Lemma digit_run_length (s : string) : (digit_run s <= String.length s)%nat.
Proof.
  induction s as [|c rest IH]; simpl; [lia|]. destruct (isdigit c); lia.
Qed.

Lemma digit_run_all (s : string) :
  digit_run s = String.length s -> all_digits s = true.
Proof.
  induction s as [|c rest IH]; simpl; [reflexivity|].
  destruct (isdigit c); [|discriminate].
  intros [= H]. now apply IH.
Qed.

Lemma digits_value_lt (acc : Z) (s : string) :
  0 <= acc ->
  0 <= digits_value acc s < (acc + 1) * 10 ^ Z.of_nat (digit_run s).
Proof.
  revert acc. induction s as [|c rest IH]; intros acc Hacc; cbn [digit_run digits_value].
  - change (10 ^ Z.of_nat 0) with 1. lia.
  - destruct (isdigit c) eqn:Hc.
    + unfold isdigit in Hc. apply andb_true_iff in Hc. destruct Hc as [Hlo Hhi].
      apply Z.leb_le in Hlo, Hhi.
      specialize (IH (10 * acc + (code c - 48)) ltac:(lia)).
      rewrite Nat2Z.inj_succ, Z.pow_succ_r by lia.
      assert (0 < 10 ^ Z.of_nat (digit_run rest)) by (apply Z.pow_pos_nonneg; lia).
      nia.
    + change (10 ^ Z.of_nat 0) with 1. lia.
Qed.

Lemma count_loop_le (n k : nat) (result count : Z) :
  result < 10 ^ Z.of_nat k -> count_loop n result count <= count + Z.of_nat k.
Proof.
  revert k result count. induction n as [|n IH]; intros k result count Hr; simpl; [lia|].
  destruct (Z.gtb_spec result 0); [|lia].
  destruct k as [|k]; [change (10 ^ Z.of_nat 0) with 1 in Hr; lia|].
  rewrite Nat2Z.inj_succ, Z.pow_succ_r in Hr by lia.
  assert (Hq : Z.quot result 10 < 10 ^ Z.of_nat k).
  { rewrite Z.quot_div_nonneg by lia. apply Z.div_lt_upper_bound; lia. }
  specialize (IH k _ (count + 1) Hq). lia.
Qed.

Lemma count_digits_nonpos (result : Z) : result <= 0 -> count_digits result = 0.
Proof.
  intros H. unfold count_digits. simpl. destruct (Z.gtb_spec result 0); [lia | reflexivity].
Qed.

Lemma skip_same_length (P : ascii -> bool) (s : string) :
  String.length (skip P s) = String.length s -> skip P s = s.
Proof.
  destruct s as [|c rest]; simpl; [reflexivity|].
  destruct (P c); [|reflexivity].
  intros H. exfalso.
  pose proof (skip_length P rest). lia.
Qed.

Lemma atoi_value (s : string) (r : Z) :
  atoi s = Some r ->
  r = (let t := skip isspace s in
       if first_char_is "-" t then - digits_value 0 (behead t)
       else if first_char_is "+" t then digits_value 0 (behead t)
       else digits_value 0 t).
Proof.
  unfold atoi. cbv zeta.
  destruct (_ && _); [now intros [= <-] | discriminate].
Qed.

(** An argument that passes the digit count consists, behind an optional
    '%', of decimal digits only. *)
Lemma accepted_all_digits (arg : string) (result : Z) :
  atoi (if first_char_is "%" arg then String "0" (behead arg) else arg) = Some result ->
  count_digits result
  = (if first_char_is "%" arg then Z.of_nat (String.length arg) - 1
     else Z.of_nat (String.length arg)) ->
  all_digits (after_percent arg) = true.
Proof.
  unfold after_percent. destruct (first_char_is "%" arg) eqn:Hpc.
  - destruct arg as [|a rest]; [discriminate|]. cbn [behead String.length].
    intros Ha Hcount. apply atoi_value in Ha.
    change (result = digits_value 0 rest) in Ha.
    pose proof (digits_value_lt 0 rest ltac:(lia)) as Hv. rewrite <- Ha in Hv.
    pose proof (count_loop_le 10 (digit_run rest) result 0 ltac:(lia)) as Hc.
    fold (count_digits result) in Hc.
    pose proof (digit_run_length rest). apply digit_run_all. lia.
  - intros Ha Hcount. apply atoi_value in Ha. cbv zeta in Ha.
    set (t := skip isspace arg) in *.
    assert (Hlen : (String.length t <= String.length arg)%nat)
      by (subst t; apply skip_length).
    destruct (first_char_is "-" t) eqn:Hminus.
    + pose proof (digits_value_lt 0 (behead t) ltac:(lia)) as Hv.
      rewrite count_digits_nonpos in Hcount by lia.
      destruct arg; [reflexivity | simpl in Hcount; lia].
    + destruct (first_char_is "+" t) eqn:Hplus.
      * pose proof (digits_value_lt 0 (behead t) ltac:(lia)) as Hv. rewrite <- Ha in Hv.
        pose proof (count_loop_le 10 (digit_run (behead t)) result 0 ltac:(lia)) as Hc.
        fold (count_digits result) in Hc.
        pose proof (digit_run_length (behead t)).
        destruct t as [|c t']; [discriminate|]. simpl in *. lia.
      * pose proof (digits_value_lt 0 t ltac:(lia)) as Hv. rewrite <- Ha in Hv.
        pose proof (count_loop_le 10 (digit_run t) result 0 ltac:(lia)) as Hc.
        fold (count_digits result) in Hc.
        pose proof (digit_run_length t).
        assert (Et : t = arg) by (apply skip_same_length; subst t; lia).
        rewrite Et in *. apply digit_run_all. lia.
Qed.

(** X27.  [fg] and [bg] reject every argument that holds, behind an
    optional '%', a character that is not a decimal digit (or stop at [atoi]
    when the number does not fit an [int]); nothing but the trace changes. *)
Lemma do_bgfg_rejects_non_digits (cmd arg : string) (rest : list string)
    (env : events) (s : shell) :
  cmd = "fg" \/ cmd = "bg" ->
  all_digits (after_percent arg) = false ->
  do_bgfg (cmd :: arg :: rest) env s
    = Ret tt (printf (cmd ++ ": argument must be PID or %jobid" ++ nl) s) \/
  do_bgfg (cmd :: arg :: rest) env s = Fault.
Proof.
  intros Hcmd Hnd.
  assert (Hc : ((cmd =? "fg")%string || (cmd =? "bg")%string) = true)
    by (destruct Hcmd as [-> | ->]; reflexivity).
  unfold do_bgfg. rewrite Hc.
  destruct (atoi _) as [result|] eqn:Ha; [|right; reflexivity].
  destruct (Z.eqb_spec (count_digits result)
              (if first_char_is "%" arg then Z.of_nat (String.length arg) - 1
               else Z.of_nat (String.length arg))) as [Hcount|Hcount].
  - rewrite (accepted_all_digits arg result Ha Hcount) in Hnd. discriminate.
  - left. reflexivity.
Qed.

Lemma isdigit_code (c : ascii) : isdigit c = true -> 48 <= code c <= 57.
Proof.
  unfold isdigit. intros H. apply andb_true_iff in H. destruct H as [H1 H2].
  apply Z.leb_le in H1, H2. lia.
Qed.

Lemma isdigit_not_space (c : ascii) : isdigit c = true -> isspace c = false.
Proof.
  intros H. apply isdigit_code in H. unfold isspace.
  destruct (Z.eqb_spec (code c) 32); [lia|].
  destruct (Z.leb_spec 9 (code c)), (Z.leb_spec (code c) 13); simpl; try reflexivity; lia.
Qed.

Lemma code_eqb (c d : ascii) : Ascii.eqb c d = false -> code c <> code d.
Proof.
  intros H E. unfold code in E. apply Nat2Z.inj in E.
  assert (c = d) by (rewrite <- (ascii_nat_embedding c), <- (ascii_nat_embedding d); now rewrite E).
  subst. rewrite Ascii.eqb_refl in H. discriminate.
Qed.

Lemma eqb_code (c d : ascii) : code c <> code d -> Ascii.eqb c d = false.
Proof.
  intros H. destruct (Ascii.eqb_spec c d) as [->|]; [congruence | reflexivity].
Qed.

Lemma all_digits_run (s : string) : all_digits s = true -> digit_run s = String.length s.
Proof.
  induction s as [|c rest IH]; simpl; [reflexivity|].
  destruct (isdigit c); [|discriminate]. simpl. intros H. now rewrite IH.
Qed.

Lemma digits_value_ge (acc : Z) (s : string) :
  all_digits s = true -> 0 <= acc ->
  acc * 10 ^ Z.of_nat (String.length s) <= digits_value acc s.
Proof.
  revert acc. induction s as [|c rest IH]; intros acc Hd Hacc;
    cbn [digits_value String.length all_digits] in *.
  - change (10 ^ Z.of_nat 0) with 1. lia.
  - apply andb_true_iff in Hd. destruct Hd as [Hc Hrest]. rewrite Hc.
    apply isdigit_code in Hc.
    specialize (IH (10 * acc + (code c - 48)) Hrest ltac:(lia)).
    rewrite Nat2Z.inj_succ, Z.pow_succ_r by lia.
    assert (0 < 10 ^ Z.of_nat (String.length rest)) by (apply Z.pow_pos_nonneg; lia).
    nia.
Qed.

Lemma count_loop_mono (n : nat) (result count : Z) : count <= count_loop n result count.
Proof.
  revert result count. induction n as [|n IH]; intros result count; simpl; [lia|].
  destruct (result >? 0); [|lia]. specialize (IH (Z.quot result 10) (count + 1)). lia.
Qed.

Lemma count_loop_ge (n k : nat) (result count : Z) :
  10 ^ Z.of_nat k <= result -> (k < n)%nat ->
  count + Z.of_nat (S k) <= count_loop n result count.
Proof.
  revert k result count. induction n as [|n IH]; intros k result count Hr Hk; [lia|].
  assert (0 < 10 ^ Z.of_nat k) by (apply Z.pow_pos_nonneg; lia).
  simpl. destruct (Z.gtb_spec result 0); [|lia].
  destruct k as [|k].
  - pose proof (count_loop_mono n (Z.quot result 10) (count + 1)). lia.
  - rewrite Nat2Z.inj_succ, Z.pow_succ_r in Hr by lia.
    assert (Hq : 10 ^ Z.of_nat k <= Z.quot result 10).
    { rewrite Z.quot_div_nonneg by lia. apply Z.div_le_lower_bound; lia. }
    specialize (IH k _ (count + 1) Hq ltac:(lia)). lia.
Qed.

(** The digit count of a numeral without leading zero is its length, as
    long as its value is an [int]. *)
Lemma count_digits_numeral (s : string) :
  all_digits s = true -> first_char_is "0" s = false ->
  digits_value 0 s <= INT_MAX ->
  count_digits (digits_value 0 s) = Z.of_nat (String.length s).
Proof.
  intros Hd Hz Hmax. destruct s as [|c rest]; [reflexivity|].
  pose proof (digits_value_lt 0 (String c rest) ltac:(lia)) as Hlt.
  rewrite (all_digits_run _ Hd) in Hlt.
  pose proof (count_loop_le 10 (String.length (String c rest))
                (digits_value 0 (String c rest)) 0 ltac:(lia)) as Hle.
  fold (count_digits (digits_value 0 (String c rest))) in Hle.
  cbn [all_digits] in Hd. apply andb_true_iff in Hd. destruct Hd as [Hc Hrest].
  assert (Hge : 10 ^ Z.of_nat (String.length rest) <= digits_value 0 (String c rest)).
  { cbn [digits_value]. rewrite Hc. pose proof (isdigit_code _ Hc).
    cbn [first_char_is] in Hz. apply code_eqb in Hz. change (code "0") with 48 in Hz.
    pose proof (digits_value_ge (10 * 0 + (code c - 48)) rest Hrest ltac:(lia)).
    assert (0 < 10 ^ Z.of_nat (String.length rest)) by (apply Z.pow_pos_nonneg; lia).
    nia. }
  assert (Hshort : (String.length rest < 10)%nat).
  { apply Nat2Z.inj_lt. apply (Z.pow_lt_mono_r_iff 10); [lia | lia |].
    change (10 ^ Z.of_nat 10) with 10000000000. unfold INT_MAX in Hmax. lia. }
  pose proof (count_loop_ge 10 _ _ 0 Hge Hshort) as Hge'.
  fold (count_digits (digits_value 0 (String c rest))) in Hge'.
  cbn [String.length] in *. lia.
Qed.

(** X28.  Which arguments pass the validation of [do_bgfg], for numbers
    that fit an [int]: those that consist, behind an optional '%', of
    decimal digits only and do not start with the digit 0. *)
Lemma accepted_iff_numeral (arg : string) :
  digits_value 0 (after_percent arg) <= INT_MAX ->
  (exists result,
      atoi (if first_char_is "%" arg then String "0" (behead arg) else arg) = Some result /\
      count_digits result
      = (if first_char_is "%" arg then Z.of_nat (String.length arg) - 1
         else Z.of_nat (String.length arg)))
  <->
  (all_digits (after_percent arg) = true /\ first_char_is "0" (after_percent arg) = false).
Proof.
  intros Hmax. split.
  - intros (result & Ha & Hcount).
    pose proof (accepted_all_digits arg result Ha Hcount) as Hd. split; [exact Hd|].
    destruct (first_char_is "0" (after_percent arg)) eqn:Hz; [exfalso | reflexivity].
    assert (Hv : result = digits_value 0 (after_percent arg)).
    { apply atoi_value in Ha. unfold after_percent in *.
      destruct (first_char_is "%" arg) eqn:Hpc.
      - destruct arg; [discriminate | exact Ha].
      - destruct arg as [|c rest]; [discriminate|].
        cbn [all_digits] in Hd. apply andb_true_iff in Hd. destruct Hd as [Hc _].
        cbv zeta in Ha. cbn [skip] in Ha. rewrite (isdigit_not_space _ Hc) in Ha.
        pose proof (isdigit_code _ Hc). cbn [first_char_is] in Ha.
        rewrite !eqb_code in Ha by (change (code "-") with 45; change (code "+") with 43; lia).
        exact Ha. }
    assert (Hl : (if first_char_is "%" arg then Z.of_nat (String.length arg) - 1
                  else Z.of_nat (String.length arg))
                 = Z.of_nat (String.length (after_percent arg))).
    { unfold after_percent. destruct (first_char_is "%" arg) eqn:Hpc; [|reflexivity].
      destruct arg; [discriminate|]. cbn [behead String.length]. lia. }
    rewrite Hl in Hcount. clear Hl Ha.
    destruct (after_percent arg) as [|c rest]; [discriminate|].
    cbn [first_char_is] in Hz. apply Ascii.eqb_eq in Hz. subst c.
    change (digits_value 0 (String "0" rest)) with (digits_value 0 rest) in Hv.
    pose proof (digits_value_lt 0 rest ltac:(lia)) as Hlt. rewrite <- Hv in Hlt.
    pose proof (count_loop_le 10 (digit_run rest) result 0 ltac:(lia)) as Hle.
    fold (count_digits result) in Hle.
    pose proof (digit_run_length rest). cbn [String.length] in Hcount. lia.
  - intros [Hd Hz].
    exists (digits_value 0 (after_percent arg)).
    assert (Hrange : (INT_MIN <=? digits_value 0 (after_percent arg))
                     && (digits_value 0 (after_percent arg) <=? INT_MAX) = true).
    { pose proof (digits_value_lt 0 (after_percent arg) ltac:(lia)).
      apply andb_true_iff. split; apply Z.leb_le; unfold INT_MIN; lia. }
    pose proof (count_digits_numeral _ Hd Hz Hmax) as Hcount.
    unfold after_percent in *. destruct (first_char_is "%" arg) eqn:Hpc.
    + destruct arg as [|a rest]; [discriminate|]. cbn [behead String.length] in *.
      split; [|lia]. unfold atoi. cbv zeta.
      change (skip isspace (String "0" rest)) with (String "0" rest).
      change (first_char_is "-" (String "0" rest)) with false.
      change (first_char_is "+" (String "0" rest)) with false. cbv iota.
      change (digits_value 0 (String "0" rest)) with (digits_value 0 rest).
      now rewrite Hrange.
    + split; [|exact Hcount]. unfold atoi. cbv zeta.
      destruct arg as [|c rest]; [reflexivity|].
      pose proof Hd as Hd'. cbn [all_digits] in Hd'. apply andb_true_iff in Hd'.
      destruct Hd' as [Hc _]. cbn [skip]. rewrite (isdigit_not_space _ Hc).
      pose proof (isdigit_code _ Hc). cbn [first_char_is].
      rewrite !eqb_code by (change (code "-") with 45; change (code "+") with 43; lia).
      now rewrite Hrange.
Qed.

(** ** bg and fg: no such job *)

(** C6 on the code, at [bg 99999] and [fg %3] with no job in the table: the
    command returns and the job list is untouched, as claimed, but the text
    printed is not "99999: No such process" (nor "%3: No such Job"), with or
    without its newline: the format strings of lines 383 and 412 put a space
    before the colon and a space after the newline, where the other two
    messages of the same function have "%s: ...\n". *)
Theorem do_bgfg_no_such_job_text :
  do_bgfg ["bg"; "99999"] [] (init_shell false)
    = Ret tt (printf ("99999 : No such process" ++ nl ++ " ") (init_shell false)) /\
  do_bgfg ["bg"; "99999"] [] (init_shell false)
    <> Ret tt (printf ("99999: No such process" ++ nl) (init_shell false)) /\
  do_bgfg ["bg"; "99999"] [] (init_shell false)
    <> Ret tt (printf "99999: No such process" (init_shell false)) /\
  do_bgfg ["fg"; "%3"] [] (init_shell false)
    = Ret tt (printf ("%3 : No such Job" ++ nl ++ " ") (init_shell false)) /\
  do_bgfg ["fg"; "%3"] [] (init_shell false)
    <> Ret tt (printf ("%3: No such Job" ++ nl) (init_shell false)) /\
  do_bgfg ["fg"; "%3"] [] (init_shell false)
    <> Ret tt (printf "%3: No such Job" (init_shell false)).
Proof. repeat split; vm_compute; solve [reflexivity | discriminate]. Qed.

(** The same on every state, for [fg] and [bg] alike: when the argument
    passes the digit count and its value [n] is the pid (the jid, after '%')
    of no job, the command returns after one [printf] of the format string as
    the source has it, stray spaces included, and the job list and the
    counter are untouched. *)
Lemma do_bgfg_no_such_job (cmd arg : string) (env : events) (s : shell) (n : Z) :
  cmd = "fg" \/ cmd = "bg" ->
  (first_char_is "%" arg = false ->
   atoi arg = Some n ->
   count_digits n = Z.of_nat (String.length arg) ->
   getjobpid (jobs s) n = None ->
   do_bgfg [cmd; arg] env s
   = Ret tt (printf (string_of_Z n ++ " : No such process" ++ nl ++ " ") s)) /\
  (first_char_is "%" arg = true ->
   atoi (String "0" (behead arg)) = Some n ->
   count_digits n = Z.of_nat (String.length arg) - 1 ->
   getjobjid (jobs s) n = None ->
   do_bgfg [cmd; arg] env s
   = Ret tt (printf ("%" ++ string_of_Z n ++ " : No such Job" ++ nl ++ " ") s)) /\
  (forall text, jobs (printf text s) = jobs s /\ nextjid (printf text s) = nextjid s).
Proof.
  intros Hcmd.
  assert (Hc : ((cmd =? "fg")%string || (cmd =? "bg")%string) = true)
    by (destruct Hcmd as [-> | ->]; reflexivity).
  split; [|split].
  - intros Hpc Ha Hcount Hnone. unfold do_bgfg. rewrite Hc, Hpc, Ha, Hcount.
    rewrite Z.eqb_refl. cbn [negb]. rewrite Z.eqb_refl, Hnone. reflexivity.
  - intros Hpc Ha Hcount Hnone. unfold do_bgfg. rewrite Hc, Hpc, Ha, Hcount.
    rewrite Z.eqb_refl. cbn [negb]. change (1 =? 0) with false. cbv iota.
    rewrite Hnone. reflexivity.
  - intros text. split; reflexivity.
Qed.

Lemma do_bgfg_no_such_job_witness :
  do_bgfg ["bg"; "99999"] [] job_seven
    = Ret tt (printf ("99999 : No such process" ++ nl ++ " ") job_seven) /\
  do_bgfg ["fg"; "%3"] [] job_seven
    = Ret tt (printf ("%3 : No such Job" ++ nl ++ " ") job_seven).
Proof.
  split.
  - apply (proj1 (do_bgfg_no_such_job "bg" "99999" [] job_seven 99999
                    (or_intror eq_refl))); reflexivity.
  - apply (proj1 (proj2 (do_bgfg_no_such_job "fg" "%3" [] job_seven 3
                           (or_introl eq_refl)))); reflexivity.
Defined.

(** ** fg on a stopped job *)

Lemma waitfg_loop_returns_not_fg (i : nat) (env : events) (s s' : shell) :
  waitfg_loop i env s = Ret tt s' -> state (slot i (jobs s')) <> FG.
Proof.
  revert s. induction env as [|reaped env IH]; intros s; simpl.
  - destruct (Z.eqb_spec (state (slot i (jobs s))) 1) as [|Hne]; [discriminate|].
    intros [= <-]. exact Hne.
  - destruct (Z.eqb_spec (state (slot i (jobs s))) 1) as [|Hne].
    + destruct (sigchld_handler reaped s) as [s1|]; [apply IH | discriminate].
    + intros [= <-]. exact Hne.
Qed.

(** While no child is reaped the wait goes on. *)
Lemma waitfg_loop_idle (i : nat) (env : events) (s : shell) :
  state (slot i (jobs s)) = FG ->
  Forall (fun reaped => reaped = []) env ->
  waitfg_loop i env s = Blocked s.
Proof.
  intros Hfg Hidle. induction Hidle as [|reaped env -> _ IH]; simpl; rewrite Hfg; simpl.
  - reflexivity.
  - exact IH.
Qed.

(** The wait ends at the poll that follows the reaping of the job. *)
Lemma waitfg_loop_reaped (i : nat) (p : Z) (stat : wstatus) (env : events) (s : shell) :
  state (slot i (jobs s)) = FG ->
  getjobpid (jobs s) p = Some i ->
  exists s', waitfg_loop i ([(p, stat)] :: env) s = Ret tt s'.
Proof.
  intros Hfg Hg. pose proof (getjobpid_Some _ _ _ Hg) as (_ & Hi & _ & _).
  cbn [waitfg_loop]. rewrite Hfg. change (FG =? 1) with true. cbv iota.
  assert (Hst : forall s1 js, jobs s1 = js -> state (slot i js) <> 1 ->
                              exists s', waitfg_loop i env s1 = Ret tt s').
  { intros s1 js <- Hne. exists s1. destruct env; simpl;
      destruct (Z.eqb_spec (state (slot i (jobs s1))) 1); congruence. }
  destruct stat as [n|c|n].
  - rewrite (sigchld_signaled _ _ _ _ _ Hg). cbn [sigchld_handler].
    eapply Hst; [reflexivity|]. cbn [jobs]. rewrite slot_upd_same by exact Hi. discriminate.
  - rewrite (sigchld_exited _ _ _ _ _ Hg). cbn [sigchld_handler].
    eapply Hst; [reflexivity|]. cbn [jobs]. rewrite slot_upd_same by exact Hi. discriminate.
  - rewrite (sigchld_stopped _ _ _ _ _ Hg). cbn [sigchld_handler].
    eapply Hst; [reflexivity|]. cbn [jobs]. rewrite slot_upd_same by exact Hi. discriminate.
Qed.

Lemma unique_getjobpid (js : list job_t) (i : nat) :
  unique_pids js -> (i < List.length js)%nat -> 1 <= pid (slot i js) ->
  getjobpid js (pid (slot i js)) = Some i.
Proof.
  intros Hu Hi Hp. unfold getjobpid. destruct (Z.ltb_spec (pid (slot i js)) 1); [lia|].
  apply scan_first; [exact Hi | apply Z.eqb_refl |].
  intros k Hk. apply Z.eqb_neq. intros Heq.
  assert (k = i) by (apply Hu; [lia | exact Hi | lia | exact Heq]). lia.
Qed.

(** What [fg] does to a stopped job before it waits. *)
Lemma fg_stopped_starts_wait (arg : string) (env : events) (s : shell) (i : nat) :
  unique_pids (jobs s) ->
  targets arg (jobs s) i ->
  state (slot i (jobs s)) = ST ->
  (i < List.length (jobs s))%nat /\
  exists s1 pre,
    jobs s1 = upd i (set_state FG) (jobs s) /\
    nextjid s1 = nextjid s /\
    trace s1 = (trace s ++ pre ++ [Kill (- pid (slot i (jobs s))) SIGCONT])%list /\
    (pre = [] \/ exists text, pre = [Print text]) /\
    do_bgfg ["fg"; arg] env s = waitfg_loop i env s1.
Proof.
  intros Hu Ht Hst. unfold targets in Ht. unfold do_bgfg.
  change (("fg" =? "fg")%string || ("fg" =? "bg")%string) with true. cbv iota.
  destruct (first_char_is "%" arg) eqn:Hpc.
  - destruct Ht as (id & Ha & Hcount & Hg & Hp). rewrite Ha, Hcount, Z.eqb_refl.
    cbn [negb]. change (1 =? 0) with false. cbv iota. rewrite Hg.
    assert (Hi : (i < List.length (jobs s))%nat).
    { unfold getjobjid in Hg. destruct (id <? 1); [discriminate|].
      now apply scan_Some in Hg. }
    split; [exact Hi|].
    unfold change_state. rewrite Hst.
    change ((ST =? ST) && ("fg" =? "bg")%string) with false.
    change ((ST =? ST) && ("fg" =? "fg")%string) with true. cbv iota.
    exists (emit (Kill (- pid (slot i (jobs s))) SIGCONT)
              (set_jobs (upd i (set_state FG) (jobs s)) s)), [].
    repeat split; [left; reflexivity|].
    unfold waitfg. cbn [jobs emit set_jobs]. rewrite getjobpid_set_state.
    rewrite (unique_getjobpid _ _ Hu Hi Hp). reflexivity.
  - destruct Ht as (p & Ha & Hcount & Hg). rewrite Ha, Hcount, Z.eqb_refl.
    cbn [negb]. rewrite Z.eqb_refl, Hg.
    pose proof (getjobpid_Some _ _ _ Hg) as (Hp & Hi & Hpid & _).
    split; [exact Hi|].
    unfold change_state. rewrite jobs_printf, Hst.
    change ((ST =? ST) && ("fg" =? "bg")%string) with false.
    change ((ST =? ST) && ("fg" =? "fg")%string) with true. cbv iota.
    match goal with
    | |- context [printf ?text s] =>
        exists (emit (Kill (- p) SIGCONT)
                  (set_jobs (upd i (set_state FG) (jobs s)) (printf text s))),
               [Print text]
    end.
    rewrite Hpid. split; [reflexivity|]. split; [reflexivity|].
    split; [cbn [trace emit set_jobs printf]; now rewrite <- app_assoc|].
    split; [right; eexists; reflexivity|].
    unfold waitfg. cbn [jobs emit set_jobs printf]. rewrite getjobpid_set_state, Hg.
    reflexivity.
Qed.

(** C4.  [fg] on a job in state ST (named by its pid or by '%' and its
    jid, in a list with distinct pids) sets the job's state to FG, sends
    SIGCONT with [kill] to minus the job's pid, that is, to its process
    group, and then polls in [waitfg]: it stays there as long as no child is
    reaped, returns once the job itself is reaped as stopped or terminated,
    and whenever it returns the job's slot is no longer in state FG. *)
Theorem fg_on_stopped_job (arg : string) (env : events) (s : shell) (i : nat) :
  unique_pids (jobs s) ->
  targets arg (jobs s) i ->
  state (slot i (jobs s)) = ST ->
  exists s1 pre,
    jobs s1 = upd i (set_state FG) (jobs s) /\
    state (slot i (jobs s1)) = FG /\
    trace s1 = (trace s ++ pre ++ [Kill (- pid (slot i (jobs s))) SIGCONT])%list /\
    (pre = [] \/ exists text, pre = [Print text]) /\
    do_bgfg ["fg"; arg] env s = waitfg_loop i env s1 /\
    (Forall (fun reaped => reaped = []) env ->
     do_bgfg ["fg"; arg] env s = Blocked s1) /\
    (forall stat env', env = [(pid (slot i (jobs s)), stat)] :: env' ->
     exists s', do_bgfg ["fg"; arg] env s = Ret tt s') /\
    (forall s', do_bgfg ["fg"; arg] env s = Ret tt s' ->
     state (slot i (jobs s')) <> FG).
Proof.
  intros Hu Ht Hst.
  destruct (fg_stopped_starts_wait arg env s i Hu Ht Hst)
    as (Hi & s1 & pre & Hj & _ & Htr & Hpre & Hdo).
  assert (Hfg : state (slot i (jobs s1)) = FG)
    by (rewrite Hj, slot_upd_same by exact Hi; reflexivity).
  exists s1, pre. repeat split; try assumption.
  - intros Hidle. rewrite Hdo. now apply waitfg_loop_idle.
  - intros stat env' ->. rewrite Hdo. apply waitfg_loop_reaped; [exact Hfg|].
    rewrite Hj, getjobpid_set_state.
    unfold targets in Ht. destruct (first_char_is "%" arg).
    + destruct Ht as (id & _ & _ & _ & Hp). now apply unique_getjobpid.
    + destruct Ht as (p & _ & _ & Hg).
      pose proof (getjobpid_Some _ _ _ Hg) as (_ & _ & Hpid & _). now rewrite Hpid.
  - intros s' Hret. rewrite Hdo in Hret. now apply waitfg_loop_returns_not_fg in Hret.
Qed.

Lemma pid_slot_set_state (st : Z) (i k : nat) (js : list job_t) :
  pid (slot k (upd i (set_state st) js)) = pid (slot k js).
Proof.
  revert i k. induction js as [|j rest IH]; intros [|i] [|k]; try reflexivity.
  apply (IH i k).
Qed.

Lemma unique_pids_set_state (st : Z) (i : nat) (js : list job_t) :
  unique_pids js -> unique_pids (upd i (set_state st) js).
Proof.
  intros Hu a b Ha Hb. rewrite upd_length in Ha, Hb.
  rewrite !pid_slot_set_state. now apply Hu.
Qed.

Lemma stopped_shell_unique : unique_pids (jobs stopped_shell).
Proof.
  assert (E : jobs stopped_shell
              = upd 0 (set_state ST)
                  (jobs (run [Add 5 BG "a"; Add 6 BG "b"] (init_shell false))))
    by (vm_compute; reflexivity).
  rewrite E. apply unique_pids_set_state.
  apply (run_keeps_table_ok [Add 5 BG "a"; Add 6 BG "b"] _ (init_table_ok false)).
  vm_compute. repeat split; intros; try reflexivity; discriminate.
Qed.

Lemma fg_on_stopped_job_witness :
  exists s1 pre,
    jobs s1 = upd 0 (set_state FG) (jobs stopped_shell) /\
    trace s1 = (trace stopped_shell ++ pre ++ [Kill (- 5) SIGCONT])%list /\
    do_bgfg ["fg"; "%1"] [[]; []] stopped_shell = Blocked s1 /\
    (exists s', do_bgfg ["fg"; "5"] [[(5, WStopped 20)]] stopped_shell = Ret tt s').
Proof.
  destruct (fg_on_stopped_job "%1" [[]; []] stopped_shell 0 stopped_shell_unique)
    as (s1 & pre & Hj & _ & Htr & _ & _ & Hidle & _).
  { exists 1. repeat split; vm_compute; congruence. }
  { reflexivity. }
  destruct (fg_on_stopped_job "5" [[(5, WStopped 20)]] stopped_shell 0 stopped_shell_unique)
    as (_ & _ & _ & _ & _ & _ & _ & _ & Hreaped & _).
  { exists 5. repeat split; vm_compute; congruence. }
  { reflexivity. }
  exists s1, pre. repeat split.
  - exact Hj.
  - exact Htr.
  - apply Hidle. repeat constructor.
  - exact (Hreaped (WStopped 20) [] eq_refl).
Defined.

(** * Further properties of the code *)

(** ** Looking jobs up *)

Lemma In_slot (j : job_t) (js : list job_t) :
  In j js -> exists i, (i < List.length js)%nat /\ slot i js = j.
Proof. intros H. destruct (In_nth js j cleared H) as (i & Hi & He). eauto. Qed.

(** An update that leaves the test of its slot as it was does not move
    the first hit. *)
Lemma scan_upd_keeps_test (P : job_t -> bool) (f : job_t -> job_t) (i : nat)
    (js : list job_t) :
  P (f (slot i js)) = P (slot i js) -> scan P (upd i f js) = scan P js.
Proof.
  revert i. induction js as [|j rest IH]; intros [|i] H; simpl; try reflexivity.
  - unfold slot in H; simpl in H. now rewrite H.
  - rewrite IH; [reflexivity | exact H].
Qed.

Lemma pid2jid_getjobpid (js : list job_t) (p : Z) :
  pid2jid js p = match getjobpid js p with
                 | Some i => jid (slot i js)
                 | None => 0
                 end.
Proof. unfold pid2jid, getjobpid. destruct (p <? 1); reflexivity. Qed.

(** The job written into the first free slot is the one [getjobpid] finds,
    when its pid was in no slot before. *)
Lemma getjobpid_upd_new (js : list job_t) (p n st : Z) (cmd : string) (i : nat) :
  1 <= p -> getjobpid js p = None ->
  scan (fun j => pid j =? 0) js = Some i ->
  getjobpid (upd i (fun _ => mkjob p n st cmd) js) p = Some i.
Proof.
  intros Hp Hnew Hs. pose proof (scan_Some _ _ _ Hs) as (Hi & _ & _).
  unfold getjobpid in *. destruct (Z.ltb_spec p 1); [lia|].
  apply scan_first.
  - now rewrite upd_length.
  - rewrite slot_upd_same by exact Hi. apply Z.eqb_refl.
  - intros k Hk. rewrite slot_upd_other by lia.
    apply (proj1 (scan_None _ _) Hnew). apply slot_In. lia.
Qed.

(** X1.  After a successful [addjob] of a pid that was not in the list,
    [getjobpid] finds the new job, which holds the pid, the jid taken from
    the counter, the state and the command line given; [pid2jid] maps the
    pid to that jid; and the two lookups answer for every other pid what
    they answered before. *)
Theorem addjob_then_lookup (s s' : shell) (p st : Z) (cmd : string) :
  addjob s p st cmd = (1, s') ->
  getjobpid (jobs s) p = None ->
  (exists i, getjobpid (jobs s') p = Some i /\
             slot i (jobs s') = mkjob p (nextjid s) st cmd) /\
  pid2jid (jobs s') p = nextjid s /\
  (forall q, q <> p ->
     getjobpid (jobs s') q = getjobpid (jobs s) q /\
     pid2jid (jobs s') q = pid2jid (jobs s) q).
Proof.
  intros E Hnew.
  destruct (addjob_cases s p st cmd)
    as [[E' _]|[(E' & _)|(i & s1 & E' & Hp & Hs & Hj & _)]];
    rewrite E' in E; try discriminate.
  injection E as <-.
  pose proof (scan_Some _ _ _ Hs) as (Hi & Hz & _). apply Z.eqb_eq in Hz.
  assert (Hfound : getjobpid (jobs s1) p = Some i)
    by (rewrite Hj; now apply getjobpid_upd_new).
  assert (Hslot : slot i (jobs s1) = mkjob p (nextjid s) st cmd)
    by (rewrite Hj; now rewrite slot_upd_same).
  split; [exists i; split; assumption|].
  split; [rewrite pid2jid_getjobpid, Hfound, Hslot; reflexivity|].
  intros q Hq.
  assert (Hsame : getjobpid (jobs s1) q = getjobpid (jobs s) q).
  { unfold getjobpid. destruct (Z.ltb_spec q 1); [reflexivity|].
    rewrite Hj. apply scan_upd_keeps_test. rewrite Hz. cbn [pid].
    destruct (Z.eqb_spec p q), (Z.eqb_spec 0 q); try reflexivity; lia. }
  split; [exact Hsame|].
  rewrite !pid2jid_getjobpid, Hsame.
  destruct (getjobpid (jobs s) q) as [k|] eqn:Hk; [|reflexivity].
  apply getjobpid_Some in Hk. destruct Hk as (Hq1 & _ & Hpk & _).
  rewrite Hj, slot_upd_other; [reflexivity|]. intros ->. lia.
Qed.

Lemma addjob_then_lookup_witness :
  pid2jid (jobs (snd (addjob after_wrap 17 BG "ls"))) 17 = nextjid after_wrap.
Proof.
  exact (proj1 (proj2 (addjob_then_lookup after_wrap _ 17 BG "ls"
                         after_wrap_add after_wrap_fresh))).
Defined.

Lemma cleared_pid_gone (js : list job_t) (p : Z) (i : nat) :
  unique_pids js -> getjobpid js p = Some i ->
  getjobpid (upd i clearjob js) p = None.
Proof.
  intros Hu Hg. pose proof (getjobpid_Some _ _ _ Hg) as (_ & Hi & Hpid & _).
  unfold getjobpid. destruct (Z.ltb_spec p 1); [reflexivity|].
  apply scan_None. intros j Hin. apply In_slot in Hin.
  destruct Hin as (k & Hk & <-). rewrite upd_length in Hk.
  apply Z.eqb_neq. destruct (Nat.eq_dec k i) as [->|Hki].
  - rewrite slot_upd_same by exact Hi. cbn. lia.
  - rewrite slot_upd_other by exact Hki. intros Hkp.
    apply Hki. apply Hu; [exact Hk | exact Hi | lia | congruence].
Qed.

(** X2.  In a list with distinct pids, after a successful [deletejob] the
    pid is gone: [getjobpid] answers NULL and [pid2jid] answers 0; for every
    other pid the two lookups answer what they answered before. *)
Theorem deletejob_then_lookup (s s' : shell) (p : Z) :
  unique_pids (jobs s) ->
  deletejob s p = (1, s') ->
  getjobpid (jobs s') p = None /\
  pid2jid (jobs s') p = 0 /\
  (forall q, q <> p ->
     getjobpid (jobs s') q = getjobpid (jobs s) q /\
     pid2jid (jobs s') q = pid2jid (jobs s) q).
Proof.
  intros Hu E.
  destruct (deletejob_cases s p) as [[E' _]|(i & E' & Hp & Hg)];
    rewrite E' in E; [discriminate|].
  injection E as <-. cbn [jobs set_nextjid set_jobs].
  pose proof (getjobpid_Some _ _ _ Hg) as (_ & Hi & Hpid & _).
  assert (Hgone : getjobpid (upd i clearjob (jobs s)) p = None)
    by (now apply cleared_pid_gone).
  split; [exact Hgone|].
  split; [rewrite pid2jid_getjobpid, Hgone; reflexivity|].
  intros q Hq.
  assert (Hsame : getjobpid (upd i clearjob (jobs s)) q = getjobpid (jobs s) q).
  { unfold getjobpid. destruct (Z.ltb_spec q 1); [reflexivity|].
    apply scan_upd_keeps_test. rewrite Hpid. cbn [clearjob pid].
    destruct (Z.eqb_spec p q), (Z.eqb_spec 0 q); try reflexivity; lia. }
  split; [exact Hsame|].
  rewrite !pid2jid_getjobpid, Hsame.
  destruct (getjobpid (jobs s) q) as [k|] eqn:Hk; [|reflexivity].
  apply getjobpid_Some in Hk. destruct Hk as (_ & _ & Hpk & _).
  rewrite slot_upd_other; [reflexivity|]. intros ->. congruence.
Qed.

Lemma stopped_shell_delete :
  deletejob stopped_shell 5 = (1, snd (deletejob stopped_shell 5)).
Proof. vm_compute. reflexivity. Qed.

Lemma deletejob_then_lookup_witness :
  getjobpid (jobs (snd (deletejob stopped_shell 5))) 5 = None /\
  pid2jid (jobs (snd (deletejob stopped_shell 5))) 6 = pid2jid (jobs stopped_shell) 6.
Proof.
  pose proof (deletejob_then_lookup stopped_shell _ 5 stopped_shell_unique
                stopped_shell_delete) as (Hgone & _ & Hother).
  split; [exact Hgone|]. apply Hother. lia.
Defined.

(** X3.  [deletejob] returns 0 exactly when [getjobpid] finds no job with
    the pid (a pid below 1 included); it then changes nothing, the counter
    included.  Otherwise it returns 1. *)
Theorem deletejob_fails_iff_absent (s : shell) (p : Z) :
  (fst (deletejob s p) = 0 <-> getjobpid (jobs s) p = None) /\
  (fst (deletejob s p) = 0 -> snd (deletejob s p) = s) /\
  (fst (deletejob s p) = 0 \/ fst (deletejob s p) = 1).
Proof.
  destruct (deletejob_cases s p) as [[E Hg]|(i & E & _ & Hg)]; rewrite E; cbn [fst snd].
  - repeat split; auto.
  - repeat split; try discriminate; auto. rewrite Hg. discriminate.
Qed.

(** ** maxjid and fgpid *)

(** X4.  [maxjid] is never negative, no jid in the list exceeds it, and it
    is 0 or the jid of some slot: the largest jid, 0 for a list without a
    positive jid. *)
Theorem maxjid_is_largest (js : list job_t) :
  0 <= maxjid js /\
  (forall j, In j js -> jid j <= maxjid js) /\
  (maxjid js = 0 \/ exists j, In j js /\ jid j = maxjid js).
Proof.
  split; [apply maxjid_nonneg|]. split; [intros j; apply maxjid_upper|].
  induction js as [|j rest IH]; [left; reflexivity|].
  rewrite maxjid_cons. pose proof (maxjid_nonneg rest).
  destruct (Z.max_spec (jid j) (maxjid rest)) as [[Hlt ->]|[Hge ->]].
  - destruct IH as [Hz|(j' & Hin & Hj')]; [left; exact Hz|].
    right. exists j'. split; [now right | exact Hj'].
  - right. exists j. split; [now left | reflexivity].
Qed.

Lemma fgpid_none (js : list job_t) :
  (forall j, In j js -> state j <> FG) -> fgpid js = 0.
Proof.
  unfold fgpid. intros Hnone.
  destruct (scan (fun j => state j =? FG) js) as [k|] eqn:Hs; [|reflexivity].
  apply scan_Some in Hs. destruct Hs as (Hk & Hfg & _). apply Z.eqb_eq in Hfg.
  exfalso. exact (Hnone _ (slot_In _ _ Hk) Hfg).
Qed.

Lemma fgpid_one (js : list job_t) (i : nat) :
  one_foreground js -> (i < List.length js)%nat ->
  state (slot i js) = FG -> fgpid js = pid (slot i js).
Proof.
  unfold fgpid. intros Hone Hi Hfg.
  destruct (scan (fun j => state j =? FG) js) as [k|] eqn:Hs.
  - apply scan_Some in Hs. destruct Hs as (Hk & Hkfg & _). apply Z.eqb_eq in Hkfg.
    now rewrite (Hone k i Hk Hi Hkfg Hfg).
  - rewrite scan_None in Hs. specialize (Hs _ (slot_In _ _ Hi)).
    rewrite Hfg in Hs. discriminate.
Qed.

(** X5.  [fgpid] returns 0 when no slot is in state FG; when a slot is in
    state FG and no other is, it returns the pid in that slot. *)
Theorem fgpid_is_foreground_pid (js : list job_t) :
  ((forall j, In j js -> state j <> FG) -> fgpid js = 0) /\
  (forall i, one_foreground js -> (i < List.length js)%nat ->
             state (slot i js) = FG -> fgpid js = pid (slot i js)).
Proof. split; [apply fgpid_none | intros i; apply fgpid_one]. Qed.

Lemma fgpid_is_foreground_pid_witness :
  fgpid (jobs two_jobs) = 0 /\
  fgpid (jobs (snd (addjob two_jobs 9 FG "vi"))) = 9.
Proof.
  split.
  - apply (proj1 (fgpid_is_foreground_pid (jobs two_jobs))).
    intros j Hj Hfg.
    assert (H : forallb (fun j => negb (state j =? FG)) (jobs two_jobs) = true)
      by (vm_compute; reflexivity).
    rewrite forallb_forall in H. specialize (H j Hj). rewrite Hfg in H. discriminate.
  - refine (proj2 (fgpid_is_foreground_pid _) 2%nat _ _ _).
    + intros i k Hi Hk Hfi Hfk.
      assert (Hone : forall n, (n < 16)%nat ->
                state (slot n (jobs (snd (addjob two_jobs 9 FG "vi")))) = FG -> n = 2%nat).
      { intros n Hn. do 16 (destruct n as [|n]; [vm_compute; congruence|]). lia. }
      rewrite (Hone i Hi Hfi), (Hone k Hk Hfk). reflexivity.
    + vm_compute. lia.
    + vm_compute. reflexivity.
Defined.

(** ** How many jobs the list holds *)

Lemma job_count_upd (i : nat) (f : job_t -> job_t) (js : list job_t) :
  (i < List.length js)%nat ->
  (job_count (upd i f js) + (if (pid (slot i js) =? 0)%Z then 0 else 1)
   = job_count js + (if (pid (f (slot i js)) =? 0)%Z then 0 else 1))%nat.
Proof.
  unfold job_count.
  revert i. induction js as [|j rest IH]; intros [|i] Hi; simpl in *; try lia.
  - unfold slot; simpl. destruct (pid j =? 0), (pid (f j) =? 0); simpl; lia.
  - specialize (IH i ltac:(lia)). unfold slot in *; simpl.
    destruct (pid j =? 0); simpl; lia.
Qed.

Lemma job_count_le (js : list job_t) : (job_count js <= List.length js)%nat.
Proof. unfold job_count. apply filter_length_le. Qed.

Lemma job_count_full (js : list job_t) :
  job_count js = List.length js <-> scan (fun j => pid j =? 0) js = None.
Proof.
  unfold job_count. induction js as [|j rest IH]; simpl; [tauto|].
  pose proof (filter_length_le (fun j => negb (pid j =? 0)) rest).
  destruct (pid j =? 0); simpl.
  - split; [lia | discriminate].
  - destruct (scan _ rest); simpl.
    + split; [|discriminate]. intros H'. assert (Some n = None) by (apply IH; lia). discriminate.
    + split; [reflexivity|]. intros _. f_equal. now apply IH.
Qed.

(** X6.  A successful [addjob] raises the number of slots in use by one, a
    successful [deletejob] lowers it by one, and [addjob] with a valid pid
    fails exactly when every slot is in use. *)
Theorem job_count_add_delete (s : shell) (p st : Z) (cmd : string) :
  (forall s', addjob s p st cmd = (1, s') ->
     job_count (jobs s') = S (job_count (jobs s))) /\
  (forall s', deletejob s p = (1, s') ->
     S (job_count (jobs s')) = job_count (jobs s)) /\
  (1 <= p ->
     (fst (addjob s p st cmd) = 0 <-> job_count (jobs s) = List.length (jobs s))).
Proof.
  split; [|split].
  - intros s' E.
    destruct (addjob_cases s p st cmd)
      as [[E' _]|[(E' & _)|(i & s1 & E' & Hp & Hs & Hj & _)]];
      rewrite E' in E; try discriminate.
    injection E as <-. apply scan_Some in Hs. destruct Hs as (Hi & Hz & _).
    pose proof (job_count_upd i (fun _ => mkjob p (nextjid s) st cmd) (jobs s) Hi) as H.
    rewrite Hz in H. cbn [pid] in H.
    destruct (Z.eqb_spec p 0); [lia|]. rewrite Hj. lia.
  - intros s' E.
    destruct (deletejob_cases s p) as [[E' _]|(i & E' & Hp & Hg)];
      rewrite E' in E; [discriminate|].
    injection E as <-. cbn [jobs set_nextjid set_jobs].
    apply getjobpid_Some in Hg. destruct Hg as (_ & Hi & Hpid & _).
    pose proof (job_count_upd i clearjob (jobs s) Hi) as H.
    change (pid (clearjob (slot i (jobs s)))) with 0 in H.
    rewrite Hpid, Z.eqb_refl in H. destruct (Z.eqb_spec p 0); lia.
  - intros Hp. rewrite job_count_full.
    destruct (addjob_cases s p st cmd)
      as [[E' Hlt]|[(E' & _ & Hs)|(i & s1 & E' & _ & Hs & _)]];
      rewrite E'; cbn [fst]; [lia | tauto |].
    rewrite Hs. split; discriminate.
Qed.

(** ** The shape of a reachable list *)

Lemma reachable_nextjid_pos (s : shell) : reachable s -> 1 <= nextjid s.
Proof.
  intros Hr. destruct (reachable_invariant s Hr) as (_ & Hcnt & _).
  pose proof (maxjid_nonneg (jobs s)). destruct Hcnt; lia.
Qed.

Lemma reachable_jobs_positive (s : shell) :
  reachable s -> forall j, In j (jobs s) -> pid j <> 0 -> 1 <= pid j /\ 1 <= jid j.
Proof.
  induction 1 as [v|s o Hr IH].
  - intros j Hj Hp. rewrite (init_shell_jobs v j Hj) in Hp. now contradiction Hp.
  - pose proof (reachable_nextjid_pos s Hr) as Hn.
    destruct o as [p st cmd|p]; cbn [step].
    + destruct (addjob_cases s p st cmd)
        as [[E _]|[(E & _ & _)|(i & s' & E & Hp & Hs & Hj & _)]];
        rewrite E; cbn [snd]; try exact IH.
      intros j Hin Hne. rewrite Hj in Hin.
      destruct (In_upd _ _ _ _ Hin) as [Hin'|[_ ->]]; [now apply IH|].
      cbn [pid jid]. lia.
    + destruct (deletejob_cases s p) as [[E _]|(i & E & Hp & Hg)];
        rewrite E; cbn [snd jobs set_nextjid set_jobs]; try exact IH.
      intros j Hin Hne.
      destruct (In_upd _ _ _ _ Hin) as [Hin'|[_ ->]]; [now apply IH|].
      now contradiction Hne.
Qed.

(** X7.  Whatever sequence of [addjob] and [deletejob] calls was applied to
    the initialised list: it has its sixteen slots, the counter is at least
    1, and every slot is either exactly what [clearjob] writes or holds a
    job whose pid and jid are both at least 1. *)
Theorem reachable_list_shape (s : shell) :
  reachable s ->
  List.length (jobs s) = 16%nat /\
  1 <= nextjid s /\
  (job_count (jobs s) <= 16)%nat /\
  forall j, In j (jobs s) -> j = cleared \/ (1 <= pid j /\ 1 <= jid j).
Proof.
  intros Hr. destruct (reachable_invariant s Hr) as (Hclear & _ & Hlen).
  split; [exact Hlen|]. split; [now apply reachable_nextjid_pos|].
  split; [pose proof (job_count_le (jobs s)) as Hc; rewrite Hlen in Hc; exact Hc|].
  intros j Hin. destruct (Z.eq_dec (pid j) 0) as [Hz|Hnz].
  - left. now apply Hclear.
  - right. now apply reachable_jobs_positive with (s := s).
Qed.

Lemma reachable_list_shape_witness :
  List.length (jobs after_wrap) = 16%nat /\ 1 <= nextjid after_wrap.
Proof.
  pose proof (reachable_list_shape after_wrap after_wrap_reachable) as (Hlen & Hn & _).
  split; assumption.
Defined.

(** X8.  On a reachable list [pid2jid] answers 0 exactly for the pids that
    [getjobpid] does not find, and for the others the jid of the job
    [getjobpid] finds, which is at least 1. *)
Theorem pid2jid_zero_iff_absent (s : shell) (p : Z) :
  reachable s ->
  (pid2jid (jobs s) p = 0 <-> getjobpid (jobs s) p = None) /\
  (forall i, getjobpid (jobs s) p = Some i ->
             pid2jid (jobs s) p = jid (slot i (jobs s)) /\ 1 <= pid2jid (jobs s) p).
Proof.
  intros Hr. rewrite pid2jid_getjobpid.
  destruct (getjobpid (jobs s) p) as [i|] eqn:Hg.
  - pose proof (getjobpid_Some _ _ _ Hg) as (Hp & Hi & Hpid & _).
    assert (Hpos : 1 <= jid (slot i (jobs s))).
    { apply (reachable_jobs_positive s Hr); [now apply slot_In | lia]. }
    split.
    + split; [lia | discriminate].
    + intros k [= <-]. split; [reflexivity | exact Hpos].
  - split; [tauto | discriminate].
Qed.

Lemma pid2jid_zero_iff_absent_witness :
  pid2jid (jobs after_wrap) 17 = 0.
Proof.
  exact (proj2 (proj1 (pid2jid_zero_iff_absent after_wrap 17 after_wrap_reachable))
           after_wrap_fresh).
Defined.

(** ** initjobs *)

(** X9.  Whatever the array held, [initjobs] leaves the same number of
    slots, every one of them cleared: no lookup finds a job, there is no
    foreground pid, the largest jid is 0 and no slot is in use. *)
Theorem initjobs_empties (js : list job_t) :
  List.length (initjobs js) = List.length js /\
  (forall j, In j (initjobs js) -> j = cleared) /\
  (forall p, getjobpid (initjobs js) p = None) /\
  (forall id, getjobjid (initjobs js) id = None) /\
  fgpid (initjobs js) = 0 /\
  maxjid (initjobs js) = 0 /\
  job_count (initjobs js) = 0%nat.
Proof.
  assert (Hall : forall j, In j (initjobs js) -> j = cleared).
  { unfold initjobs. intros j Hj. apply in_map_iff in Hj.
    destruct Hj as (j0 & <- & _). reflexivity. }
  split; [unfold initjobs; apply length_map|]. split; [exact Hall|].
  split; [|split; [|split; [|split]]].
  - intros p. unfold getjobpid. destruct (Z.ltb_spec p 1); [reflexivity|].
    apply scan_None. intros j Hj. rewrite (Hall j Hj). apply Z.eqb_neq. cbn. lia.
  - intros id. unfold getjobjid. destruct (Z.ltb_spec id 1); [reflexivity|].
    apply scan_None. intros j Hj. rewrite (Hall j Hj). apply Z.eqb_neq. cbn. lia.
  - apply fgpid_none. intros j Hj. rewrite (Hall j Hj). discriminate.
  - unfold initjobs. induction js as [|j rest IH]; [reflexivity|].
    cbn [map]. rewrite maxjid_cons. cbn [clearjob jid]. rewrite IH.
    + reflexivity.
    + intros j' Hj'. apply in_map_iff in Hj'. destruct Hj' as (j0 & <- & _). reflexivity.
  - unfold initjobs, job_count. induction js as [|j rest IH]; [reflexivity|].
    cbn. apply IH. intros j' Hj'. apply in_map_iff in Hj'.
    destruct Hj' as (j0 & <- & _). reflexivity.
Qed.

(** ** The handlers of SIGINT and SIGTSTP *)

(** X10.  With no slot in state FG the two handlers do nothing at all.  With
    one slot, and only one, in state FG they send the signal they received
    to minus the pid of that job, that is, to its process group, and leave
    the job list and the counter alone. *)
Theorem signal_forwarded_to_foreground_group (sig : Z) (s : shell) :
  ((forall j, In j (jobs s) -> state j <> FG) ->
   sigint_handler sig s = s /\ sigtstp_handler sig s = s) /\
  (forall i, one_foreground (jobs s) -> (i < List.length (jobs s))%nat ->
     state (slot i (jobs s)) = FG -> pid (slot i (jobs s)) <> 0 ->
     sigint_handler sig s = emit (Kill (- pid (slot i (jobs s))) sig) s /\
     sigtstp_handler sig s = emit (Kill (- pid (slot i (jobs s))) sig) s /\
     jobs (sigint_handler sig s) = jobs s /\
     nextjid (sigint_handler sig s) = nextjid s).
Proof.
  unfold sigint_handler, sigtstp_handler. split.
  - intros Hnone. rewrite (fgpid_none _ Hnone). split; reflexivity.
  - intros i Hone Hi Hfg Hp. rewrite (fgpid_one _ i Hone Hi Hfg).
    destruct (Z.eqb_spec (pid (slot i (jobs s))) 0); [contradiction|].
    repeat split.
Qed.

(** ** The SIGCHLD handler on any batch of children *)

(** X11.  A reaped child whose pid is in no slot makes the handler
    dereference the NULL that [getjobpid] returned, whatever the child's
    status and whatever would have been reaped after it. *)
Theorem sigchld_untracked_child_faults
    (p : Z) (stat : wstatus) (rest : list (Z * wstatus)) (s : shell) :
  0 < p ->
  getjobpid (jobs s) p = None ->
  sigchld_handler ((p, stat) :: rest) s = None.
Proof.
  intros Hp Hg. cbn [sigchld_handler]. destruct (Z.gtb_spec p 0); [|lia].
  destruct stat; rewrite ?jobs_printf, Hg; reflexivity.
Qed.

Lemma sigchld_untracked_child_faults_witness :
  sigchld_handler [(17, WExited 0)] after_wrap = None.
Proof.
  apply (sigchld_untracked_child_faults 17 (WExited 0) [] after_wrap);
    [lia | exact after_wrap_fresh].
Defined.

(** One turn of the handler's loop, on a child that is in slot [i]. *)
Lemma sigchld_step (p : Z) (stat : wstatus) (rest : list (Z * wstatus))
    (s : shell) (i : nat) :
  getjobpid (jobs s) p = Some i ->
  exists s1,
    sigchld_handler ((p, stat) :: rest) s = sigchld_handler rest s1 /\
    verbose s1 = verbose s /\
    jobs s1 = upd i (match stat with
                     | WStopped _ => set_state ST
                     | _ => clearjob
                     end) (jobs s).
Proof.
  intros Hg. destruct stat as [n|c|n].
  - rewrite (sigchld_signaled _ _ _ _ _ Hg). eexists. repeat split.
  - rewrite (sigchld_exited _ _ _ _ _ Hg). eexists. repeat split.
  - rewrite (sigchld_stopped _ _ _ _ _ Hg). eexists. repeat split.
Qed.

(** X12.  The handler writes only into the slots of the children it
    reaped: the list keeps its length, and a slot whose pid is the pid of no
    reaped child comes out as it went in. *)
Theorem sigchld_handler_leaves_other_jobs
    (reaped : list (Z * wstatus)) (s s' : shell) :
  sigchld_handler reaped s = Some s' ->
  List.length (jobs s') = List.length (jobs s) /\
  forall k, (forall q stat, In (q, stat) reaped -> pid (slot k (jobs s)) <> q) ->
            slot k (jobs s') = slot k (jobs s).
Proof.
  revert s. induction reaped as [|[p stat] rest IH]; intros s H.
  - injection H as <-. split; reflexivity.
  - destruct (Z.gtb_spec p 0) as [Hp|Hp].
    + destruct (getjobpid (jobs s) p) as [i|] eqn:Hg.
      * destruct (sigchld_step p stat rest s i Hg) as (s1 & E & _ & Hj).
        rewrite E in H. destruct (IH s1 H) as (Hlen & Hother).
        pose proof (getjobpid_Some _ _ _ Hg) as (_ & Hi & Hpid & _).
        split; [now rewrite Hlen, Hj, upd_length|].
        intros k Hk.
        assert (Hki : k <> i).
        { intros ->. apply (Hk p stat); [now left | exact Hpid]. }
        rewrite Hother; rewrite Hj, slot_upd_other by exact Hki; [reflexivity|].
        intros q st Hin. apply (Hk q st). now right.
      * cbn [sigchld_handler] in H. destruct (Z.gtb_spec p 0); [|lia].
        destruct stat; rewrite ?jobs_printf, Hg in H; discriminate.
    + cbn [sigchld_handler] in H. destruct (Z.gtb_spec p 0); [lia|].
      injection H as <-. split; reflexivity.
Qed.

Lemma two_jobs_stop :
  sigchld_handler [(5, WStopped 20)] two_jobs
  = Some (mkshell (jobs stopped_shell) 3 false
            [Print ("Job [1] (5) stopped by signal 20" ++ nl)]).
Proof. vm_compute. reflexivity. Qed.

Lemma sigchld_handler_leaves_other_jobs_witness :
  slot 1 (jobs stopped_shell) = slot 1 (jobs two_jobs).
Proof.
  refine (proj2 (sigchld_handler_leaves_other_jobs _ _ _ two_jobs_stop) 1%nat _).
  intros q stat [H|[]]. injection H as <- _. vm_compute. discriminate.
Defined.

(** ** What the handler keeps *)

Lemma upd_overflow (i : nat) (f : job_t -> job_t) (js : list job_t) :
  (List.length js <= i)%nat -> upd i f js = js.
Proof.
  revert i. induction js as [|j rest IH]; intros [|i] Hi; simpl in *;
    try reflexivity; try lia.
  f_equal. apply IH. lia.
Qed.

Lemma clear_keeps_table_ok (i : nat) (js : list job_t) :
  unique_pids js /\ one_foreground js ->
  unique_pids (upd i clearjob js) /\ one_foreground (upd i clearjob js).
Proof.
  intros [Hu Hf].
  destruct (Nat.lt_ge_cases i (List.length js)) as [Hi|Hi].
  - split; intros a b Hla Hlb; rewrite upd_length in Hla, Hlb;
      destruct (Nat.eq_dec a i) as [->|Hai], (Nat.eq_dec b i) as [->|Hbi];
      rewrite ?slot_upd_same by assumption;
      rewrite ?(slot_upd_other i a), ?(slot_upd_other i b) by assumption;
      unfold clearjob; cbn [pid state]; try congruence;
      solve [now apply Hu | now apply Hf | unfold FG, UNDEF; intros; congruence].
  - rewrite upd_overflow by exact Hi. split; assumption.
Qed.

Lemma stop_keeps_table_ok (i : nat) (js : list job_t) :
  unique_pids js /\ one_foreground js ->
  unique_pids (upd i (set_state ST) js) /\ one_foreground (upd i (set_state ST) js).
Proof.
  intros [Hu Hf]. split; [now apply unique_pids_set_state|].
  destruct (Nat.lt_ge_cases i (List.length js)) as [Hi|Hi].
  - intros a b Hla Hlb; rewrite upd_length in Hla, Hlb;
      destruct (Nat.eq_dec a i) as [->|Hai], (Nat.eq_dec b i) as [->|Hbi];
      rewrite ?slot_upd_same by assumption;
      rewrite ?(slot_upd_other i a), ?(slot_upd_other i b) by assumption;
      cbn [set_state state]; unfold FG, ST; try congruence.
    now apply Hf.
  - rewrite upd_overflow by exact Hi. exact Hf.
Qed.

(** X13.  The handler keeps the list well formed and never adds a job:
    when the pids in use are distinct and at most one slot is in state FG
    before it runs, the same holds when it returns, and the number of slots
    in use has not grown. *)
Theorem sigchld_handler_keeps_table_ok
    (reaped : list (Z * wstatus)) (s s' : shell) :
  sigchld_handler reaped s = Some s' ->
  unique_pids (jobs s) -> one_foreground (jobs s) ->
  unique_pids (jobs s') /\ one_foreground (jobs s') /\
  (job_count (jobs s') <= job_count (jobs s))%nat.
Proof.
  revert s. induction reaped as [|[p stat] rest IH]; intros s H Hu Hf.
  - injection H as <-. repeat split; auto.
  - destruct (Z.gtb_spec p 0) as [Hp|Hp].
    + destruct (getjobpid (jobs s) p) as [i|] eqn:Hg.
      * destruct (sigchld_step p stat rest s i Hg) as (s1 & E & _ & Hj).
        rewrite E in H.
        pose proof (getjobpid_Some _ _ _ Hg) as (_ & Hi & Hpid & _).
        assert (Hok : unique_pids (jobs s1) /\ one_foreground (jobs s1)).
        { rewrite Hj. destruct stat;
            [apply clear_keeps_table_ok | apply clear_keeps_table_ok
            | apply stop_keeps_table_ok]; split; assumption. }
        destruct (IH s1 H (proj1 Hok) (proj2 Hok)) as (Hu' & Hf' & Hc').
        repeat split; [exact Hu' | exact Hf' |].
        assert (Hc1 : (job_count (jobs s1) <= job_count (jobs s))%nat).
        { rewrite Hj.
          pose proof (job_count_upd i (match stat with
                                       | WStopped _ => set_state ST
                                       | _ => clearjob
                                       end) (jobs s) Hi) as Hc.
          destruct stat; cbn [clearjob set_state pid] in Hc;
            destruct (pid (slot i (jobs s)) =? 0)%Z; cbn in Hc; lia. }
        lia.
      * cbn [sigchld_handler] in H. destruct (Z.gtb_spec p 0); [|lia].
        destruct stat; rewrite ?jobs_printf, Hg in H; discriminate.
    + cbn [sigchld_handler] in H. destruct (Z.gtb_spec p 0); [lia|].
      injection H as <-. repeat split; auto.
Qed.

Lemma two_jobs_ok : unique_pids (jobs two_jobs) /\ one_foreground (jobs two_jobs).
Proof.
  assert (E : jobs two_jobs
              = jobs (run [Add 5 BG "a"; Add 6 BG "b"] (init_shell false)))
    by (vm_compute; reflexivity).
  rewrite E.
  apply (run_keeps_table_ok [Add 5 BG "a"; Add 6 BG "b"] _ (init_table_ok false)).
  vm_compute. repeat split; intros; try reflexivity; discriminate.
Qed.

Lemma sigchld_handler_keeps_table_ok_witness :
  unique_pids (jobs stopped_shell) /\ one_foreground (jobs stopped_shell).
Proof.
  pose proof (sigchld_handler_keeps_table_ok _ _ _ two_jobs_stop
                (proj1 two_jobs_ok) (proj2 two_jobs_ok)) as (Hu & Hf & _).
  split; assumption.
Defined.

(** ** One reaped child *)

(** X14.  One child reaped from a list with distinct pids, the child being
    in the list.  Terminated, by a signal or by exit: its pid is no longer
    found and the counter is one above the largest jid left; the exit is
    silent.  Stopped: the job stays where it is, pid, jid and command line
    kept, its state ST, and the counter is not touched. *)
Theorem sigchld_handler_reaps_child (s : shell) (p : Z) (stat : wstatus) (i : nat) :
  unique_pids (jobs s) ->
  getjobpid (jobs s) p = Some i ->
  exists s',
    sigchld_handler [(p, stat)] s = Some s' /\
    match stat with
    | WSignaled _ =>
        getjobpid (jobs s') p = None /\ nextjid s' = maxjid (jobs s') + 1
    | WExited _ =>
        getjobpid (jobs s') p = None /\ nextjid s' = maxjid (jobs s') + 1 /\
        trace s' = trace s
    | WStopped _ =>
        getjobpid (jobs s') p = Some i /\
        slot i (jobs s') = set_state ST (slot i (jobs s)) /\
        nextjid s' = nextjid s
    end.
Proof.
  intros Hu Hg. pose proof (getjobpid_Some _ _ _ Hg) as (_ & Hi & _ & _).
  destruct stat as [n|c|n].
  - rewrite (sigchld_signaled _ _ _ _ _ Hg). eexists. split; [reflexivity|].
    cbn [jobs nextjid]. split; [now apply cleared_pid_gone | reflexivity].
  - rewrite (sigchld_exited _ _ _ _ _ Hg). eexists. split; [reflexivity|].
    cbn [jobs nextjid trace]. split; [now apply cleared_pid_gone | split; reflexivity].
  - rewrite (sigchld_stopped _ _ _ _ _ Hg). eexists. split; [reflexivity|].
    cbn [jobs nextjid]. rewrite getjobpid_set_state, slot_upd_same by exact Hi.
    repeat split. exact Hg.
Qed.

Lemma two_jobs_six : getjobpid (jobs two_jobs) 6 = Some 1%nat.
Proof. vm_compute. reflexivity. Qed.

Lemma sigchld_handler_reaps_child_witness :
  exists s', sigchld_handler [(6, WExited 0)] two_jobs = Some s' /\
             getjobpid (jobs s') 6 = None /\ trace s' = trace two_jobs.
Proof.
  destruct (sigchld_handler_reaps_child two_jobs 6 (WExited 0) 1
              (proj1 two_jobs_ok) two_jobs_six) as (s' & E & Hgone & _ & Htr).
  exists s'. repeat split; assumption.
Defined.

(** ** bg and fg on a job that is found *)

(** The argument designates slot [i]: [do_bgfg] comes to the chain of state
    changes, having printed the line "JOB [jid] (pid) state" when the job was
    named by its pid and nothing when it was named by its jid. *)
Lemma do_bgfg_found (cmd arg : string) (env : events) (s : shell) (i : nat) :
  cmd = "fg" \/ cmd = "bg" ->
  targets arg (jobs s) i ->
  do_bgfg [cmd; arg] env s
  = change_state cmd i (pid (slot i (jobs s))) env
      (mkshell (jobs s) (nextjid s) (verbose s)
         (trace s ++
          (if first_char_is "%" arg then []
           else [Print ("JOB [" ++ string_of_Z (jid (slot i (jobs s))) ++ "] ("
                          ++ string_of_Z (pid (slot i (jobs s))) ++ ") "
                          ++ string_of_Z (state (slot i (jobs s))) ++ nl)]))).
Proof.
  intros Hcmd Ht.
  assert (Hc : ((cmd =? "fg")%string || (cmd =? "bg")%string) = true)
    by (destruct Hcmd as [-> | ->]; reflexivity).
  unfold targets in Ht. unfold do_bgfg. rewrite Hc.
  destruct (first_char_is "%" arg) eqn:Hpc.
  - destruct Ht as (id & Ha & Hcount & Hg & _). rewrite Ha, Hcount, Z.eqb_refl.
    cbn [negb]. change (1 =? 0) with false. cbv iota. rewrite Hg.
    rewrite app_nil_r. destruct s; reflexivity.
  - destruct Ht as (p & Ha & Hcount & Hg). rewrite Ha, Hcount, Z.eqb_refl.
    cbn [negb]. rewrite Z.eqb_refl, Hg, pid2jid_getjobpid, Hg.
    pose proof (getjobpid_Some _ _ _ Hg) as (_ & _ & Hpid & _). rewrite Hpid.
    reflexivity.
Qed.

(** X15.  [bg] on a job in state ST, named by its pid or by '%' and its
    jid: the job's state becomes BG, SIGCONT is sent to minus its pid, and
    the command returns at once, whatever the children do meanwhile; no
    other slot and not the counter is touched.  Before the signal, the line
    "JOB [jid] (pid) 3" and a newline are printed when the job was named by
    its pid, and nothing is printed when it was named by its jid. *)
Theorem bg_on_stopped_job (arg : string) (env : events) (s : shell) (i : nat) :
  targets arg (jobs s) i ->
  state (slot i (jobs s)) = ST ->
  do_bgfg ["bg"; arg] env s
  = Ret tt (mkshell (upd i (set_state BG) (jobs s)) (nextjid s) (verbose s)
              (trace s
               ++ (if first_char_is "%" arg then []
                   else [Print ("JOB [" ++ string_of_Z (jid (slot i (jobs s))) ++ "] ("
                                  ++ string_of_Z (pid (slot i (jobs s))) ++ ") 3" ++ nl)])
               ++ [Kill (- pid (slot i (jobs s))) SIGCONT])).
Proof.
  intros Ht Hst.
  rewrite (do_bgfg_found "bg" arg env s i (or_intror eq_refl) Ht).
  unfold change_state. cbn [jobs]. rewrite Hst.
  change ((ST =? ST) && ("bg" =? "bg")%string) with true. cbv iota.
  unfold emit, set_jobs. cbn [jobs nextjid verbose trace].
  rewrite <- app_assoc. reflexivity.
Qed.

Lemma stopped_shell_targets : targets "%1" (jobs stopped_shell) 0.
Proof. exists 1. repeat split; vm_compute; congruence. Qed.

Lemma stopped_shell_targets_pid : targets "5" (jobs stopped_shell) 0.
Proof. exists 5. repeat split; vm_compute; congruence. Qed.

Lemma bg_on_stopped_job_witness :
  do_bgfg ["bg"; "5"] [] stopped_shell
  = Ret tt (mkshell (upd 0 (set_state BG) (jobs stopped_shell)) 3 false
              [Print ("JOB [1] (5) 3" ++ nl); Kill (- 5) SIGCONT]) /\
  do_bgfg ["bg"; "%1"] [] stopped_shell
  = Ret tt (mkshell (upd 0 (set_state BG) (jobs stopped_shell)) 3 false
              [Kill (- 5) SIGCONT]).
Proof.
  split.
  - exact (bg_on_stopped_job "5" [] stopped_shell 0 stopped_shell_targets_pid eq_refl).
  - exact (bg_on_stopped_job "%1" [] stopped_shell 0 stopped_shell_targets eq_refl).
Defined.

(** ** The wait for a job that is reaped *)

Lemma unique_pids_clear (i : nat) (js : list job_t) :
  unique_pids js -> unique_pids (upd i clearjob js).
Proof.
  intros Hu.
  destruct (Nat.lt_ge_cases i (List.length js)) as [Hi|Hi].
  - intros a b Hla Hlb; rewrite upd_length in Hla, Hlb;
      destruct (Nat.eq_dec a i) as [->|Hai], (Nat.eq_dec b i) as [->|Hbi];
      rewrite ?slot_upd_same by assumption;
      rewrite ?(slot_upd_other i a), ?(slot_upd_other i b) by assumption;
      unfold clearjob; cbn [pid]; try (intros; congruence).
    now apply Hu.
  - now rewrite upd_overflow.
Qed.

(** The handler puts no job into the foreground. *)
Lemma sigchld_never_foreground (reaped : list (Z * wstatus)) (s s' : shell) (k : nat) :
  sigchld_handler reaped s = Some s' ->
  state (slot k (jobs s)) <> FG -> state (slot k (jobs s')) <> FG.
Proof.
  revert s. induction reaped as [|[p stat] rest IH]; intros s H Hk.
  - injection H as <-. exact Hk.
  - destruct (Z.gtb_spec p 0) as [Hp|Hp].
    + destruct (getjobpid (jobs s) p) as [i|] eqn:Hg.
      * destruct (sigchld_step p stat rest s i Hg) as (s1 & E & _ & Hj).
        rewrite E in H. apply (IH s1 H). rewrite Hj.
        pose proof (getjobpid_Some _ _ _ Hg) as (_ & Hi & _ & _).
        destruct (Nat.eq_dec k i) as [->|Hki].
        -- rewrite slot_upd_same by exact Hi. destruct stat; discriminate.
        -- now rewrite slot_upd_other.
      * cbn [sigchld_handler] in H. destruct (Z.gtb_spec p 0); [|lia].
        destruct stat; rewrite ?jobs_printf, Hg in H; discriminate.
    + cbn [sigchld_handler] in H. destruct (Z.gtb_spec p 0); [lia|].
      injection H as <-. exact Hk.
Qed.

(** One run of the handler and the job with pid [p], in slot [i]: when [p]
    is among the children reaped the slot is no longer in state FG; when it
    is not, the slot is as before and still the one found for [p]. *)
Lemma sigchld_handler_target (reaped : list (Z * wstatus)) (s s' : shell)
    (p : Z) (i : nat) :
  Forall (fun c => 0 < fst c) reaped ->
  sigchld_handler reaped s = Some s' ->
  getjobpid (jobs s) p = Some i ->
  ((exists stat, In (p, stat) reaped) -> state (slot i (jobs s')) <> FG) /\
  ((forall stat, ~ In (p, stat) reaped) ->
   getjobpid (jobs s') p = Some i /\ slot i (jobs s') = slot i (jobs s)).
Proof.
  revert s. induction reaped as [|[q st] rest IH]; intros s Hpos H Hg.
  - injection H as <-. split; [intros (stat & []) | intros _; split; [exact Hg | reflexivity]].
  - inversion Hpos as [|c l Hq Hrest]; subst. cbn [fst] in Hq.
    destruct (getjobpid (jobs s) q) as [k|] eqn:Hgq.
    + destruct (sigchld_step q st rest s k Hgq) as (s1 & E & _ & Hj). rewrite E in H.
      pose proof (getjobpid_Some _ _ _ Hgq) as (_ & Hk & Hpk & _).
      pose proof (getjobpid_Some _ _ _ Hg) as (Hp1 & Hi & Hpi & _).
      destruct (Z.eq_dec q p) as [->|Hqp].
      * assert (k = i) by congruence. subst k. split.
        -- intros _. apply (sigchld_never_foreground _ _ _ _ H).
           rewrite Hj, slot_upd_same by exact Hi. destruct st; discriminate.
        -- intros Hno. exfalso. apply (Hno st). now left.
      * assert (Hki : i <> k) by (intros ->; congruence).
        assert (Hg1 : getjobpid (jobs s1) p = Some i).
        { rewrite Hj. unfold getjobpid in *. destruct (p <? 1); [discriminate|].
          rewrite scan_upd_keeps_test; [exact Hg|].
          destruct st; cbn [clearjob set_state pid]; rewrite ?Hpk; try reflexivity;
            destruct (Z.eqb_spec 0 p), (Z.eqb_spec q p); try reflexivity; lia. }
        destruct (IH s1 Hrest H Hg1) as (IH1 & IH2). split.
        -- intros (stat & [Heq | Hin]); [congruence | apply IH1; eauto].
        -- intros Hno. destruct IH2 as (G & Sl).
           { intros stat Hin. apply (Hno stat). now right. }
           split; [exact G|]. rewrite Sl, Hj. now apply slot_upd_other.
    + cbn [sigchld_handler] in H. destruct (Z.gtb_spec q 0); [|lia].
      destruct st; rewrite ?jobs_printf, Hgq in H; discriminate.
Qed.

(** The wait ends at the first poll after a sleep during which the job is
    reaped; before that, the handler may stop at an untracked child. *)
Lemma waitfg_loop_ends (i : nat) (p : Z) (env : events) (s : shell) :
  Forall (Forall (fun c => 0 < fst c)) env ->
  getjobpid (jobs s) p = Some i ->
  (exists reaped stat, In reaped env /\ In (p, stat) reaped) ->
  waitfg_loop i env s = Fault \/ exists s', waitfg_loop i env s = Ret tt s'.
Proof.
  revert s. induction env as [|reaped env IH]; intros s Hpos Hg (r & stat & Hin & Hr).
  - destruct Hin.
  - inversion Hpos as [|? ? Hp1 Hp2]; subst.
    cbn [waitfg_loop].
    destruct (Z.eqb_spec (state (slot i (jobs s))) 1) as [Hfg|Hne]; [|right; eauto].
    destruct (sigchld_handler reaped s) as [s1|] eqn:Hh; [|now left].
    destruct (sigchld_handler_target reaped s s1 p i Hp1 Hh Hg) as (T1 & T2).
    destruct (existsb (fun c => fst c =? p) reaped) eqn:Hex.
    + apply existsb_exists in Hex. destruct Hex as ([q st] & Hin' & Heq).
      cbn [fst] in Heq. apply Z.eqb_eq in Heq. subst q.
      right. exists s1.
      assert (Hne : state (slot i (jobs s1)) <> FG) by (apply T1; eauto).
      unfold FG in Hne.
      destruct env; cbn [waitfg_loop];
        destruct (Z.eqb_spec (state (slot i (jobs s1))) 1); congruence.
    + assert (Hno : forall st, ~ In (p, st) reaped).
      { intros st Hin'.
        assert (Ht : existsb (fun c => fst c =? p) reaped = true)
          by (apply existsb_exists; exists (p, st); split; [exact Hin' | apply Z.eqb_refl]).
        congruence. }
      destruct (T2 Hno) as (Hg1 & _). apply IH; [exact Hp2 | exact Hg1 |].
      destruct Hin as [<- | Hin]; [exfalso; eapply Hno; eauto | eauto].
Qed.

(** After any number of sleeps without a child, the wait ends at the poll
    that follows the reaping of the job, in the state the handler left. *)
Lemma waitfg_loop_reaped_later (i : nat) (p : Z) (stat : wstatus)
    (idle env : events) (s : shell) :
  state (slot i (jobs s)) = FG ->
  getjobpid (jobs s) p = Some i ->
  Forall (fun reaped => reaped = []) idle ->
  exists s', sigchld_handler [(p, stat)] s = Some s' /\
             waitfg_loop i (idle ++ [(p, stat)] :: env)%list s = Ret tt s'.
Proof.
  intros Hfg Hg Hidle. induction Hidle as [|reaped idle -> _ IH].
  - pose proof (getjobpid_Some _ _ _ Hg) as (_ & Hi & _ & _).
    destruct (sigchld_step p stat [] s i Hg) as (s1 & E & _ & Hj).
    exists s1. split; [exact E|].
    cbn [app waitfg_loop]. rewrite Hfg. change (FG =? 1) with true. cbv iota.
    rewrite E. cbn [sigchld_handler].
    assert (Hne : (state (slot i (jobs s1)) =? 1) = false)
      by (rewrite Hj, slot_upd_same by exact Hi; destruct stat; reflexivity).
    destruct env; cbn [waitfg_loop]; rewrite Hne; reflexivity.
  - destruct IH as (s' & Hh & Hw). exists s'. split; [exact Hh|].
    cbn [app waitfg_loop]. rewrite Hfg. change (FG =? 1) with true. cbv iota.
    cbn [sigchld_handler]. exact Hw.
Qed.

(** X16.  [fg] on a job in state BG, in a list with distinct pids: the
    job's state becomes FG and no signal is sent; the line "JOB [jid] (pid)
    2" and a newline are printed when the job was named by its pid, nothing
    when it was named by its jid.  The command then polls in [waitfg]: it is
    still there when no child has been reaped at any sleep; after any number
    of such sleeps it returns at the poll that follows the reaping of the
    job, in the state the handler left; whenever the job is reaped at some
    sleep it does not stay in the wait (it returns, unless the handler
    stopped at an untracked child); and it never returns with the job's slot
    in state FG. *)
Theorem fg_on_background_job (arg : string) (env : events) (s : shell) (i : nat) :
  unique_pids (jobs s) ->
  targets arg (jobs s) i ->
  state (slot i (jobs s)) = BG ->
  let p := pid (slot i (jobs s)) in
  let s1 := mkshell (upd i (set_state FG) (jobs s)) (nextjid s) (verbose s)
              (trace s ++
               (if first_char_is "%" arg then []
                else [Print ("JOB [" ++ string_of_Z (jid (slot i (jobs s))) ++ "] ("
                               ++ string_of_Z p ++ ") 2" ++ nl)])) in
  do_bgfg ["fg"; arg] env s = waitfg_loop i env s1 /\
  (Forall (fun reaped => reaped = []) env ->
   do_bgfg ["fg"; arg] env s = Blocked s1) /\
  (forall idle stat env',
     Forall (fun reaped => reaped = []) idle ->
     env = (idle ++ [(p, stat)] :: env')%list ->
     exists s', sigchld_handler [(p, stat)] s1 = Some s' /\
                do_bgfg ["fg"; arg] env s = Ret tt s') /\
  (Forall (Forall (fun c => 0 < fst c)) env ->
   (exists reaped stat, In reaped env /\ In (p, stat) reaped) ->
   do_bgfg ["fg"; arg] env s = Fault \/
   exists s', do_bgfg ["fg"; arg] env s = Ret tt s') /\
  (forall s', do_bgfg ["fg"; arg] env s = Ret tt s' ->
   state (slot i (jobs s')) <> FG).
Proof.
  intros Hu Ht Hst p s1.
  assert (Hi : (i < List.length (jobs s))%nat /\ getjobpid (jobs s) p = Some i).
  { subst p. unfold targets in Ht. destruct (first_char_is "%" arg).
    - destruct Ht as (id & _ & _ & Hg & Hp).
      assert (Hi : (i < List.length (jobs s))%nat).
      { unfold getjobjid in Hg. destruct (id <? 1); [discriminate|].
        now apply scan_Some in Hg. }
      split; [exact Hi | now apply unique_getjobpid].
    - destruct Ht as (q & _ & _ & Hg).
      pose proof (getjobpid_Some _ _ _ Hg) as (_ & Hi & Hpid & _).
      split; [exact Hi | now rewrite Hpid]. }
  destruct Hi as [Hi Hg].
  assert (Hdo : do_bgfg ["fg"; arg] env s = waitfg_loop i env s1).
  { rewrite (do_bgfg_found "fg" arg env s i (or_introl eq_refl) Ht).
    unfold change_state. cbn [jobs]. rewrite Hst.
    change ((BG =? ST) && ("fg" =? "bg")%string) with false.
    change ((BG =? ST) && ("fg" =? "fg")%string) with false.
    change ((BG =? BG) && ("fg" =? "fg")%string) with true. cbv iota.
    unfold waitfg, set_jobs. cbn [jobs nextjid verbose trace].
    fold p. rewrite getjobpid_set_state, Hg. reflexivity. }
  assert (Hfg : state (slot i (jobs s1)) = FG)
    by (subst s1; cbn [jobs]; rewrite slot_upd_same by exact Hi; reflexivity).
  assert (Hg1 : getjobpid (jobs s1) p = Some i)
    by (subst s1; cbn [jobs]; now rewrite getjobpid_set_state).
  split; [exact Hdo|]. split; [|split; [|split]].
  - intros Hidle. rewrite Hdo. now apply waitfg_loop_idle.
  - intros idle stat env' Hidle ->. rewrite Hdo.
    now apply waitfg_loop_reaped_later.
  - intros Hpos Hreaped. rewrite Hdo. now apply (waitfg_loop_ends i p).
  - intros s' Hret. rewrite Hdo in Hret. now apply waitfg_loop_returns_not_fg in Hret.
Qed.

Lemma two_jobs_targets : targets "6" (jobs two_jobs) 1.
Proof. exists 6. repeat split; vm_compute; congruence. Qed.

Lemma fg_on_background_job_witness :
  exists s',
    sigchld_handler [(6, WStopped 20)]
      (mkshell (upd 1 (set_state FG) (jobs two_jobs)) 3 false
         [Print ("JOB [2] (6) 2" ++ nl)]) = Some s' /\
    do_bgfg ["fg"; "6"] [[]; []; [(6, WStopped 20)]; []] two_jobs = Ret tt s'.
Proof.
  destruct (fg_on_background_job "6" [[]; []; [(6, WStopped 20)]; []] two_jobs 1
              (proj1 two_jobs_ok) two_jobs_targets eq_refl)
    as (_ & _ & Hreaped & _).
  exact (Hreaped [[]; []] (WStopped 20) [[]] (Forall_cons _ eq_refl (Forall_cons _ eq_refl (Forall_nil _))) eq_refl).
Defined.

(** X17.  [bg] never waits and never looks at what the children do: it
    stops at [atoi] when the number does not fit an [int], or it returns;
    when it returns the counter is as before, and the job list is as before
    or differs in one slot, which was in state ST and is now in state BG. *)
Theorem bg_never_waits (args : list string) (env : events) (s : shell) :
  do_bgfg ("bg" :: args) env s = Fault \/
  exists s',
    do_bgfg ("bg" :: args) env s = Ret tt s' /\
    do_bgfg ("bg" :: args) [] s = Ret tt s' /\
    nextjid s' = nextjid s /\
    (jobs s' = jobs s \/
     exists i, state (slot i (jobs s)) = ST /\ jobs s' = upd i (set_state BG) (jobs s)).
Proof.
  assert (Hchange : forall i p (s0 : shell),
             exists s', change_state "bg" i p env s0 = Ret tt s' /\
                        change_state "bg" i p [] s0 = Ret tt s' /\
                        nextjid s' = nextjid s0 /\
                        (jobs s' = jobs s0 \/
                         (state (slot i (jobs s0)) = ST /\
                          jobs s' = upd i (set_state BG) (jobs s0)))).
  { intros i p s0. unfold change_state.
    destruct (Z.eqb_spec (state (slot i (jobs s0))) ST) as [Hst|Hst].
    - change (true && ("bg" =? "bg")%string) with true. cbv iota.
      eexists. repeat split. right. split; [exact Hst | reflexivity].
    - change (false && ("bg" =? "bg")%string) with false.
      change (false && ("bg" =? "fg")%string) with false.
      change ((state (slot i (jobs s0)) =? BG) && ("bg" =? "fg")%string)
        with ((state (slot i (jobs s0)) =? BG) && false).
      rewrite andb_false_r. cbv iota. exists s0. repeat split. now left. }
  unfold do_bgfg.
  change (("bg" =? "fg")%string || ("bg" =? "bg")%string) with true. cbv iota.
  destruct args as [|arg rest].
  - right. eexists. repeat split. now left.
  - destruct (atoi _) as [result|]; [|left; reflexivity]. right.
    destruct (negb _).
    + eexists. repeat split. now left.
    + destruct ((if first_char_is "%" arg then 1 else 0) =? 0).
      * destruct (getjobpid (jobs s) result) as [i|].
        -- destruct (Hchange i result
                       (printf ("JOB [" ++ string_of_Z (pid2jid (jobs s) result)
                                  ++ "] (" ++ string_of_Z result ++ ") "
                                  ++ string_of_Z (state (slot i (jobs s))) ++ nl) s))
             as (s' & E1 & E2 & Hn & Hj).
           exists s'. repeat split; try assumption.
           destruct Hj as [Hj|[Hst Hj]]; [left; exact Hj | right; exists i; split; assumption].
        -- eexists. repeat split. now left.
      * destruct (getjobjid (jobs s) result) as [i|].
        -- destruct (Hchange i (pid (slot i (jobs s))) s) as (s' & E1 & E2 & Hn & Hj).
           exists s'. repeat split; try assumption.
           destruct Hj as [Hj|[Hst Hj]]; [left; exact Hj | right; exists i; split; assumption].
        -- eexists. repeat split. now left.
Qed.

(** ** Which commands are built in *)

(** X18.  [builtin_cmd] returns only 0 or 1.  It returns 0 exactly for a
    command that is not "jobs", "fg" or "bg" and is not "quit" typed alone,
    and then it has changed nothing and printed nothing. *)
Theorem builtin_cmd_zero_iff_external
    (arg0 : string) (args : list string) (env : events) (s : shell) :
  (forall r s', builtin_cmd (arg0 :: args) env s = Ret r s' -> r = 0 \/ r = 1) /\
  ((exists s', builtin_cmd (arg0 :: args) env s = Ret 0 s') <->
   (arg0 <> "jobs" /\ arg0 <> "fg" /\ arg0 <> "bg" /\ (arg0 = "quit" -> args <> []))) /\
  (forall s', builtin_cmd (arg0 :: args) env s = Ret 0 s' -> s' = s).
Proof.
  assert (Hbind : forall r s',
             (do_bgfg (arg0 :: args) env s >>= fun _ s1 => Ret 1 s1) = Ret r s' -> r = 1).
  { intros r s'. destruct (do_bgfg (arg0 :: args) env s); cbn [bind]; congruence. }
  unfold builtin_cmd.
  destruct (String.eqb_spec arg0 "quit") as [Hq|Hq].
  - subst arg0. destruct args as [|a rest]; cbn [andb].
    + destruct (scan _ (jobs s)); (split; [|split]).
      * intros r s' [= <- _]. now right.
      * split; [intros (s' & H); discriminate | intros (_ & _ & _ & H); now contradiction (H eq_refl)].
      * discriminate.
      * discriminate.
      * split; [intros (s' & H); discriminate | intros (_ & _ & _ & H); now contradiction (H eq_refl)].
      * discriminate.
    + change ("quit" =? "jobs")%string with false.
      change (("quit" =? "fg")%string || ("quit" =? "bg")%string) with false. cbv iota.
      split; [|split].
      * intros r s' [= <- _]. now left.
      * split; [intros _; repeat split; discriminate | intros _; now exists s].
      * now intros s' [= <-].
  - cbn [andb].
    destruct (String.eqb_spec arg0 "jobs") as [Hj|Hj].
    + split; [|split].
      * intros r s' [= <- _]. now right.
      * split; [intros (s' & H); discriminate | intros (H & _); contradiction].
      * discriminate.
    + destruct (String.eqb_spec arg0 "fg") as [Hf|Hf]; cbn [orb].
      * split; [|split].
        -- intros r s' H. right. now apply Hbind in H.
        -- split; [intros (s' & H); apply Hbind in H; discriminate
                  | intros (_ & H & _); contradiction].
        -- intros s' H. apply Hbind in H. discriminate.
      * destruct (String.eqb_spec arg0 "bg") as [Hb|Hb].
        -- split; [|split].
           ++ intros r s' H. right. now apply Hbind in H.
           ++ split; [intros (s' & H); apply Hbind in H; discriminate
                     | intros (_ & _ & H & _); contradiction].
           ++ intros s' H. apply Hbind in H. discriminate.
        -- split; [|split].
           ++ intros r s' [= <- _]. now left.
           ++ split; [intros _; repeat split; try assumption; intros; contradiction
                     | intros _; now exists s].
           ++ now intros s' [= <-].
Qed.

(** ** The built-in jobs *)

Lemma listjobs_loop_output (js : list job_t) (i : Z) (s : shell) :
  exists out,
    listjobs_loop i js s = mkshell (jobs s) (nextjid s) (verbose s) (trace s ++ out) /\
    List.length out = (3 * job_count js)%nat /\
    Forall is_print out /\
    forall j, In j js -> pid j <> 0 ->
      In (Print ("[" ++ string_of_Z (jid j) ++ "] (" ++ string_of_Z (pid j) ++ ") ")) out /\
      In (Print (cmdline j)) out.
Proof.
  revert i s. induction js as [|j rest IH]; intros i s.
  - exists []. cbn [listjobs_loop]. rewrite app_nil_r.
    split; [destruct s; reflexivity|]. split; [reflexivity|].
    split; [constructor | intros j []].
  - cbn [listjobs_loop]. unfold job_count. cbn [filter].
    destruct (Z.eqb_spec (pid j) 0) as [Hz|Hz]; cbn [negb].
    + destruct (IH (i + 1) s) as (out & E & Hlen & Hpr & Hin).
      exists out. split; [exact E|]. split; [exact Hlen|]. split; [exact Hpr|].
      intros j' [<-|Hj'] Hne; [contradiction | now apply Hin].
    + set (label :=
             if state j =? BG then "Running "
             else if state j =? FG then "Foreground "
             else if state j =? ST then "Stopped "
             else "listjobs: Internal error: job[" ++ string_of_Z i
                    ++ "].state=" ++ string_of_Z (state j) ++ " ").
      set (head := "[" ++ string_of_Z (jid j) ++ "] (" ++ string_of_Z (pid j) ++ ") ").
      assert (Es : (let s1 := printf head s in
                    let s2 :=
                      if state j =? BG then printf "Running " s1
                      else if state j =? FG then printf "Foreground " s1
                      else if state j =? ST then printf "Stopped " s1
                      else printf ("listjobs: Internal error: job[" ++ string_of_Z i
                                     ++ "].state=" ++ string_of_Z (state j) ++ " ") s1 in
                    printf (cmdline j) s2)
                   = mkshell (jobs s) (nextjid s) (verbose s)
                       (trace s ++ [Print head; Print label; Print (cmdline j)])).
      { cbv zeta. subst label.
        destruct (state j =? BG); [|destruct (state j =? FG); [|destruct (state j =? ST)]];
          unfold printf, emit; cbn [jobs nextjid verbose trace];
          rewrite <- !app_assoc; reflexivity. }
      cbv zeta in Es. fold head. rewrite Es.
      destruct (IH (i + 1) (mkshell (jobs s) (nextjid s) (verbose s)
                              (trace s ++ [Print head; Print label; Print (cmdline j)])))
        as (out & E & Hlen & Hpr & Hin).
      exists ([Print head; Print label; Print (cmdline j)] ++ out)%list.
      cbn [jobs nextjid verbose trace] in E. rewrite E, <- app_assoc.
      split; [reflexivity|]. split.
      * rewrite length_app. cbn [List.length]. fold (job_count rest) in *. lia.
      * split.
        -- repeat constructor; try (eexists; reflexivity). exact Hpr.
        -- intros j' [<-|Hj'] Hne.
           ++ split; [now left | right; right; now left].
           ++ destruct (Hin j' Hj' Hne) as [H1 H2].
              split; apply in_or_app; right; assumption.
Qed.

(** X19.  The built-in jobs returns 1 and changes neither the job list nor
    the counter.  What it prints is three pieces of text for every slot in
    use and nothing for a free slot; among them are, for every job, its
    "[jid] (pid) " and its command line. *)
Theorem jobs_builtin_lists (args : list string) (env : events) (s : shell) :
  builtin_cmd ("jobs" :: args) env s = Ret 1 (listjobs s) /\
  jobs (listjobs s) = jobs s /\
  nextjid (listjobs s) = nextjid s /\
  exists out,
    trace (listjobs s) = (trace s ++ out)%list /\
    List.length out = (3 * job_count (jobs s))%nat /\
    Forall is_print out /\
    forall j, In j (jobs s) -> pid j <> 0 ->
      In (Print ("[" ++ string_of_Z (jid j) ++ "] (" ++ string_of_Z (pid j) ++ ") ")) out /\
      In (Print (cmdline j)) out.
Proof.
  split; [reflexivity|]. unfold listjobs.
  destruct (listjobs_loop_output (jobs s) 0 s) as (out & E & Hlen & Hpr & Hin).
  rewrite E. cbn [jobs nextjid trace]. split; [reflexivity|]. split; [reflexivity|].
  exists out. split; [reflexivity | split; [exact Hlen | split; [exact Hpr | exact Hin]]].
Qed.

(** ** parseline *)

Lemma string_app_assoc (a b c : string) : (a ++ b) ++ c = a ++ b ++ c.
Proof. induction a as [|x a IH]; simpl; [reflexivity | now rewrite IH]. Qed.

Lemma string_app_length (a b : string) :
  String.length (a ++ b) = (String.length a + String.length b)%nat.
Proof. induction a as [|x a IH]; simpl; [reflexivity | now rewrite IH]. Qed.

Lemma replace_last_app (line : string) (c : ascii) :
  replace_last (line ++ String c "") = Some (line ++ " ").
Proof.
  induction line as [|a rest IH]; [reflexivity|].
  change (String a rest ++ String c "") with (String a (rest ++ String c "")).
  cbn [replace_last]. rewrite IH.
  destruct rest; reflexivity.
Qed.

Lemma strchr_word (w tail : string) :
  no_space w = true -> strchr " " (w ++ String " " tail) = Some (w, tail).
Proof.
  induction w as [|a w IH]; intros Hw; [reflexivity|].
  cbn [no_space] in Hw. apply andb_true_iff in Hw. destruct Hw as [Ha Hw].
  unfold is_space in Ha.
  change (String a w ++ String " " tail) with (String a (w ++ String " " tail)).
  cbn [strchr]. destruct (Ascii.eqb a " "); [discriminate|]. now rewrite IH.
Qed.

Lemma plain_word_parts (w : string) :
  plain_word w = true ->
  exists a rest, w = String a rest /\ is_space a = false /\
                 Ascii.eqb a "'" = false /\ no_space w = true.
Proof.
  unfold plain_word. intros H. apply andb_true_iff in H. destruct H as [H Hq].
  apply andb_true_iff in H. destruct H as [Hne Hsp].
  destruct w as [|a rest]; [discriminate|]. exists a, rest.
  cbn [first_char_is] in Hq. cbn [no_space] in Hsp.
  pose proof Hsp as Hsp'. apply andb_true_iff in Hsp'. destruct Hsp' as [Ha _].
  repeat split; [now destruct (is_space a) | now destruct (Ascii.eqb a "'") | exact Hsp].
Qed.

Lemma find_delim_word (w tail : string) :
  plain_word w = true -> find_delim (w ++ " " ++ tail) = Some (w, tail).
Proof.
  intros Hw. destruct (plain_word_parts w Hw) as (a & rest & -> & _ & Hq & Hsp).
  unfold find_delim.
  change (first_char_is "'" (String a rest ++ " " ++ tail)) with (Ascii.eqb a "'").
  rewrite Hq. now apply strchr_word.
Qed.

Lemma skip_spaced (ws : list string) :
  Forall (fun w => plain_word w = true) ws -> skip is_space (spaced ws) = spaced ws.
Proof.
  intros H. destruct H as [|w rest Hw _]; [reflexivity|].
  destruct (plain_word_parts w Hw) as (a & r & -> & Ha & _).
  cbn [spaced]. change (String a r ++ " " ++ spaced rest)
    with (String a (r ++ " " ++ spaced rest)).
  cbn [skip]. now rewrite Ha.
Qed.

Lemma build_argv_spaced (ws : list string) (fuel : nat) :
  Forall (fun w => plain_word w = true) ws ->
  (List.length ws <= fuel)%nat ->
  build_argv fuel (spaced ws) = ws.
Proof.
  intros Hws. revert fuel. induction Hws as [|w rest Hw Hrest IH]; intros fuel Hf.
  - destruct fuel; reflexivity.
  - destruct fuel as [|fuel]; [cbn in Hf; lia|].
    cbn [spaced build_argv]. rewrite (find_delim_word w (spaced rest) Hw).
    rewrite (skip_spaced rest Hrest), IH; [reflexivity | cbn in Hf; lia].
Qed.

Lemma concat_spaced (ws : list string) :
  ws <> [] -> String.concat " " ws ++ " " = spaced ws.
Proof.
  induction ws as [|w rest IH]; [congruence|]. intros _.
  destruct rest as [|w2 rest].
  - reflexivity.
  - change (String.concat " " (w :: w2 :: rest))
      with (w ++ " " ++ String.concat " " (w2 :: rest)).
    rewrite !string_app_assoc, IH by discriminate. reflexivity.
Qed.

Lemma spaced_length (ws : list string) :
  (List.length ws <= String.length (spaced ws))%nat.
Proof.
  induction ws as [|w rest IH]; [cbn; lia|].
  cbn [spaced List.length]. rewrite !string_app_length. cbn [String.length]. lia.
Qed.

Lemma parseline_spaced (ws : list string) :
  ws <> [] ->
  Forall (fun w => plain_word w = true) ws ->
  (List.length ws < 128)%nat ->
  parseline (String.concat " " ws ++ nl)
  = Some (if first_char_is "&" (last ws "") then (removelast ws, 1) else (ws, 0)).
Proof.
  intros Hne Hws Hlen. unfold parseline, nl.
  rewrite replace_last_app, (concat_spaced ws Hne), (skip_spaced ws Hws).
  rewrite (build_argv_spaced ws _ Hws)
    by (pose proof (spaced_length ws); lia).
  destruct (Z.geb_spec (Z.of_nat (List.length ws)) MAXARGS) as [Hbig|_];
    [unfold MAXARGS in Hbig; lia|].
  destruct ws as [|w rest]; [congruence|].
  destruct (first_char_is "&" (last (w :: rest) "")); reflexivity.
Qed.

(** X20.  Typing plain words (not empty, without space, not opening with a
    single quote) separated by single spaces gives back those words: with a
    last word that does not start with '&' the vector is the words and the
    job is a foreground one; with a further word "&" the vector is the
    words, without the "&", and the job is a background one. *)
Theorem parseline_words_round_trip (ws : list string) :
  ws <> [] ->
  Forall (fun w => plain_word w = true) ws ->
  (List.length ws < 127)%nat ->
  first_char_is "&" (last ws "") = false ->
  parseline (String.concat " " ws ++ nl) = Some (ws, 0) /\
  parseline (String.concat " " (ws ++ ["&"]) ++ nl) = Some (ws, 1).
Proof.
  intros Hne Hws Hlen Hamp. split.
  - rewrite (parseline_spaced ws Hne Hws) by lia. now rewrite Hamp.
  - rewrite (parseline_spaced (ws ++ ["&"])).
    + rewrite last_last, removelast_last. reflexivity.
    + destruct ws; discriminate.
    + apply Forall_app. split; [exact Hws | repeat constructor].
    + rewrite length_app. cbn. lia.
Qed.

Lemma parseline_words_round_trip_witness :
  parseline ("/bin/sleep 10" ++ nl) = Some (["/bin/sleep"; "10"], 0) /\
  parseline ("/bin/sleep 10 &" ++ nl) = Some (["/bin/sleep"; "10"], 1).
Proof.
  apply (parseline_words_round_trip ["/bin/sleep"; "10"]).
  - discriminate.
  - repeat constructor.
  - cbn. lia.
  - reflexivity.
Defined.

(** ** Lines without quotes *)

Lemma strchr_space (buf tok after : string) :
  strchr " " buf = Some (tok, after) ->
  no_space tok = true /\
  (first_char_is " " buf = false -> tok <> "") /\
  (no_quote buf = true -> no_quote after = true).
Proof.
  revert tok. induction buf as [|a rest IH]; intros tok; cbn [strchr]; [discriminate|].
  cbn [first_char_is no_quote].
  destruct (Ascii.eqb a " ") eqn:Ha.
  - intros [= <- <-]. repeat split; [discriminate|].
    intros H. apply andb_true_iff in H. tauto.
  - destruct (strchr " " rest) as [[t r]|]; [|discriminate].
    intros [= <- <-]. destruct (IH t eq_refl) as (Ht & _ & Hq).
    repeat split.
    + cbn [no_space]. unfold is_space. now rewrite Ha.
    + discriminate.
    + intros H. apply andb_true_iff in H. now apply Hq.
Qed.

Lemma skip_space_head (s : string) : first_char_is " " (skip is_space s) = false.
Proof.
  induction s as [|a rest IH]; [reflexivity|]. cbn [skip].
  destruct (is_space a) eqn:Ha; [exact IH|]. exact Ha.
Qed.

Lemma skip_no_quote (P : ascii -> bool) (s : string) :
  no_quote s = true -> no_quote (skip P s) = true.
Proof.
  induction s as [|a rest IH]; [reflexivity|]. cbn [skip]. intros H.
  destruct (P a); [|exact H]. cbn [no_quote] in H. apply andb_true_iff in H. now apply IH.
Qed.

Lemma replace_last_no_quote (s buf : string) :
  no_quote s = true -> replace_last s = Some buf -> no_quote buf = true.
Proof.
  revert buf. induction s as [|a rest IH]; intros buf Hq; [discriminate|].
  cbn [no_quote] in Hq. apply andb_true_iff in Hq. destruct Hq as [Ha Hrest].
  destruct rest as [|b rest'].
  - intros [= <-]. reflexivity.
  - change (replace_last (String a (String b rest')))
      with (option_map (String a) (replace_last (String b rest'))).
    destruct (replace_last (String b rest')) as [t|] eqn:Et; [|discriminate].
    intros [= <-]. cbn [no_quote]. rewrite Ha. now apply IH.
Qed.

Lemma build_argv_words (fuel : nat) (buf : string) :
  no_quote buf = true -> first_char_is " " buf = false ->
  Forall good_word (build_argv fuel buf).
Proof.
  revert buf. induction fuel as [|fuel IH]; intros buf Hq Hs; [constructor|].
  cbn [build_argv]. unfold find_delim.
  assert (Hfq : first_char_is "'" buf = false).
  { destruct buf as [|a r]; [reflexivity|]. cbn [no_quote] in Hq. cbn [first_char_is].
    now destruct (Ascii.eqb a "'"). }
  rewrite Hfq. destruct (strchr " " buf) as [[tok after]|] eqn:Hd; [|constructor].
  destruct (strchr_space _ _ _ Hd) as (Htok & Hne & Hafter).
  constructor; [split; auto|].
  apply IH; [apply skip_no_quote; auto | apply skip_space_head].
Qed.

Lemma Forall_removelast (A : Type) (P : A -> Prop) (l : list A) :
  Forall P l -> Forall P (removelast l).
Proof.
  induction 1 as [|x l Hx Hl IH]; [constructor|].
  cbn [removelast]. destruct l; [constructor | constructor; assumption].
Qed.

(** X21.  On a line without a single quote every argument [parseline]
    returns is a word: not empty and without a space.  The flag is 0 or 1,
    it is 1 for a blank line, and the vector holds fewer than 128
    arguments. *)
Theorem parseline_gives_words (cmdline : string) (argv : list string) (bg : Z) :
  no_quote cmdline = true ->
  parseline cmdline = Some (argv, bg) ->
  Forall good_word argv /\
  (bg = 0 \/ bg = 1) /\
  (argv = [] -> bg = 1) /\
  (List.length argv < 128)%nat.
Proof.
  intros Hq. unfold parseline.
  destruct (replace_last cmdline) as [buf|] eqn:Hr; [|discriminate].
  pose proof (replace_last_no_quote _ _ Hq Hr) as Hbq.
  set (b := skip is_space buf).
  pose proof (build_argv_words (S (String.length b)) b
                (skip_no_quote _ _ Hbq) (skip_space_head buf)) as Hw.
  destruct (Z.geb_spec (Z.of_nat (List.length (build_argv (S (String.length b)) b))) MAXARGS)
    as [|Hsmall]; [discriminate|].
  unfold MAXARGS in Hsmall.
  destruct (build_argv (S (String.length b)) b) as [|w rest] eqn:Ea.
  - intros [= <- <-]. repeat split; auto. cbn. lia.
  - destruct (first_char_is "&" (last (w :: rest) "")).
    + pose proof (Forall_removelast _ _ _ Hw) as Hrl.
      assert (Hl : (List.length (removelast (w :: rest)) < 128)%nat)
        by (rewrite removelast_firstn_len, length_firstn; cbn [List.length] in *; lia).
      intros [= <- <-]. repeat split; auto.
    + intros [= <- <-]. repeat split; auto; [discriminate | lia].
Qed.

Lemma parseline_gives_words_witness :
  Forall good_word ["ls"; "-l"].
Proof.
  exact (proj1 (parseline_gives_words ("  ls   -l  &" ++ nl) ["ls"; "-l"] 1
                  eq_refl eq_refl)).
Defined.

(** ** eval *)

(** X22.  A line that holds nothing but spaces before its newline gives an
    empty argument vector (with the flag 1), and [eval] returns on it
    without forking, printing or changing anything. *)
Theorem eval_blank_line (line : string) (w : os) (s : shell) :
  skip is_space line = "" ->
  parseline (line ++ nl) = Some ([], 1) /\
  eval (line ++ nl) w s = Ret tt s.
Proof.
  intros Hblank.
  assert (Hskip : skip is_space (line ++ " ") = "").
  { clear w s. induction line as [|a rest IH]; [reflexivity|].
    cbn [skip] in Hblank. change (String a rest ++ " ") with (String a (rest ++ " ")).
    cbn [skip]. destruct (is_space a); [now apply IH | discriminate]. }
  assert (Hp : parseline (line ++ nl) = Some ([], 1)).
  { unfold parseline, nl. rewrite replace_last_app, Hskip. reflexivity. }
  split; [exact Hp|]. unfold eval. now rewrite Hp.
Qed.

Lemma eval_blank_line_witness :
  eval ("   " ++ nl) (mkos 100 true "" []) two_jobs = Ret tt two_jobs.
Proof.
  exact (proj2 (eval_blank_line "   " (mkos 100 true "" []) two_jobs eq_refl)).
Defined.

(** What [eval] does with a command that is not built in. *)
Lemma eval_external (cmdline arg0 : string) (args : list string) (bg : Z)
    (w : os) (s : shell) :
  parseline cmdline = Some (arg0 :: args, bg) ->
  builtin_cmd (arg0 :: args) (reaped_during_wait w) s = Ret 0 s ->
  eval cmdline w s =
    let p := fork_ret w in
    let s1 := emit (Fork p) (emit SigBlock s) in
    if p <? 0 then unix_error "forking error" w s1
    else if p =? 0 then
      let child := emit (Execvp arg0 (arg0 :: args)) (emit Setpgrp s1) in
      if exec_ok w then Exec child
      else Exit 1 (printf (arg0 ++ ": Command not found" ++ nl) child)
    else
      let s2 := emit SigUnblock
                  (snd (addjob s1 p (if bg =? 0 then FG else BG) cmdline)) in
      if bg =? 0 then waitfg p (reaped_during_wait w) s2
      else Ret tt (printf ("[" ++ string_of_Z (pid2jid (jobs s2) p) ++ "] ("
                             ++ string_of_Z p ++ ") " ++ cmdline) s2).
Proof.
  intros Hparse Hb. unfold eval. rewrite Hparse, Hb. cbn [bind].
  change (negb (0 =? 0)) with false. cbv iota zeta.
  destruct (fork_ret w <? 0); [reflexivity|].
  destruct (fork_ret w =? 0); [reflexivity|].
  destruct (bg =? 0); reflexivity.
Qed.

(** [addjob] on a list with a free slot, in full. *)
Lemma addjob_success (s : shell) (p st : Z) (cmd : string) (i : nat) :
  1 <= p -> scan (fun j => pid j =? 0) (jobs s) = Some i ->
  snd (addjob s p st cmd)
  = mkshell (upd i (fun _ => mkjob p (nextjid s) st cmd) (jobs s))
      (if nextjid s + 1 >? MAXJOBS then 1 else nextjid s + 1) (verbose s)
      (trace s ++ (if verbose s
                   then [Print ("Added job [" ++ string_of_Z (nextjid s) ++ "] "
                                  ++ string_of_Z p ++ " " ++ cmd ++ nl)]
                   else [])).
Proof.
  intros Hp Hs. unfold addjob. destruct (Z.ltb_spec p 1); [lia|]. rewrite Hs.
  cbn [snd]. unfold printf, emit, set_nextjid, set_jobs.
  cbn [jobs nextjid verbose trace].
  destruct (verbose s); [reflexivity|]. rewrite app_nil_r. reflexivity.
Qed.

(** [eval_with_pending] without a pending child is [eval]. *)
Lemma eval_with_pending_nil (cmdline : string) (w : os) (s : shell) :
  eval_with_pending [] cmdline w s = eval cmdline w s.
Proof.
  unfold eval_with_pending, eval.
  destruct (parseline cmdline) as [[argv bg]|]; [|reflexivity].
  destruct argv as [|arg0 args]; [reflexivity|].
  destruct (builtin_cmd (arg0 :: args) (reaped_during_wait w) s); try reflexivity.
Qed.

(** The parent's side of [eval_with_pending] when a slot is free: the job is
    in slot [i] when the handler runs at the unblocking. *)
Lemma eval_with_pending_registered (pending : list (Z * wstatus))
    (cmdline arg0 : string) (args : list string) (bg : Z) (w : os) (s : shell)
    (i : nat) :
  parseline cmdline = Some (arg0 :: args, bg) ->
  builtin_cmd (arg0 :: args) (reaped_during_wait w) s = Ret 0 s ->
  0 < fork_ret w ->
  scan (fun j => pid j =? 0) (jobs s) = Some i ->
  eval_with_pending pending cmdline w s =
    match sigchld_handler pending
            (mkshell
               (upd i (fun _ => mkjob (fork_ret w) (nextjid s)
                                  (if bg =? 0 then FG else BG) cmdline) (jobs s))
               (if nextjid s + 1 >? MAXJOBS then 1 else nextjid s + 1)
               (verbose s)
               (trace s ++ [SigBlock; Fork (fork_ret w)]
                  ++ (if verbose s
                      then [Print ("Added job [" ++ string_of_Z (nextjid s) ++ "] "
                                     ++ string_of_Z (fork_ret w) ++ " " ++ cmdline ++ nl)]
                      else [])
                  ++ [SigUnblock])) with
    | None => Fault
    | Some s3 =>
        if bg =? 0 then waitfg (fork_ret w) (reaped_during_wait w) s3
        else Ret tt (printf ("[" ++ string_of_Z (pid2jid (jobs s3) (fork_ret w)) ++ "] ("
                               ++ string_of_Z (fork_ret w) ++ ") " ++ cmdline) s3)
    end.
Proof.
  intros Hparse Hb Hp Hs. unfold eval_with_pending. rewrite Hparse, Hb. cbn [bind].
  change (negb (0 =? 0)) with false. cbv iota zeta.
  destruct (Z.ltb_spec (fork_ret w) 0); [lia|].
  destruct (Z.eqb_spec (fork_ret w) 0); [lia|].
  assert (E : forall st,
             emit SigUnblock
               (snd (addjob (emit (Fork (fork_ret w)) (emit SigBlock s))
                       (fork_ret w) st cmdline))
             = mkshell
                 (upd i (fun _ => mkjob (fork_ret w) (nextjid s) st cmdline) (jobs s))
                 (if nextjid s + 1 >? MAXJOBS then 1 else nextjid s + 1)
                 (verbose s)
                 (trace s ++ [SigBlock; Fork (fork_ret w)]
                    ++ (if verbose s
                        then [Print ("Added job [" ++ string_of_Z (nextjid s) ++ "] "
                                       ++ string_of_Z (fork_ret w) ++ " " ++ cmdline ++ nl)]
                        else [])
                    ++ [SigUnblock])).
  { intros st. rewrite (addjob_success _ _ st cmdline i) by (try lia; exact Hs).
    unfold emit. cbn [jobs nextjid verbose trace]. rewrite <- !app_assoc. reflexivity. }
  destruct (bg =? 0); rewrite E; reflexivity.
Qed.

(** X23.  A command that is not built in, typed with "&", in the parent
    after a successful [fork], the child's pid being new and a slot free.
    The job is registered in the first free slot in state BG with the whole
    line as command line, between the blocking and the unblocking of
    SIGCHLD.  What the shell then announces depends on the child: when no
    change of its status is pending at the unblocking, it prints "[jid]
    (pid) line" with the jid just assigned and returns without waiting, the
    job in its slot; when the child has exited by then, the handler has
    emptied the slot and set the counter to one above the largest jid left
    before [pid2jid] is called, and the line printed is "[0] (pid) line";
    when the child has stopped by then, the handler's line "Job [jid] (pid)
    stopped by signal 20" comes first and the job is left in state ST. *)
Theorem eval_background_job (cmdline arg0 : string) (args : list string)
    (w : os) (s : shell) (i : nat) :
  parseline cmdline = Some (arg0 :: args, 1) ->
  builtin_cmd (arg0 :: args) (reaped_during_wait w) s = Ret 0 s ->
  0 < fork_ret w ->
  getjobpid (jobs s) (fork_ret w) = None ->
  scan (fun j => pid j =? 0) (jobs s) = Some i ->
  let p := fork_ret w in
  let counter := if nextjid s + 1 >? MAXJOBS then 1 else nextjid s + 1 in
  let out :=
    ([SigBlock; Fork p]
       ++ (if verbose s
           then [Print ("Added job [" ++ string_of_Z (nextjid s) ++ "] "
                          ++ string_of_Z p ++ " " ++ cmdline ++ nl)]
           else [])
       ++ [SigUnblock])%list in
  let announce n := Print ("[" ++ string_of_Z n ++ "] (" ++ string_of_Z p ++ ") "
                             ++ cmdline) in
  eval_with_pending [] cmdline w s =
    Ret tt (mkshell (upd i (fun _ => mkjob p (nextjid s) BG cmdline) (jobs s))
              counter (verbose s)
              (trace s ++ out ++ [announce (nextjid s)])) /\
  (forall c,
     eval_with_pending [(p, WExited c)] cmdline w s =
       Ret tt (mkshell (upd i (fun _ => cleared) (jobs s))
                 (maxjid (upd i (fun _ => cleared) (jobs s)) + 1) (verbose s)
                 (trace s ++ out ++ [announce 0]))) /\
  (forall n,
     eval_with_pending [(p, WStopped n)] cmdline w s =
       Ret tt (mkshell (upd i (fun _ => mkjob p (nextjid s) ST cmdline) (jobs s))
                 counter (verbose s)
                 (trace s ++ out
                    ++ [Print ("Job [" ++ string_of_Z (nextjid s) ++ "] ("
                                 ++ string_of_Z p ++ ") stopped by signal 20" ++ nl);
                        announce (nextjid s)]))).
Proof.
  intros Hparse Hb Hp Hnew Hs p counter out announce.
  pose proof (scan_Some _ _ _ Hs) as (Hi & Hz & _). apply Z.eqb_eq in Hz.
  assert (Hreg := fun pending =>
            eval_with_pending_registered pending _ _ _ _ _ _ _ Hparse Hb Hp Hs).
  change (1 =? 0) with false in Hreg. cbv iota in Hreg.
  fold p counter in Hreg.
  set (s2 := mkshell (upd i (fun _ => mkjob p (nextjid s) BG cmdline) (jobs s))
               counter (verbose s) (trace s ++ out)).
  assert (Hreg' : forall pending,
             eval_with_pending pending cmdline w s =
             match sigchld_handler pending s2 with
             | None => Fault
             | Some s3 =>
                 Ret tt (printf ("[" ++ string_of_Z (pid2jid (jobs s3) p) ++ "] ("
                                   ++ string_of_Z p ++ ") " ++ cmdline) s3)
             end) by exact Hreg.
  clear Hreg.
  assert (Hg : getjobpid (jobs s2) p = Some i)
    by (subst s2; cbn [jobs]; apply getjobpid_upd_new; [lia | assumption | assumption]).
  assert (Hslot : slot i (jobs s2) = mkjob p (nextjid s) BG cmdline)
    by (subst s2; cbn [jobs]; now rewrite slot_upd_same).
  assert (Hlen : (i < List.length (jobs s2))%nat)
    by (subst s2; cbn [jobs]; now rewrite upd_length).
  split; [|split].
  - rewrite Hreg'. cbn [sigchld_handler]. rewrite pid2jid_getjobpid, Hg, Hslot.
    cbn [jid]. subst s2 announce. unfold printf, emit. cbn [jobs nextjid verbose trace].
    rewrite <- !app_assoc. reflexivity.
  - intros c. rewrite Hreg', (sigchld_exited s2 p c i [] Hg). cbn [sigchld_handler].
    assert (Hback : upd i clearjob (jobs s2) = upd i (fun _ => cleared) (jobs s))
      by (subst s2; cbn [jobs]; rewrite upd_upd; reflexivity).
    rewrite Hback. cbn [jobs].
    assert (Hgone : getjobpid (upd i (fun _ => cleared) (jobs s)) p = None).
    { unfold getjobpid in Hnew |- *. fold p in Hnew.
      destruct (p <? 1); [reflexivity|].
      rewrite scan_upd_keeps_test; [exact Hnew|]. now rewrite Hz. }
    rewrite pid2jid_getjobpid, Hgone.
    subst s2 announce. unfold printf, emit. cbn [jobs nextjid verbose trace].
    rewrite <- !app_assoc. reflexivity.
  - intros n. rewrite Hreg', (sigchld_stopped s2 p n i [] Hg). cbn [sigchld_handler].
    cbn [jobs].
    rewrite !pid2jid_getjobpid, getjobpid_set_state, Hg.
    rewrite slot_upd_same by exact Hlen. rewrite Hslot. cbn [set_state jid].
    assert (Hst : upd i (set_state ST) (jobs s2)
                  = upd i (fun _ => mkjob p (nextjid s) ST cmdline) (jobs s))
      by (subst s2; cbn [jobs]; rewrite upd_upd; reflexivity).
    rewrite Hst.
    subst s2 announce. unfold printf, emit. cbn [jobs nextjid verbose trace].
    rewrite <- !app_assoc. reflexivity.
Qed.

Lemma eval_background_job_witness :
  eval_with_pending [] ("/bin/sleep 10 &" ++ nl) (mkos 100 true "" []) two_jobs =
    Ret tt
      (mkshell
         (upd 2 (fun _ => mkjob 100 3 BG ("/bin/sleep 10 &" ++ nl)) (jobs two_jobs))
         4 false
         [SigBlock; Fork 100; SigUnblock; Print ("[3] (100) /bin/sleep 10 &" ++ nl)]) /\
  eval_with_pending [(100, WExited 127)] ("nosuch &" ++ nl) (mkos 100 false "" [])
    two_jobs =
    Ret tt
      (mkshell (jobs two_jobs) 3 false
         [SigBlock; Fork 100; SigUnblock; Print ("[0] (100) nosuch &" ++ nl)]).
Proof.
  split.
  - exact (proj1 (eval_background_job ("/bin/sleep 10 &" ++ nl) "/bin/sleep" ["10"]
                    (mkos 100 true "" []) two_jobs 2
                    eq_refl eq_refl eq_refl eq_refl eq_refl)).
  - exact (proj1 (proj2 (eval_background_job ("nosuch &" ++ nl) "nosuch" []
                           (mkos 100 false "" []) two_jobs 2
                           eq_refl eq_refl eq_refl eq_refl eq_refl)) 127).
Defined.

(** X24.  The same command on a list without a free slot: the child has
    been forked but is registered nowhere.  The shell prints "Tried to
    create too many jobs" and leaves the list and the counter as they were.
    When no change of the child's status is pending at the unblocking, a
    background job is then announced with the jid 0, and for a foreground
    job [waitfg] finds no job and the shell returns at once.  When the child
    is the first to be reaped at the unblocking, the handler finds no job
    for its pid and goes through the NULL that [getjobpid] returned. *)
Theorem eval_full_table (cmdline arg0 : string) (args : list string) (bg : Z)
    (w : os) (s : shell) :
  parseline cmdline = Some (arg0 :: args, bg) ->
  builtin_cmd (arg0 :: args) (reaped_during_wait w) s = Ret 0 s ->
  0 < fork_ret w ->
  getjobpid (jobs s) (fork_ret w) = None ->
  (forall j, In j (jobs s) -> pid j <> 0) ->
  eval_with_pending [] cmdline w s =
    Ret tt
      (mkshell (jobs s) (nextjid s) (verbose s)
         (trace s ++ [SigBlock; Fork (fork_ret w);
                      Print ("Tried to create too many jobs" ++ nl); SigUnblock]
            ++ (if bg =? 0 then []
                else [Print ("[0] (" ++ string_of_Z (fork_ret w) ++ ") " ++ cmdline)]))) /\
  (forall stat rest,
     eval_with_pending ((fork_ret w, stat) :: rest) cmdline w s = Fault).
Proof.
  intros Hparse Hb Hp Hnew Hfull.
  assert (Hs : scan (fun j => pid j =? 0) (jobs s) = None).
  { apply scan_None. intros j Hj. apply Z.eqb_neq. now apply Hfull. }
  assert (Ea : forall st,
             snd (addjob (emit (Fork (fork_ret w)) (emit SigBlock s)) (fork_ret w) st cmdline)
             = printf ("Tried to create too many jobs" ++ nl)
                 (emit (Fork (fork_ret w)) (emit SigBlock s))).
  { intros st. unfold addjob. destruct (Z.ltb_spec (fork_ret w) 1); [lia|].
    cbn [jobs emit]. rewrite Hs. reflexivity. }
  assert (Hpre : forall pending,
             eval_with_pending pending cmdline w s =
             match sigchld_handler pending
                     (emit SigUnblock
                        (printf ("Tried to create too many jobs" ++ nl)
                           (emit (Fork (fork_ret w)) (emit SigBlock s)))) with
             | None => Fault
             | Some s3 =>
                 if bg =? 0 then waitfg (fork_ret w) (reaped_during_wait w) s3
                 else Ret tt (printf ("[" ++ string_of_Z (pid2jid (jobs s3) (fork_ret w))
                                        ++ "] (" ++ string_of_Z (fork_ret w) ++ ") "
                                        ++ cmdline) s3)
             end).
  { intros pending. unfold eval_with_pending. rewrite Hparse, Hb. cbn [bind].
    change (negb (0 =? 0)) with false. cbv iota zeta.
    destruct (Z.ltb_spec (fork_ret w) 0); [lia|].
    destruct (Z.eqb_spec (fork_ret w) 0); [lia|].
    destruct (bg =? 0); rewrite Ea; reflexivity. }
  split.
  - rewrite Hpre. cbn [sigchld_handler]. destruct (bg =? 0).
    + unfold waitfg. cbn [jobs emit printf]. rewrite Hnew.
      unfold printf, emit. cbn [jobs nextjid verbose trace].
      rewrite <- !app_assoc. reflexivity.
    + rewrite pid2jid_getjobpid. cbn [jobs emit printf]. rewrite Hnew.
      unfold printf, emit. cbn [jobs nextjid verbose trace].
      rewrite <- !app_assoc. reflexivity.
  - intros stat rest. rewrite Hpre.
    assert (Hh : sigchld_handler ((fork_ret w, stat) :: rest)
                   (emit SigUnblock
                      (printf ("Tried to create too many jobs" ++ nl)
                         (emit (Fork (fork_ret w)) (emit SigBlock s)))) = None).
    { cbn [sigchld_handler]. destruct (Z.gtb_spec (fork_ret w) 0); [|lia].
      destruct stat; rewrite ?jobs_printf; cbn [jobs emit printf]; rewrite Hnew;
        reflexivity. }
    now rewrite Hh.
Qed.

Lemma eval_full_table_witness :
  eval_with_pending [] ("/bin/ls" ++ nl) (mkos 100 true "" []) full_shell =
    Ret tt
      (mkshell (jobs full_shell) 1 false
         [SigBlock; Fork 100; Print ("Tried to create too many jobs" ++ nl); SigUnblock]) /\
  eval_with_pending [(100, WExited 0)] ("/bin/ls" ++ nl) (mkos 100 true "" [])
    full_shell = Fault.
Proof.
  split.
  - exact (proj1 (eval_full_table ("/bin/ls" ++ nl) "/bin/ls" [] 0 (mkos 100 true "" [])
                    full_shell eq_refl eq_refl eq_refl eq_refl full_shell_full)).
  - exact (proj2 (eval_full_table ("/bin/ls" ++ nl) "/bin/ls" [] 0 (mkos 100 true "" [])
                    full_shell eq_refl eq_refl eq_refl eq_refl full_shell_full)
             (WExited 0) []).
Defined.

(** X25.  A command that is not built in, typed without "&", in the parent
    after a successful [fork], on a reachable list with a free slot and a
    new pid.  The job is registered in state FG and the shell waits: it is
    still waiting as long as no child is reaped.  When the child is reaped
    as exited during the first sleep, the shell returns: every slot is as it
    was before the command, the counter is one above the largest jid
    present, and nothing was printed but what [addjob] prints when
    verbose. *)
Theorem eval_foreground_job (cmdline arg0 : string) (args : list string)
    (w : os) (s : shell) (i : nat) :
  reachable s ->
  parseline cmdline = Some (arg0 :: args, 0) ->
  builtin_cmd (arg0 :: args) (reaped_during_wait w) s = Ret 0 s ->
  0 < fork_ret w ->
  getjobpid (jobs s) (fork_ret w) = None ->
  scan (fun j => pid j =? 0) (jobs s) = Some i ->
  let out :=
    ([SigBlock; Fork (fork_ret w)]
       ++ (if verbose s
           then [Print ("Added job [" ++ string_of_Z (nextjid s) ++ "] "
                          ++ string_of_Z (fork_ret w) ++ " " ++ cmdline ++ nl)]
           else [])
       ++ [SigUnblock])%list in
  (Forall (fun reaped => reaped = []) (reaped_during_wait w) ->
   eval cmdline w s =
     Blocked (mkshell
                (upd i (fun _ => mkjob (fork_ret w) (nextjid s) FG cmdline) (jobs s))
                (if nextjid s + 1 >? MAXJOBS then 1 else nextjid s + 1)
                (verbose s) (trace s ++ out))) /\
  (forall c env', reaped_during_wait w = [(fork_ret w, WExited c)] :: env' ->
   eval cmdline w s =
     Ret tt (mkshell (jobs s) (maxjid (jobs s) + 1) (verbose s) (trace s ++ out))).
Proof.
  intros Hr Hparse Hb Hp Hnew Hs out.
  pose proof (scan_Some _ _ _ Hs) as (Hi & Hz & _). apply Z.eqb_eq in Hz.
  destruct (reachable_invariant s Hr) as (Hclear & _ & _).
  set (s2 := mkshell
               (upd i (fun _ => mkjob (fork_ret w) (nextjid s) FG cmdline) (jobs s))
               (if nextjid s + 1 >? MAXJOBS then 1 else nextjid s + 1)
               (verbose s) (trace s ++ out)).
  assert (Hg : getjobpid (jobs s2) (fork_ret w) = Some i)
    by (subst s2; cbn [jobs]; apply getjobpid_upd_new; [lia | assumption | assumption]).
  assert (Hfg : state (slot i (jobs s2)) = FG)
    by (subst s2; cbn [jobs]; rewrite slot_upd_same by exact Hi; reflexivity).
  assert (He : eval cmdline w s = waitfg_loop i (reaped_during_wait w) s2).
  { rewrite (eval_external _ _ _ _ _ _ Hparse Hb). cbv zeta.
    destruct (Z.ltb_spec (fork_ret w) 0); [lia|].
    destruct (Z.eqb_spec (fork_ret w) 0); [lia|].
    change (0 =? 0) with true. cbv iota.
    rewrite (addjob_success _ _ FG cmdline i) by (try lia; exact Hs).
    assert (E2 : emit SigUnblock
                   (mkshell
                      (upd i (fun _ => mkjob (fork_ret w)
                                         (nextjid (emit (Fork (fork_ret w)) (emit SigBlock s)))
                                         FG cmdline)
                         (jobs (emit (Fork (fork_ret w)) (emit SigBlock s))))
                      (if nextjid (emit (Fork (fork_ret w)) (emit SigBlock s)) + 1 >? MAXJOBS
                       then 1
                       else nextjid (emit (Fork (fork_ret w)) (emit SigBlock s)) + 1)
                      (verbose (emit (Fork (fork_ret w)) (emit SigBlock s)))
                      (trace (emit (Fork (fork_ret w)) (emit SigBlock s)) ++
                       (if verbose (emit (Fork (fork_ret w)) (emit SigBlock s))
                        then [Print ("Added job ["
                                       ++ string_of_Z
                                            (nextjid (emit (Fork (fork_ret w)) (emit SigBlock s)))
                                       ++ "] " ++ string_of_Z (fork_ret w) ++ " "
                                       ++ cmdline ++ nl)]
                        else [])))
                 = s2).
    { subst s2 out. unfold emit. cbn [jobs nextjid verbose trace].
      rewrite <- !app_assoc. reflexivity. }
    rewrite E2. unfold waitfg. now rewrite Hg. }
  split.
  - intros Hidle. rewrite He. now apply waitfg_loop_idle.
  - intros c env' Henv. rewrite He, Henv. cbn [waitfg_loop]. rewrite Hfg.
    change (FG =? 1) with true. cbv iota.
    rewrite (sigchld_exited _ _ _ _ _ Hg). cbn [sigchld_handler].
    assert (Hback : upd i clearjob (jobs s2) = jobs s).
    { subst s2. cbn [jobs]. rewrite upd_upd. apply upd_id. unfold clearjob.
      symmetry. exact (Hclear _ (slot_In _ _ Hi) Hz). }
    rewrite Hback.
    assert (Hst : (state (slot i (jobs s)) =? 1) = false).
    { rewrite (Hclear _ (slot_In _ _ Hi) Hz). reflexivity. }
    destruct env'; cbn [waitfg_loop jobs]; rewrite Hst; reflexivity.
Qed.

Lemma eval_foreground_job_witness :
  eval ("/bin/ls" ++ nl) (mkos 100 true "" [[(100, WExited 0)]]) after_wrap =
    Ret tt (mkshell (jobs after_wrap) 17 false [SigBlock; Fork 100; SigUnblock]).
Proof.
  exact (proj2 (eval_foreground_job ("/bin/ls" ++ nl) "/bin/ls" []
                  (mkos 100 true "" [[(100, WExited 0)]]) after_wrap 0
                  after_wrap_reachable eq_refl eq_refl eq_refl eq_refl eq_refl)
           0 [] eq_refl).
Defined.

(** X26.  A command that is not built in.  When [fork] fails the shell
    prints "forking error: " with the system's message and exits with
    status 1.  In the child the job list is not touched: the child makes
    itself the leader of a new process group, then calls [execvp] with the
    first argument as the file and the whole vector; when that fails it
    prints "<argv[0]>: Command not found" and exits with status 1. *)
Theorem eval_fork_and_exec_failures (cmdline arg0 : string) (args : list string)
    (bg : Z) (w : os) (s : shell) :
  parseline cmdline = Some (arg0 :: args, bg) ->
  builtin_cmd (arg0 :: args) (reaped_during_wait w) s = Ret 0 s ->
  (fork_ret w < 0 ->
   eval cmdline w s =
     Exit 1 (mkshell (jobs s) (nextjid s) (verbose s)
               (trace s ++ [SigBlock; Fork (fork_ret w);
                            Print ("forking error: " ++ strerror w ++ nl)]))) /\
  (fork_ret w = 0 -> exec_ok w = false ->
   eval cmdline w s =
     Exit 1 (mkshell (jobs s) (nextjid s) (verbose s)
               (trace s ++ [SigBlock; Fork 0; Setpgrp; Execvp arg0 (arg0 :: args);
                            Print (arg0 ++ ": Command not found" ++ nl)]))) /\
  (fork_ret w = 0 -> exec_ok w = true ->
   eval cmdline w s =
     Exec (mkshell (jobs s) (nextjid s) (verbose s)
             (trace s ++ [SigBlock; Fork 0; Setpgrp; Execvp arg0 (arg0 :: args)]))).
Proof.
  intros Hparse Hb. rewrite (eval_external _ _ _ _ _ _ Hparse Hb). cbv zeta.
  split; [|split].
  - intros Hneg. destruct (Z.ltb_spec (fork_ret w) 0); [|lia].
    unfold unix_error, printf, emit. cbn [jobs nextjid verbose trace].
    rewrite <- !app_assoc. reflexivity.
  - intros -> ->. cbn [Z.ltb Z.eqb Z.compare].
    unfold printf, emit. cbn [jobs nextjid verbose trace].
    rewrite <- !app_assoc. reflexivity.
  - intros -> ->. cbn [Z.ltb Z.eqb Z.compare].
    unfold printf, emit. cbn [jobs nextjid verbose trace].
    rewrite <- !app_assoc. reflexivity.
Qed.

Lemma eval_fork_and_exec_failures_witness :
  eval ("nosuchprogram -x" ++ nl) (mkos 0 false "" []) two_jobs =
    Exit 1 (mkshell (jobs two_jobs) 3 false
              [SigBlock; Fork 0; Setpgrp;
               Execvp "nosuchprogram" ["nosuchprogram"; "-x"];
               Print ("nosuchprogram: Command not found" ++ nl)]).
Proof.
  exact (proj1 (proj2 (eval_fork_and_exec_failures ("nosuchprogram -x" ++ nl)
                         "nosuchprogram" ["-x"] 0 (mkos 0 false "" []) two_jobs
                         eq_refl eq_refl))
           eq_refl eq_refl).
Defined.

(** ** The argument check of bg and fg, on examples *)

Lemma do_bgfg_rejects_non_digits_witness :
  do_bgfg ["fg"; "12a"] [] two_jobs
    = Ret tt (printf ("fg: argument must be PID or %jobid" ++ nl) two_jobs) \/
  do_bgfg ["fg"; "12a"] [] two_jobs = Fault.
Proof.
  exact (do_bgfg_rejects_non_digits "fg" "12a" [] [] two_jobs (or_introl eq_refl) eq_refl).
Defined.

Lemma forty_two_fits : digits_value 0 (after_percent "42") <= INT_MAX.
Proof. vm_compute. discriminate. Qed.

Lemma accepted_iff_numeral_witness :
  exists result, atoi "42" = Some result /\ count_digits result = 2.
Proof.
  exact (proj2 (accepted_iff_numeral "42" forty_two_fits) (conj eq_refl eq_refl)).
Defined.
